(** * Stagehand Chrome extension: the background script's relay protocol

    A shallow embedding of [chrome_extension/background.js].  The script is
    a set of event handlers over a few global variables; its [async]
    functions suspend at every [await] of a [chrome.*] promise and are
    resumed later by the browser, possibly after other handlers have run.

    The embedding keeps that structure:
    - [State] holds the script's globals together with the two browser-side
      registries the script writes to (the [chrome.debugger.onEvent]
      listener list and the pending [setTimeout] timers);
    - observable actions ([console.*], [serverWs.send], [new WebSocket],
      [chrome.*] calls) are collected as a list of [Effect]s;
    - an [async] function is a resumption: it runs synchronously up to the
      next [await] of a browser promise, where it hands a continuation to
      the browser.  An [await] of a call that never waits for the browser
      resumes within the same task, before any other handler can run, and
      is no suspension point. *)

From stdpp Require Import base option list strings gmap fin_maps countable pretty.
From Stdlib Require Import ZArith Lia Sorted.

Local Open Scope string_scope.
Local Open Scope list_scope.
Local Open Scope Z_scope.

#[local] Set Warnings "-clear-no-such-hyp".

(** ** JavaScript values *)

(** Primitive values: what a JSON scalar or an absent field evaluates to.
    They are the values the script uses as [Map] keys, as [Set] members and
    as the [switch] discriminant; on them [===] and the [Map]'s key
    comparison coincide with Leibniz equality (numbers are integers: tab
    ids, counters). *)
Inductive Prim : Type :=
  | PUndefined
  | PNull
  | PBool (b : bool)
  | PNum (n : Z)
  | PStr (s : string).

#[global] Instance Prim_eq_dec : EqDecision Prim.
Proof. solve_decision. Defined.

Definition Prim_encode (p : Prim) : unit + (unit + (bool + (Z + string))) :=
  match p with
  | PUndefined => inl tt
  | PNull => inr (inl tt)
  | PBool b => inr (inr (inl b))
  | PNum n => inr (inr (inr (inl n)))
  | PStr s => inr (inr (inr (inr s)))
  end.

Definition Prim_decode (x : unit + (unit + (bool + (Z + string)))) : Prim :=
  match x with
  | inl _ => PUndefined
  | inr (inl _) => PNull
  | inr (inr (inl b)) => PBool b
  | inr (inr (inr (inl n))) => PNum n
  | inr (inr (inr (inr s))) => PStr s
  end.

#[global] Instance Prim_countable : Countable Prim.
Proof.
  apply (inj_countable' Prim_encode Prim_decode).
  intros []; reflexivity.
Defined.

(** Arbitrary values: message payloads and results. *)
#[warnings="-register-all"]
Inductive Val : Type :=
  | VPrim (p : Prim)
  | VArr (items : list Val)
  | VObj (fields : list (string * Val)).

Definition VUndefined : Val := VPrim PUndefined.
Definition VNull : Val := VPrim PNull.
Definition VBool (b : bool) : Val := VPrim (PBool b).
Definition VNum (n : Z) : Val := VPrim (PNum n).
Definition VStr (s : string) : Val := VPrim (PStr s).

(** [`${p}`] : string conversion inside a template literal.  A number is
    printed with all its digits, which is how the engine prints it up to
    [Number.MAX_SAFE_INTEGER] ([prints_exactly] below); larger numbers are
    rounded to a double by [JSON.parse] and printed in the engine's own
    way. *)
Definition to_str (p : Prim) : string :=
  match p with
  | PUndefined => "undefined"
  | PNull => "null"
  | PBool true => "true"
  | PBool false => "false"
  | PNum n => pretty n
  | PStr s => s
  end.

(** Truthiness, as tested by [if (v)] and [a || b]. *)
Definition truthy (v : Val) : bool :=
  match v with
  | VPrim PUndefined | VPrim PNull => false
  | VPrim (PBool b) => b
  | VPrim (PNum n) => negb (n =? 0)
  | VPrim (PStr s) => negb (String.eqb s "")
  | VArr _ | VObj _ => true
  end.

Fixpoint assoc (k : string) (l : list (string * Val)) : Val :=
  match l with
  | [] => VUndefined
  | (k', v) :: l' => if String.eqb k k' then v else assoc k l'
  end.

(** [v.k]: [None] stands for the [TypeError] raised on [undefined] and
    [null]; other non-objects have no such own property. *)
Definition get_field (k : string) (v : Val) : option Val :=
  match v with
  | VPrim PUndefined | VPrim PNull => None
  | VObj fs => Some (assoc k fs)
  | _ => Some VUndefined
  end.

(** A function parameter with a default value ([params = {}]). *)
Definition default_param (d v : Val) : Val :=
  match v with
  | VPrim PUndefined => d
  | _ => v
  end.

(** Strings are held as their UTF-8 bytes.  A byte [10xxxxxx] continues the
    code point that the bytes before it started. *)
Definition is_continuation (b : Ascii.ascii) : bool :=
  let n := Ascii.nat_of_ascii b in
  (128 <=? n)%nat && (n <? 192)%nat.

(** The bytes of a string, grouped by code point from the right: the
    continuation bytes met so far, and the code points completed. *)
Fixpoint group_code_points (bytes : list Ascii.ascii) : string * list string :=
  match bytes with
  | [] => (EmptyString, [])
  | b :: rest =>
      let '(pending, done) := group_code_points rest in
      if is_continuation b then (String b pending, done)
      else (EmptyString, String b pending :: done)
  end.

(** What [for (const c of text)] iterates over: the code points of [text],
    one string each. *)
Definition code_points (text : string) : list string :=
  let '(pending, done) := group_code_points (String.list_ascii_of_string text) in
  match pending with
  | EmptyString => done
  | _ => pending :: done
  end.



(** ** Errors *)

(** The text of an error's [stack] is made up by the engine.  It is kept
    symbolic: the error line it starts with and the function the error was
    created in. *)
Inductive Stack : Type := StackAt (line : string) (fn : string).

(** A thrown [Error]: the two properties the script reads. *)
Record Err : Type := mkErr { err_message : string; err_stack : Stack }.

(** [new Error(msg)], created inside function [fn]. *)
Definition new_Error (fn msg : string) : Err :=
  mkErr msg (StackAt ("Error: " +:+ msg) fn).

(** A [TypeError] the engine raises inside function [fn]. *)
Definition new_TypeError (fn msg : string) : Err :=
  mkErr msg (StackAt ("TypeError: " +:+ msg) fn).

(** Completion of a call: a value or a thrown error. *)
Inductive Res (A : Type) : Type :=
  | Ok (a : A)
  | Throw (e : Err).
Arguments Ok {A} a.
Arguments Throw {A} e.

(** ** The browser API *)

(** A [chrome.tabs.Tab], restricted to the properties the script reads. *)
Record Tab : Type := mkTab {
  tab_id : Val; tab_url : Val; tab_title : Val; tab_active : Val; tab_index : Val
}.

(** The promises the script awaits, indexed by the type they resolve to. *)
Inductive ChromeCall : Type -> Type :=
  | tabs_query (queryInfo : Val) : ChromeCall (list Tab)
  | tabs_update (tabId : Prim) (url : Val) : ChromeCall unit
  | tabs_create (url : Val) : ChromeCall Tab
  | tabs_remove (tabId : Prim) : ChromeCall unit
  | tabs_get (tabId : Prim) : ChromeCall Tab
  | debugger_attach (tabId : Prim) (version : string) : ChromeCall unit
  | debugger_detach (tabId : Prim) : ChromeCall unit
  | debugger_sendCommand (tabId : Prim) (method params : Val) : ChromeCall Val
  (* [chrome.scripting.executeScript] with the [eval] wrapper of
     [evaluateScript]; resolves to the [result] of each injection, or to
     [None] for a falsy [results]. *)
  | scripting_evaluate (tabId : Prim) (script args : Val) : ChromeCall (option (list Val))
  (* [chrome.scripting.executeScript] with [func: new Function(script)], all
     frames; resolves to [results.length].  A rejection also stands for the
     [new Function] constructor throwing. *)
  | scripting_inject (tabId : Prim) (script : Val) : ChromeCall nat
  | cookies_set (cookie : Val) : ChromeCall unit
  | cookies_getAll (url : Val) : ChromeCall Val
  (* the promise built by [waitForNavigation]: resolved by a matching
     [webNavigation.onCompleted] event, rejected by its timeout. *)
  | navigation_completed (tabId : Prim) (waitUntil timeout : Val) : ChromeCall unit.

(** How the browser settles a promise. *)
Definition Oracle : Type := forall T, ChromeCall T -> Res T.

(** ** Messages *)

(** An inbound message after [JSON.parse]: the properties the script reads;
    an absent property is [undefined]. *)
Record Message : Type := mkMessage {
  msg_id : Val;
  msg_type : Prim;
  msg_tabId : Prim;
  msg_method : Prim;
  msg_params : Val;
  msg_script : Val;
  msg_args : Val;
  msg_url : Val;
  msg_options : Val;
  msg_cookies : Val;
  msg_eventName : Prim;
  msg_listenerId : Prim
}.

(** What [JSON.parse(event.data)] yields. *)
Inductive Parsed : Type :=
  | ParseError (e : Err)      (* [JSON.parse] throws *)
  | ParsedNull                (* the JSON text [null] *)
  | ParsedMsg (m : Message).

(** The objects handed to [sendToServer]. *)
Inductive Outbound : Type :=
  | ExtensionReady (timestamp : Z)
  | ResponseOk (id : Val) (result : Val)
  | ResponseErr (id : Val) (error : string) (stack : Stack)
  | CdpEvent (tabId : Prim) (method : string) (params : Val) (timestamp : Z)
  | DebuggerDetached (tabId : Prim) (reason : Val)
  | TabClosed (tabId : Prim)
  | Ping (timestamp : Z).

Definition out_type (o : Outbound) : string :=
  match o with
  | ExtensionReady _ => "EXTENSION_READY"
  | ResponseOk _ _ | ResponseErr _ _ _ => "RESPONSE"
  | CdpEvent _ _ _ _ => "CDP_EVENT"
  | DebuggerDetached _ _ => "DEBUGGER_DETACHED"
  | TabClosed _ => "TAB_CLOSED"
  | Ping _ => "PING"
  end.

(** The [id] property of an outbound object ([None]: it has none). *)
Definition out_id (o : Outbound) : option Val :=
  match o with
  | ResponseOk id _ | ResponseErr id _ _ => Some id
  | _ => None
  end.


(** ** Effects *)

Inductive Level : Type := Log | Error.

(** An argument of [console.log] or [console.error]. *)
Inductive LogArg : Type :=
  | LogVal (v : Val)
  | LogErr (e : Err).
Definition text (s : string) : LogArg := LogVal (VStr s).

Inductive Effect : Type :=
  | Console (lvl : Level) (args : list LogArg)
  | WsNew (url : string)                        (* [new WebSocket(url)] *)
  | WsSend (o : Outbound)                       (* [serverWs.send(JSON.stringify(o))] *)
  | Called (T : Type) (c : ChromeCall T).       (* a [chrome.*] call is issued *)
Arguments Called {T} c.

(** The objects put on the wire. *)
Fixpoint wire (out : list Effect) : list Outbound :=
  match out with
  | [] => []
  | WsSend o :: out' => o :: wire out'
  | _ :: out' => wire out'
  end.

(** The [chrome.*] calls issued. *)
Fixpoint chrome_calls (out : list Effect) : list { T : Type & ChromeCall T } :=
  match out with
  | [] => []
  | Called c :: out' => existT _ c :: chrome_calls out'
  | _ :: out' => chrome_calls out'
  end.

(** ** State *)

Inductive ReadyState : Type := CONNECTING | OPEN | CLOSING | CLOSED.

#[global] Instance ReadyState_eq_dec : EqDecision ReadyState.
Proof. solve_decision. Defined.

(** A value of [activeSessions]: [{attached, listeners}].  A forwarding
    listener is a closure over the tab id it was created for, which is how
    [listeners] records it. *)
Record Session : Type := mkSession {
  attached : bool;
  listeners : list Prim
}.

(** The map [pendingRequests] is declared by the script and never read or
    written; it is left out. *)
Record State : Type := mkState {
  (* [serverWs]: [None] is [null], otherwise the socket's [readyState] *)
  serverWs : option ReadyState;
  reconnectAttempts : Z;
  (* [activeSessions]: tabId -> {attached, listeners} *)
  activeSessions : gmap Prim Session;
  (* [cdpEventListeners]: tabId -> Map<eventName, Set<listenerId>> *)
  cdpEventListeners : gmap Prim (gmap Prim (gset Prim));
  (* listeners added to [chrome.debugger.onEvent], by captured tab id *)
  onEventListeners : list Prim;
  (* delays of the pending [setTimeout(connectToServer, delay)] timers *)
  timers : list Z
}.

Definition SERVER_URL : string := "ws://localhost:8766".
Definition MAX_RECONNECT_ATTEMPTS : Z := 5.

(** The globals as the script's declarations initialise them. *)
Definition initial : State :=
  {| serverWs := None; reconnectAttempts := 0; activeSessions := ∅;
     cdpEventListeners := ∅; onEventListeners := []; timers := [] |}.

Definition set_serverWs (w : option ReadyState) (s : State) : State :=
  {| serverWs := w; reconnectAttempts := reconnectAttempts s;
     activeSessions := activeSessions s; cdpEventListeners := cdpEventListeners s;
     onEventListeners := onEventListeners s; timers := timers s |}.

Definition set_reconnectAttempts (n : Z) (s : State) : State :=
  {| serverWs := serverWs s; reconnectAttempts := n;
     activeSessions := activeSessions s; cdpEventListeners := cdpEventListeners s;
     onEventListeners := onEventListeners s; timers := timers s |}.

Definition set_activeSessions (m : gmap Prim Session) (s : State) : State :=
  {| serverWs := serverWs s; reconnectAttempts := reconnectAttempts s;
     activeSessions := m; cdpEventListeners := cdpEventListeners s;
     onEventListeners := onEventListeners s; timers := timers s |}.

Definition set_cdpEventListeners (m : gmap Prim (gmap Prim (gset Prim))) (s : State) : State :=
  {| serverWs := serverWs s; reconnectAttempts := reconnectAttempts s;
     activeSessions := activeSessions s; cdpEventListeners := m;
     onEventListeners := onEventListeners s; timers := timers s |}.

Definition set_onEventListeners (l : list Prim) (s : State) : State :=
  {| serverWs := serverWs s; reconnectAttempts := reconnectAttempts s;
     activeSessions := activeSessions s; cdpEventListeners := cdpEventListeners s;
     onEventListeners := l; timers := timers s |}.

Definition set_timers (l : list Z) (s : State) : State :=
  {| serverWs := serverWs s; reconnectAttempts := reconnectAttempts s;
     activeSessions := activeSessions s; cdpEventListeners := cdpEventListeners s;
     onEventListeners := onEventListeners s; timers := l |}.

(** ** Resumptions *)

(** One run of an [async] function: it either completes, or reaches an
    [await] and leaves the continuation [k] with the browser.  The
    continuation gets the promise's outcome and the state of the globals at
    the time it is resumed; [s] and [out] are the state and the effects
    when the synchronous part ends. *)
Inductive Step (A : Type) : Type :=
  | Done (r : Res A) (s : State) (out : list Effect)
  | Await (T : Type) (c : ChromeCall T) (s : State) (out : list Effect)
          (k : Res T -> State -> Step A).
Arguments Done {A} r s out.
Arguments Await {A T} c s out k.

Definition prepend {A} (pre : list Effect) (x : Step A) : Step A :=
  match x with
  | Done r s out => Done r s (pre ++ out)
  | Await c s out k => Await c s (pre ++ out) k
  end.

Fixpoint bind_step {A B} (x : Step A) (f : A -> State -> Step B) : Step B :=
  match x with
  | Done (Ok a) s out => prepend out (f a s)
  | Done (Throw e) s out => Done (Throw e) s out
  | Await c s out k => Await c s out (fun o s' => bind_step (k o s') f)
  end.

(** [try { x } catch (e) { h e }]: the state reached when the error is
    thrown is kept. *)
Fixpoint catch_step {A} (x : Step A) (h : Err -> State -> Step A) : Step A :=
  match x with
  | Done (Ok a) s out => Done (Ok a) s out
  | Done (Throw e) s out => prepend out (h e s)
  | Await c s out k => Await c s out (fun o s' => catch_step (k o s') h)
  end.

Definition M (A : Type) : Type := State -> Step A.

#[global] Instance M_ret : MRet M := fun A a s => Done (Ok a) s [].
#[global] Instance M_bind : MBind M := fun A B f m s => bind_step (m s) f.

Definition throw {A} (e : Err) : M A := fun s => Done (Throw e) s [].
Definition try_catch {A} (m : M A) (h : Err -> M A) : M A :=
  fun s => catch_step (m s) h.
Definition gets {A} (f : State -> A) : M A := fun s => Done (Ok (f s)) s [].
Definition modify (f : State -> State) : M unit := fun s => Done (Ok tt) (f s) [].
Definition emit (e : Effect) : M unit := fun s => Done (Ok tt) s [e].

(** [await chrome.…]: the call is issued, the function suspends. *)
Definition await {T} (c : ChromeCall T) : M T :=
  fun s => Await c s [Called c] (fun o s' => Done o s' []).

Definition console_log (args : list LogArg) : M unit := emit (Console Log args).
Definition console_error (args : list LogArg) : M unit := emit (Console Error args).

(** ** The script *)

(** [sendToServer(message)] *)
Definition sendToServer (message : Outbound) : M unit :=
  ws ← gets serverWs;
  if decide (ws = Some OPEN)
  then emit (WsSend message)
  else console_error [text "[Stagehand] Cannot send message - server not connected"].

(** [connectToServer()].  [new WebSocket(SERVER_URL)] does not throw for
    this constant, well-formed URL, so the [catch] around it is dead; the
    four handlers it installs are [onopen], [onmessage], [onerror] and
    [onclose] below. *)
Definition connectToServer : M unit :=
  ws ← gets serverWs;
  if decide (ws = Some OPEN ∨ ws = Some CONNECTING)
  then mret tt
  else
    console_log [text "[Stagehand] Connecting to server at"; text SERVER_URL];;
    emit (WsNew SERVER_URL);;
    modify (set_serverWs (Some CONNECTING)).

(** [serverWs.onopen]; [now] is [Date.now()]. *)
Definition onopen (now : Z) : M unit :=
  console_log [text "[Stagehand] Connected to Python server"];;
  modify (set_reconnectAttempts 0);;
  sendToServer (ExtensionReady now).

(** [serverWs.onerror] *)
Definition onerror (error : Val) : M unit :=
  console_error [text "[Stagehand] WebSocket error:"; LogVal error].

(** The delay computed in [onclose]:
    [Math.min(1000 * Math.pow(2, reconnectAttempts), 10000)]. *)
Definition reconnect_delay (attempt : Z) : Z :=
  Z.min (1000 * 2 ^ attempt) 10000.

(** [serverWs.onclose] *)
Definition onclose : M unit :=
  console_log [text "[Stagehand] Disconnected from server"];;
  modify (set_serverWs None);;
  n ← gets reconnectAttempts;
  if decide (n < MAX_RECONNECT_ATTEMPTS)
  then
    modify (set_reconnectAttempts (n + 1));;
    attempts ← gets reconnectAttempts;
    let delay := reconnect_delay attempts in
    console_log [text ("[Stagehand] Reconnecting in " +:+ pretty delay +:+ "ms (attempt "
                       +:+ pretty attempts +:+ "/" +:+ pretty MAX_RECONNECT_ATTEMPTS +:+ ")")];;
    modify (fun s => set_timers (timers s ++ [delay]) s)
  else mret tt.

(** [getActiveTab()] *)
Definition getActiveTab : M Val :=
  tabs ← await (tabs_query (VObj [("active", VBool true); ("currentWindow", VBool true)]));
  match tabs with
  | [] => throw (new_Error "getActiveTab" "No active tab found")
  | t :: _ => mret (VObj [("tabId", tab_id t); ("url", tab_url t); ("title", tab_title t)])
  end.

(** [activeSessions.has(tabId) && activeSessions.get(tabId).attached] *)
Definition is_attached (tabId : Prim) (s : State) : bool :=
  match activeSessions s !! tabId with
  | Some session => attached session
  | None => false
  end.

Definition has_session (tabId : Prim) (s : State) : bool :=
  bool_decide (is_Some (activeSessions s !! tabId)).

(** The closure [listener] that [setupCDPEventForwarding(tabId)] creates;
    [now] is its [Date.now()]. *)
Definition forwarding_listener (tabId : Prim)
    (source_tabId : Prim) (method : string) (params : Val) (now : Z) : M unit :=
  if decide (source_tabId = tabId)
  then
    tabListeners ← gets (fun s => cdpEventListeners s !! tabId);
    match tabListeners with
    | Some events =>
        if decide (is_Some (events !! PStr method))
        then sendToServer (CdpEvent tabId method params now)
        else mret tt
    | None => mret tt
    end
  else mret tt.

(** [setupCDPEventForwarding(tabId)] *)
Definition setupCDPEventForwarding (tabId : Prim) : M unit :=
  has ← gets (has_session tabId);
  (if has : bool then mret tt
   else modify (fun s =>
          set_activeSessions (<[tabId := mkSession true []]> (activeSessions s)) s));;
  modify (fun s =>
    set_activeSessions
      (alter (fun ses => mkSession (attached ses) (listeners ses ++ [tabId]))
             tabId (activeSessions s)) s);;
  modify (fun s => set_onEventListeners (onEventListeners s ++ [tabId]) s).

(** [attachDebugger(tabId)] *)
Definition attachDebugger (tabId : Prim) : M Val :=
  try_catch
    (already ← gets (is_attached tabId);
     if already : bool
     then
       console_log [text ("[Stagehand] Debugger already attached to tab " +:+ to_str tabId)];;
       mret (VObj [("attached", VBool true); ("alreadyAttached", VBool true)])
     else
       await (debugger_attach tabId "1.3");;
       console_log [text ("[Stagehand] Debugger attached to tab " +:+ to_str tabId)];;
       modify (fun s =>
         set_activeSessions (<[tabId := mkSession true []]> (activeSessions s)) s);;
       setupCDPEventForwarding tabId;;
       mret (VObj [("attached", VBool true)]))
    (fun error =>
       console_error [text ("[Stagehand] Failed to attach debugger to tab "
                            +:+ to_str tabId +:+ ":"); LogErr error];;
       throw error).

(** [detachDebugger(tabId)] *)
Definition detachDebugger (tabId : Prim) : M Val :=
  try_catch
    (live ← gets (is_attached tabId);
     if negb live
     then mret (VObj [("detached", VBool false); ("reason", VStr "Not attached")])
     else
       await (debugger_detach tabId);;
       console_log [text ("[Stagehand] Debugger detached from tab " +:+ to_str tabId)];;
       modify (fun s => set_activeSessions (delete tabId (activeSessions s)) s);;
       modify (fun s => set_cdpEventListeners (delete tabId (cdpEventListeners s)) s);;
       mret (VObj [("detached", VBool true)]))
    (fun error =>
       console_error [text ("[Stagehand] Failed to detach debugger from tab "
                            +:+ to_str tabId +:+ ":"); LogErr error];;
       throw error).

(** [sendCDPCommand(tabId, method, params = {})] *)
Definition sendCDPCommand (tabId : Prim) (method : Prim) (params : Val) : M Val :=
  let params := default_param (VObj []) params in
  try_catch
    (live ← gets (is_attached tabId);
     (if negb live then attachDebugger tabId;; mret tt else mret tt);;
     console_log [text ("[Stagehand] Sending CDP command to tab " +:+ to_str tabId +:+ ":");
                  LogVal (VPrim method); LogVal params];;
     result ← await (debugger_sendCommand tabId (VPrim method) params);
     mret result)
    (fun error =>
       console_error [text ("[Stagehand] CDP command failed (" +:+ to_str method +:+ "):");
                      LogErr error];;
       throw error).

(** [cdpEventListeners.get(tabId).get(eventName)], empty when absent. *)
Definition subscribers (tabId eventName : Prim) (s : State) : gset Prim :=
  default ∅ (cdpEventListeners s !! tabId ≫= fun events => events !! eventName).

(** [registerCDPListener(tabId, eventName, listenerId)] *)
Definition registerCDPListener (tabId eventName listenerId : Prim) : M Val :=
  has ← gets (fun s => bool_decide (is_Some (cdpEventListeners s !! tabId)));
  (if has : bool then mret tt
   else modify (fun s =>
          set_cdpEventListeners (<[tabId := ∅]> (cdpEventListeners s)) s));;
  hasEvent ← gets (fun s =>
    bool_decide (is_Some (cdpEventListeners s !! tabId ≫= fun events => events !! eventName)));
  (if hasEvent : bool then mret tt
   else modify (fun s =>
          set_cdpEventListeners
            (alter (fun events => <[eventName := ∅]> events) tabId (cdpEventListeners s)) s));;
  modify (fun s =>
    set_cdpEventListeners
      (alter (alter (fun ids => {[listenerId]} ∪ ids) eventName) tabId
             (cdpEventListeners s)) s);;
  console_log [text ("[Stagehand] Registered CDP listener for " +:+ to_str eventName
                     +:+ " on tab " +:+ to_str tabId)];;
  mret (VObj [("registered", VBool true)]).

(** [unregisterCDPListener(tabId, eventName, listenerId)] *)
Definition unregisterCDPListener (tabId eventName listenerId : Prim) : M Val :=
  hasEvent ← gets (fun s =>
    bool_decide (is_Some (cdpEventListeners s !! tabId ≫= fun events => events !! eventName)));
  (if hasEvent : bool then
     modify (fun s =>
       set_cdpEventListeners
         (alter (alter (fun ids => ids ∖ {[listenerId]}) eventName) tabId
                (cdpEventListeners s)) s);;
     (* Clean up empty sets *)
     n ← gets (fun s => size (subscribers tabId eventName s));
     if decide (n = 0%nat)
     then modify (fun s =>
            set_cdpEventListeners
              (alter (fun events => delete eventName events) tabId (cdpEventListeners s)) s)
     else mret tt
   else mret tt);;
  mret (VObj [("unregistered", VBool true)]).

(** [evaluateScript(tabId, script, args = [])] *)
Definition evaluateScript (tabId : Prim) (script args : Val) : M Val :=
  let args := default_param (VArr []) args in
  try_catch
    (results ← await (scripting_evaluate tabId script args);
     match results with
     | Some (r :: _) => mret r
     | _ => mret VNull
     end)
    (fun error =>
       console_error [text "[Stagehand] Script evaluation failed:"; LogErr error];;
       throw error).

(** [waitForNavigation(tabId, waitUntil = 'load', timeout = 30000)] *)
Definition waitForNavigation (tabId : Prim) (waitUntil timeout : Val) : M unit :=
  await (navigation_completed tabId (default_param (VStr "load") waitUntil)
                              (default_param (VNum 30000) timeout)).

(** [navigateTo(tabId, url, options = {})] *)
Definition navigateTo (tabId : Prim) (url options : Val) : M Val :=
  let options := default_param (VObj []) options in
  try_catch
    (await (tabs_update tabId url);;
     match get_field "waitUntil" options with
     | None =>
         throw (new_TypeError "navigateTo" "Cannot read properties of null (reading 'waitUntil')")
     | Some waitUntil =>
         if truthy waitUntil
         then waitForNavigation tabId waitUntil
                (default VUndefined (get_field "timeout" options))
         else mret tt
     end;;
     mret (VObj [("navigated", VBool true); ("url", url)]))
    (fun error =>
       console_error [text "[Stagehand] Navigation failed:"; LogErr error];;
       throw error).

Definition tab_summary (tab : Tab) : Val :=
  VObj [("tabId", tab_id tab); ("url", tab_url tab); ("title", tab_title tab)].

Definition tab_info (tab : Tab) : Val :=
  VObj [("tabId", tab_id tab); ("url", tab_url tab); ("title", tab_title tab);
        ("active", tab_active tab); ("index", tab_index tab)].

(** [createTab(url)] *)
Definition createTab (url : Val) : M Val :=
  tab ← await (tabs_create (if truthy url then url else VStr "about:blank"));
  mret (tab_summary tab).

(** [closeTab(tabId)] *)
Definition closeTab (tabId : Prim) : M Val :=
  await (tabs_remove tabId);;
  (* Clean up sessions *)
  has ← gets (has_session tabId);
  (if has : bool then detachDebugger tabId;; mret tt else mret tt);;
  mret (VObj [("closed", VBool true)]).

(** [getTabInfo(tabId)] *)
Definition getTabInfo (tabId : Prim) : M Val :=
  tab ← await (tabs_get tabId);
  mret (tab_info tab).

(** [getAllTabs()] *)
Definition getAllTabs : M Val :=
  tabs ← await (tabs_query (VObj []));
  mret (VArr (map tab_info tabs)).

(** The body of the [for … of] loop of [setCookies], over the remaining
    cookies. *)
Fixpoint setCookies_loop (cookies : list Val) (results : list Val) : M Val :=
  match cookies with
  | [] => mret (VArr results)
  | cookie :: rest =>
      r ← try_catch
            (await (cookies_set cookie);;
             mret (VObj [("success", VBool true); ("cookie", cookie)]))
            (fun error =>
               mret (VObj [("success", VBool false); ("cookie", cookie);
                           ("error", VStr (err_message error))]));
      setCookies_loop rest (results ++ [r])
  end.

(** [setCookies(cookies)]: only an array (or, code point by code point, a
    string) can be iterated. *)
Definition setCookies (cookies : Val) : M Val :=
  match cookies with
  | VArr items => setCookies_loop items []
  | VPrim (PStr text) => setCookies_loop (map VStr (code_points text)) []
  | _ => throw (new_TypeError "setCookies" "cookies is not iterable")
  end.

(** [getCookies(url)] *)
Definition getCookies (url : Val) : M Val :=
  await (cookies_getAll url).

(** [injectScript(tabId, script)].  [new Function(script)] refusing the
    body of the script is not told apart from the browser rejecting the
    call: both are the [Throw] outcome of [scripting_inject]. *)
Definition injectScript (tabId : Prim) (script : Val) : M Val :=
  try_catch
    (n ← await (scripting_inject tabId script);
     mret (VObj [("injected", VBool true); ("results", VNum (Z.of_nat n))]))
    (fun error =>
       console_error [text "[Stagehand] Script injection failed:"; LogErr error];;
       throw error).


Definition is_type (label : string) (type : Prim) : bool :=
  bool_decide (type = PStr label).

(** The [switch (type)] of [handleServerMessage], [PONG] apart: the call
    that computes [result]. *)
Definition dispatch (message : Message) : M Val :=
  let type := msg_type message in
  let tabId := msg_tabId message in
  if is_type "GET_ACTIVE_TAB" type then getActiveTab
  else if is_type "ATTACH_DEBUGGER" type then attachDebugger tabId
  else if is_type "DETACH_DEBUGGER" type then detachDebugger tabId
  else if is_type "CDP_COMMAND" type then
    sendCDPCommand tabId (msg_method message) (msg_params message)
  else if is_type "EVALUATE" type then
    evaluateScript tabId (msg_script message) (msg_args message)
  else if is_type "NAVIGATE" type then
    navigateTo tabId (msg_url message) (msg_options message)
  else if is_type "CREATE_TAB" type then createTab (msg_url message)
  else if is_type "CLOSE_TAB" type then closeTab tabId
  else if is_type "GET_TAB_INFO" type then getTabInfo tabId
  else if is_type "GET_ALL_TABS" type then getAllTabs
  else if is_type "SET_COOKIES" type then setCookies (msg_cookies message)
  else if is_type "GET_COOKIES" type then getCookies (msg_url message)
  else if is_type "INJECT_SCRIPT" type then injectScript tabId (msg_script message)
  else if is_type "REGISTER_CDP_LISTENER" type then
    registerCDPListener tabId (msg_eventName message) (msg_listenerId message)
  else if is_type "UNREGISTER_CDP_LISTENER" type then
    unregisterCDPListener tabId (msg_eventName message) (msg_listenerId message)
  else throw (new_Error "handleServerMessage" ("Unknown message type: " +:+ to_str type)).

(** [handleServerMessage(message)] *)
Definition handleServerMessage (message : Message) : M unit :=
  let id := msg_id message in
  let type := msg_type message in
  try_catch
    (if is_type "PONG" type
     then (* Ignore PONG messages (keepalive response) *) mret tt
     else
       result ← dispatch message;
       (* Send response back *)
       sendToServer (ResponseOk id result))
    (fun error =>
       console_error [text ("[Stagehand] Error handling " +:+ to_str type +:+ ":");
                      LogErr error];;
       sendToServer (ResponseErr id (err_message error) (err_stack error))).

(** [serverWs.onmessage].  Destructuring [null] throws before the [try] of
    [handleServerMessage] is entered. *)
Definition onmessage (data : Parsed) : M unit :=
  try_catch
    (match data with
     | ParseError e => throw e
     | ParsedNull =>
         throw (new_TypeError "handleServerMessage"
                  "Cannot destructure property 'id' of 'message' as it is null.")
     | ParsedMsg message => handleServerMessage message
     end)
    (fun error =>
       console_error [text "[Stagehand] Error handling server message:"; LogErr error]).

(** The [chrome.debugger.onDetach] listener *)
Definition onDetach (source_tabId : Prim) (reason : Val) : M unit :=
  console_log [text ("[Stagehand] Debugger detached from tab " +:+ to_str source_tabId
                     +:+ ", reason:"); LogVal reason];;
  has ← gets (has_session source_tabId);
  if has : bool then
    modify (fun s => set_activeSessions (delete source_tabId (activeSessions s)) s);;
    modify (fun s => set_cdpEventListeners (delete source_tabId (cdpEventListeners s)) s);;
    (* Notify server *)
    sendToServer (DebuggerDetached source_tabId reason)
  else mret tt.

(** The [chrome.tabs.onRemoved] listener *)
Definition onRemoved (tabId : Prim) : M unit :=
  has ← gets (has_session tabId);
  if has : bool then
    modify (fun s => set_activeSessions (delete tabId (activeSessions s)) s);;
    modify (fun s => set_cdpEventListeners (delete tabId (cdpEventListeners s)) s);;
    sendToServer (TabClosed tabId)
  else mret tt.

(** The [chrome.runtime.onStartup] listener *)
Definition onStartup : M unit :=
  console_log [text "[Stagehand] Browser started, connecting to server"];;
  connectToServer.

(** The [setInterval] callback that keeps the service worker alive *)
Definition keepAlive (now : Z) : M unit :=
  ws ← gets serverWs;
  if decide (ws = Some OPEN) then sendToServer (Ping now) else mret tt.

(** [chrome.debugger.onEvent] fires: the listeners run in the order they
    were added; [clock i] is [Date.now()] as the [i]-th of them reads it. *)
Fixpoint run_listeners (ls : list Prim) (i : nat)
    (source_tabId : Prim) (method : string) (params : Val) (clock : nat -> Z) : M unit :=
  match ls with
  | [] => mret tt
  | tabId :: rest =>
      forwarding_listener tabId source_tabId method params (clock i);;
      run_listeners rest (S i) source_tabId method params clock
  end.

Definition onEvent (source_tabId : Prim) (method : string) (params : Val)
    (clock : nat -> Z) : M unit :=
  ls ← gets onEventListeners;
  run_listeners ls 0 source_tabId method params clock.

(** The script's top level. *)
Definition main : M unit :=
  console_log [text "[Stagehand] Background script loaded"];;
  connectToServer;;
  console_log [text "[Stagehand] Background script initialized"].

(** ** The event loop *)

(** A suspended run of [onmessage]: the message it is handling, the promise
    it awaits and its continuation. *)
Record Task : Type := mkTask {
  origin : Message;
  task_type : Type;
  task_call : ChromeCall task_type;
  task_resume : Res task_type -> State -> Step unit
}.

Record Config : Type := mkConfig {
  globals : State;
  pool : list Task
}.

(** What the browser and the transport can do to the script. *)
Inductive Event : Type :=
  | EvStartup                                   (* [chrome.runtime.onStartup] *)
  | EvTimer (i : nat)                           (* the [i]-th pending timer fires *)
  | EvReadyState (rs : ReadyState)              (* the socket's [readyState] changes *)
  | EvOpen (now : Z)                            (* [serverWs.onopen] *)
  | EvMessage (data : Parsed)                   (* [serverWs.onmessage] *)
  | EvError (error : Val)                       (* [serverWs.onerror] *)
  | EvClose                                     (* [serverWs.onclose] *)
  | EvSettle (i : nat) (chrome : Oracle)        (* the promise of the [i]-th task settles *)
  | EvDebuggerEvent (source_tabId : Prim) (method : string) (params : Val)
                    (clock : nat -> Z)          (* [chrome.debugger.onEvent] *)
  | EvDebuggerDetach (source_tabId : Prim) (reason : Val)
                                                (* [chrome.debugger.onDetach] *)
  | EvTabRemoved (tabId : Prim)                 (* [chrome.tabs.onRemoved] *)
  | EvKeepAlive (now : Z).                      (* the 20 s interval *)

(** The state and effects at the end of the synchronous part. *)
Definition step_state {A} (x : Step A) : State :=
  match x with
  | Done _ s _ => s
  | Await _ s _ _ => s
  end.

Definition step_out {A} (x : Step A) : list Effect :=
  match x with
  | Done _ _ out => out
  | Await _ _ out _ => out
  end.

(** A run of [onmessage] for [message] has reached [x]: park it if it
    awaits. *)
Definition park (message : Message) (tasks : list Task) (x : Step unit) : list Task :=
  match x with
  | Done _ _ _ => tasks
  | Await c _ _ k => tasks ++ [mkTask message _ c k]
  end.

(** A listener that never awaits. *)
Definition react (m : M unit) (c : Config) : Config * list Effect :=
  let x := m (globals c) in
  (mkConfig (step_state x) (pool c), step_out x).

Definition step (ev : Event) (c : Config) : Config * list Effect :=
  match ev with
  | EvStartup => react onStartup c
  | EvTimer i =>
      match timers (globals c) !! i with
      | Some _ =>
          react (modify (fun s => set_timers (delete i (timers s)) s);; connectToServer) c
      | None => (c, [])
      end
  | EvReadyState rs =>
      match serverWs (globals c) with
      | Some _ => (mkConfig (set_serverWs (Some rs) (globals c)) (pool c), [])
      | None => (c, [])
      end
  | EvOpen now => react (onopen now) c
  | EvMessage data =>
      let x := onmessage data (globals c) in
      match data with
      | ParsedMsg message => (mkConfig (step_state x) (park message (pool c) x), step_out x)
      | _ => (mkConfig (step_state x) (pool c), step_out x)
      end
  | EvError error => react (onerror error) c
  | EvClose => react onclose c
  | EvSettle i chrome =>
      match pool c !! i with
      | Some t =>
          let x := task_resume t (chrome _ (task_call t)) (globals c) in
          (mkConfig (step_state x) (park (origin t) (delete i (pool c)) x), step_out x)
      | None => (c, [])
      end
  | EvDebuggerEvent source_tabId method params clock =>
      react (onEvent source_tabId method params clock) c
  | EvDebuggerDetach source_tabId reason => react (onDetach source_tabId reason) c
  | EvTabRemoved tabId => react (onRemoved tabId) c
  | EvKeepAlive now => react (keepAlive now) c
  end.

(** The configuration once the script has been loaded. *)
Definition loaded : Config := mkConfig (step_state (main initial)) [].

Inductive reachable : Config -> Prop :=
  | reachable_loaded : reachable loaded
  | reachable_step c ev : reachable c -> reachable (fst (step ev c)).

(** Runs of events, with everything they emit. *)
Fixpoint run (evs : list Event) (c : Config) : Config * list Effect :=
  match evs with
  | [] => (c, [])
  | ev :: evs' =>
      let '(c1, out1) := step ev c in
      let '(c2, out2) := run evs' c1 in
      (c2, out1 ++ out2)
  end.

(** ** Properties of runs *)

(** [R] relates the state at the start of every synchronous part of [x] to
    the state and effects at its end, whatever the browser answers and
    whatever ran while [x] was suspended. *)
Fixpoint segs {A} (R : State -> State -> list Effect -> Prop)
    (s0 : State) (x : Step A) : Prop :=
  match x with
  | Done _ s out => R s0 s out
  | Await _ s out k => R s0 s out ∧ ∀ o s1, segs R s1 (k o s1)
  end.

Definition obeys {A} (R : State -> State -> list Effect -> Prop) (m : M A) : Prop :=
  ∀ s, segs R s (m s).

(** Relations that can be chained along a sequence of statements. *)
Class Chains (R : State -> State -> list Effect -> Prop) : Prop := {
  chains_refl s : R s s [];
  chains_trans s0 s1 s2 o1 o2 : R s0 s1 o1 -> R s1 s2 o2 -> R s0 s2 (o1 ++ o2)
}.

(** Every suspended task, however its promise settles and whatever the
    state it is resumed in, runs in segments related by [R]. *)
Definition pool_ok (R : State -> State -> list Effect -> Prop) (tasks : list Task) : Prop :=
  ∀ t, t ∈ tasks -> ∀ o s, segs R s (task_resume t o s).

(** A continuation that returns at once and leaves the globals alone. *)
Definition state_pure {A B} (f : A -> State -> Step B) : Prop :=
  ∀ a s, ∃ r out, f a s = Done r s out.

(** The result of a function that returns without awaiting. *)
Definition result_of {A} (x : Step A) : option (Res A) :=
  match x with
  | Done r _ _ => Some r
  | Await _ _ _ _ => None
  end.

(** Running a resumption to its end against one oracle: every promise is
    settled as soon as it is awaited. *)
Fixpoint complete {A} (chrome : Oracle) (x : Step A) : Res A * State * list Effect :=
  match x with
  | Done r s out => (r, s, out)
  | Await c s out k =>
      let '(r, s', out') := complete chrome (k (chrome _ c) s) in
      (r, s', out ++ out')
  end.

(** ** Properties of the connection *)

Definition not_connected_line : Effect :=
  Console Error [text "[Stagehand] Cannot send message - server not connected"].

(** What the wire gets when [o] is handed to [sendToServer] in state [s]. *)
Definition delivered (s : State) (o : Outbound) : list Outbound :=
  if decide (serverWs s = Some OPEN) then [o] else [].

(** Nothing is put on the wire, and the socket, the attempt counter and the
    timers are left alone. *)
Definition quiet : State -> State -> list Effect -> Prop :=
  fun s0 s out =>
    wire out = [] ∧ serverWs s = serverWs s0 ∧
    reconnectAttempts s = reconnectAttempts s0 ∧ timers s = timers s0.

(** A socket that is not open is not opened, with nothing put on the wire
    meanwhile; the attempt counter and the timers are left alone. *)
Definition steady : State -> State -> list Effect -> Prop :=
  fun s0 s out =>
    (serverWs s0 ≠ Some OPEN -> serverWs s ≠ Some OPEN ∧ wire out = []) ∧
    reconnectAttempts s = reconnectAttempts s0 ∧ timers s = timers s0.

(** The attempts are used up and no timer is pending. *)
Definition exhausted (s : State) : Prop :=
  MAX_RECONNECT_ATTEMPTS ≤ reconnectAttempts s ∧ timers s = [].

Definition is_open_event (ev : Event) : bool :=
  match ev with
  | EvOpen _ => true
  | _ => false
  end.

(** [k] reconnection attempts that all fail: the socket closes, [onclose]
    schedules a timer, the timer fires and [connectToServer] tries again.
    Returns the delays of the timers, in order; stops when a close
    schedules none. *)
Fixpoint failed_attempts (k : nat) (c : Config) : list Z * Config :=
  match k with
  | O => ([], c)
  | S k' =>
      let c1 := fst (step EvClose c) in
      match timers (globals c1) with
      | [] => ([], c1)
      | delay :: _ =>
          let c2 := fst (step (EvTimer 0) c1) in
          let '(delays, c3) := failed_attempts k' c2 in
          (delay :: delays, c3)
      end
  end.

(** The attempt numbers [1 .. n]. *)
Definition attempt_numbers (n : nat) : list Z := map Z.of_nat (seq 1 n).

(** ** Properties of requests *)

(** [o] is a [RESPONSE] envelope carrying correlation id [id]. *)
Definition is_response_to (id : Val) (o : Outbound) : Prop :=
  out_type o = "RESPONSE" ∧ out_id o = Some id.

(** A run that sends nothing until it completes, and completes by handing
    exactly one response for [id] to [sendToServer]. *)
Fixpoint answers (id : Val) (x : Step unit) : Prop :=
  match x with
  | Done r s out => r = Ok tt ∧ ∃ o, is_response_to id o ∧ wire out = delivered s o
  | Await _ _ out k => wire out = [] ∧ ∀ o s1, answers id (k o s1)
  end.

(** Every suspended task owes exactly the response to the request it was
    started for. *)
Definition pool_answers (tasks : list Task) : Prop :=
  ∀ t, t ∈ tasks -> ∀ o s, answers (msg_id (origin t)) (task_resume t o s).



(** ** Properties of sessions *)

Definition already_attached_result : Val :=
  VObj [("attached", VBool true); ("alreadyAttached", VBool true)].

(** The detach result of the script. *)
Definition not_attached_result : Val :=
  VObj [("detached", VBool false); ("reason", VStr "Not attached")].

(** The detach result as the specification words it. *)
Definition not_attached_as_specified : Val :=
  VObj [("detached", VBool false); ("reason", VStr "not attached")].

(** [n] calls of [attachDebugger(tabId)], each awaited before the next. *)
Fixpoint attach_repeatedly (n : nat) (tabId : Prim) : M (list Val) :=
  match n with
  | O => mret []
  | S n' =>
      r ← attachDebugger tabId;
      rs ← attach_repeatedly n' tabId;
      mret (r :: rs)
  end.

(** The state once a session for [tabId] has been recorded and its
    forwarding listener installed. *)
Definition with_session (tabId : Prim) (s : State) : State :=
  set_onEventListeners (onEventListeners s ++ [tabId])
    (set_activeSessions (<[tabId := mkSession true [tabId]]> (activeSessions s)) s).

(** The state once the session and the subscriptions of [tabId] are dropped. *)
Definition without_session (tabId : Prim) (s : State) : State :=
  set_cdpEventListeners (delete tabId (cdpEventListeners s))
    (set_activeSessions (delete tabId (activeSessions s)) s).

(** No session is dropped. *)
Definition keeps_sessions : State -> State -> list Effect -> Prop :=
  fun s0 s _ => ∀ tabId, is_Some (activeSessions s0 !! tabId) ->
                         is_Some (activeSessions s !! tabId).

(** A tab that loses its session loses its subscriptions with it. *)
Definition cleans_up : State -> State -> list Effect -> Prop :=
  fun s0 s _ => ∀ tabId, is_Some (activeSessions s0 !! tabId) ->
                         activeSessions s !! tabId = None ->
                         cdpEventListeners s !! tabId = None.

(** ** Properties of subscriptions *)

(** Every set of the subscription registry has a member. *)
Definition registry_wf (s : State) : Prop :=
  ∀ tabId events eventName ids,
    cdpEventListeners s !! tabId = Some events ->
    events !! eventName = Some ids -> ids ≠ ∅.

(** Every tab with a session has a forwarding listener. *)
Definition listeners_installed (s : State) : Prop :=
  ∀ tabId, is_Some (activeSessions s !! tabId) -> tabId ∈ onEventListeners s.

Definition Inv (s : State) : Prop := registry_wf s ∧ listeners_installed s.

Definition keeps_Inv : State -> State -> list Effect -> Prop :=
  fun s0 s _ => Inv s0 -> Inv s.

(** Some listener id is registered for the pair. *)
Definition subscribed (tabId eventName : Prim) (s : State) : Prop :=
  ∃ listenerId, listenerId ∈ subscribers tabId eventName s.

(** [cdpEventListeners.get(tabId)], an empty map when absent. *)
Definition events_of (tabId : Prim) (s : State) : gmap Prim (gset Prim) :=
  default ∅ (cdpEventListeners s !! tabId).

(** The registry once [listenerId] has been added to the pair's set. *)
Definition registered (tabId eventName listenerId : Prim) (s : State) : State :=
  set_cdpEventListeners
    (<[tabId := <[eventName := {[listenerId]} ∪ subscribers tabId eventName s]>
                  (events_of tabId s)]> (cdpEventListeners s)) s.

(** The registry once [listenerId] has been removed from the pair's set,
    and the set dropped if that emptied it. *)
Definition unregistered (tabId eventName listenerId : Prim) (s : State) : State :=
  match cdpEventListeners s !! tabId ≫= fun events => events !! eventName with
  | None => s
  | Some ids =>
      set_cdpEventListeners
        (<[tabId := if decide (size (ids ∖ {[listenerId]}) = 0%nat)
                    then delete eventName (events_of tabId s)
                    else <[eventName := ids ∖ {[listenerId]}]> (events_of tabId s)]>
           (cdpEventListeners s)) s
  end.

(** The test of the forwarding listener:
    [tabListeners && tabListeners.has(method)]. *)
Definition forwards (tabId : Prim) (method : string) (s : State) : bool :=
  bool_decide (is_Some (cdpEventListeners s !! tabId ≫= fun events => events !! PStr method)).

(** The [Date.now()] readings of the listeners of [source] among [ls], the
    first of which is the [i]-th listener overall. *)
Fixpoint stamps (ls : list Prim) (i : nat) (source : Prim) (clock : nat -> Z) : list Z :=
  match ls with
  | [] => []
  | tabId :: rest =>
      (if decide (source = tabId) then [clock i] else []) ++ stamps rest (S i) source clock
  end.

(** ** Browsers, messages and states to run the script on *)

Definition blank_tab : Tab := mkTab VUndefined VUndefined VUndefined VUndefined VUndefined.

(** A browser in which every call succeeds. *)
Definition agreeable : Oracle := fun T c =>
  match c in ChromeCall T return Res T with
  | tabs_query _ => Ok []
  | tabs_update _ _ => Ok tt
  | tabs_create _ => Ok blank_tab
  | tabs_remove _ => Ok tt
  | tabs_get _ => Ok blank_tab
  | debugger_attach _ _ => Ok tt
  | debugger_detach _ => Ok tt
  | debugger_sendCommand _ _ _ => Ok (VObj [])
  | scripting_evaluate _ _ _ => Ok None
  | scripting_inject _ _ => Ok 0%nat
  | cookies_set _ => Ok tt
  | cookies_getAll _ => Ok (VArr [])
  | navigation_completed _ _ _ => Ok tt
  end.

(** A browser in which every call is rejected with [e]. *)
Definition hostile (e : Err) : Oracle := fun T _ => Throw e.

Definition request (type : string) (id : Z) (tabId : Z) : Message :=
  {| msg_id := VNum id; msg_type := PStr type; msg_tabId := PNum tabId;
     msg_method := PUndefined; msg_params := VUndefined; msg_script := VUndefined;
     msg_args := VUndefined; msg_url := VUndefined; msg_options := VUndefined;
     msg_cookies := VUndefined; msg_eventName := PUndefined;
     msg_listenerId := PUndefined |}.

Definition command_request (id tabId : Z) (method : string) : Message :=
  {| msg_id := VNum id; msg_type := PStr "CDP_COMMAND"; msg_tabId := PNum tabId;
     msg_method := PStr method; msg_params := VUndefined; msg_script := VUndefined;
     msg_args := VUndefined; msg_url := VUndefined; msg_options := VUndefined;
     msg_cookies := VUndefined; msg_eventName := PUndefined;
     msg_listenerId := PUndefined |}.

Definition subscription_request (type : string) (id tabId : Z) (eventName listenerId : string)
    : Message :=
  {| msg_id := VNum id; msg_type := PStr type; msg_tabId := PNum tabId;
     msg_method := PUndefined; msg_params := VUndefined; msg_script := VUndefined;
     msg_args := VUndefined; msg_url := VUndefined; msg_options := VUndefined;
     msg_cookies := VUndefined; msg_eventName := PStr eventName;
     msg_listenerId := PStr listenerId |}.

Definition connected : State := set_serverWs (Some OPEN) initial.

(** A connected state with tab 1 attached. *)
Definition attached_to_1 : State :=
  set_activeSessions {[ PNum 1 := mkSession true [PNum 1] ]}
    (set_onEventListeners [PNum 1] connected).

(** The script is loaded, the socket opens, tab 1 is attached and
    listener ["L1"] subscribes to its ["Page.loadEventFired"] events. *)
Definition scenario : list Event :=
  [EvReadyState OPEN; EvOpen 0;
   EvMessage (ParsedMsg (request "ATTACH_DEBUGGER" 1 1)); EvSettle 0 agreeable;
   EvMessage (ParsedMsg
     (subscription_request "REGISTER_CDP_LISTENER" 2 1 "Page.loadEventFired" "L1"))].

Definition subscribed_config : Config := (run scenario loaded).1.

(** ** Further properties *)

(** The globals are left alone. *)
Definition untouched : State -> State -> list Effect -> Prop :=
  fun s0 s _ => s = s0.

(** The socket, the attempt counter and the timers are left alone. *)
Definition same_connection : State -> State -> list Effect -> Prop :=
  fun s0 s _ =>
    serverWs s = serverWs s0 ∧ reconnectAttempts s = reconnectAttempts s0 ∧
    timers s = timers s0.

(** Every recorded session has [attached: true]. *)
Definition sessions_attached (s : State) : Prop :=
  ∀ tabId session, activeSessions s !! tabId = Some session -> attached session = true.

(** Forwarding listeners are only ever added, at the end of the list, and
    sessions stay attached. *)
Definition orderly : State -> State -> list Effect -> Prop :=
  fun s0 s _ =>
    onEventListeners s0 `prefix_of` onEventListeners s ∧
    (sessions_attached s0 -> sessions_attached s).

(** The attempt counter is within its bound and every pending timer has one
    of the delays [onclose] computes. *)
Definition backoff_bounded (s : State) : Prop :=
  0 ≤ reconnectAttempts s ≤ MAX_RECONNECT_ATTEMPTS ∧
  Forall (fun delay => 2000 ≤ delay ≤ 10000) (timers s).

(** The URLs of the sockets created. *)
Fixpoint sockets (out : list Effect) : list string :=
  match out with
  | [] => []
  | WsNew url :: out' => url :: sockets out'
  | _ :: out' => sockets out'
  end.

(** The entry [setCookies] pushes for one cookie, given what the browser
    answers to [chrome.cookies.set(cookie)]. *)
Definition cookie_result (chrome : Oracle) (cookie : Val) : Val :=
  match chrome _ (cookies_set cookie) with
  | Ok _ => VObj [("success", VBool true); ("cookie", cookie)]
  | Throw error =>
      VObj [("success", VBool false); ("cookie", cookie);
            ("error", VStr (err_message error))]
  end.

(** The events of the transport and of the reconnection machinery. *)
Definition is_connection_event (ev : Event) : bool :=
  match ev with
  | EvStartup | EvTimer _ | EvReadyState _ | EvOpen _ | EvClose => true
  | _ => false
  end.

(** The request types whose handlers only query the browser. *)
Definition stateless_types : list string :=
  ["GET_ACTIVE_TAB"; "EVALUATE"; "NAVIGATE"; "CREATE_TAB"; "GET_TAB_INFO"; "GET_ALL_TABS";
   "SET_COOKIES"; "GET_COOKIES"; "INJECT_SCRIPT"].

(** The handler that [step] runs for [ev] runs in segments related by [R];
    a settled promise resumes a suspended request, of which [pool_ok]
    speaks. *)
Definition handler_obeys (R : State -> State -> list Effect -> Prop) (ev : Event) : Prop :=
  match ev with
  | EvStartup => obeys R onStartup
  | EvTimer i =>
      obeys R (modify (fun s => set_timers (delete i (timers s)) s);; connectToServer)
  | EvReadyState rs => ∀ s, R s (set_serverWs (Some rs) s) []
  | EvOpen now => obeys R (onopen now)
  | EvMessage data => obeys R (onmessage data)
  | EvError error => obeys R (onerror error)
  | EvClose => obeys R onclose
  | EvSettle _ _ => True
  | EvDebuggerEvent source_tabId method params clock =>
      obeys R (onEvent source_tabId method params clock)
  | EvDebuggerDetach source_tabId reason => obeys R (onDetach source_tabId reason)
  | EvTabRemoved tabId => obeys R (onRemoved tabId)
  | EvKeepAlive now => obeys R (keepAlive now)
  end.

(** The envelope that [handleServerMessage] sends for outcome [r] of the
    handler: the result on success, the message and the stack of the error
    on failure. *)
Definition response_for (id : Val) (r : Res Val) : Outbound :=
  match r with
  | Ok result => ResponseOk id result
  | Throw error => ResponseErr id (err_message error) (err_stack error)
  end.

(** * Proofs *)

(** ** Unfolding the monad *)

Ltac unfold_M :=
  unfold try_catch, mbind, M_bind, mret, M_ret, gets, modify, emit, throw,
         console_log, console_error in *.

Lemma wire_app (o1 o2 : list Effect) : wire (o1 ++ o2) = wire o1 ++ wire o2.
Proof.
  induction o1 as [|e o1 IH]; [reflexivity|].
  destruct e; simpl; rewrite ?IH; reflexivity.
Qed.

Lemma chrome_calls_app (o1 o2 : list Effect) :
  chrome_calls (o1 ++ o2) = chrome_calls o1 ++ chrome_calls o2.
Proof.
  induction o1 as [|e o1 IH]; [reflexivity|].
  destruct e; simpl; rewrite ?IH; reflexivity.
Qed.

Lemma prepend_nil {A} (x : Step A) : prepend [] x = x.
Proof. destruct x; reflexivity. Qed.

Lemma step_state_prepend {A} pre (x : Step A) : step_state (prepend pre x) = step_state x.
Proof. destruct x; reflexivity. Qed.

Lemma step_out_prepend {A} pre (x : Step A) : step_out (prepend pre x) = pre ++ step_out x.
Proof. destruct x; reflexivity. Qed.

(** ** Chaining segment relations *)

Section Segments.
Context (R : State -> State -> list Effect -> Prop) `{!Chains R}.

Lemma segs_prepend {A} s0 s1 pre (x : Step A) :
  R s0 s1 pre -> segs R s1 x -> segs R s0 (prepend pre x).
Proof.
  destruct x as [r s out|T c s out k]; simpl.
  - intros H0 H1. eapply chains_trans; eassumption.
  - intros H0 [H1 Hk]. split; [eapply chains_trans; eassumption | exact Hk].
Qed.

Lemma segs_bind_step {A B} s0 (x : Step A) (f : A -> State -> Step B) :
  segs R s0 x -> (∀ a s, segs R s (f a s)) -> segs R s0 (bind_step x f).
Proof.
  intros Hx Hf. revert s0 Hx.
  induction x as [r s out|T c s out k IH]; intros s0 Hx; simpl in *.
  - destruct r as [a|e]; [|exact Hx].
    eapply segs_prepend; [exact Hx | apply Hf].
  - destruct Hx as [H0 Hk]. split; [exact H0|].
    intros o s1. apply IH, Hk.
Qed.

Lemma segs_catch_step {A} s0 (x : Step A) (h : Err -> State -> Step A) :
  segs R s0 x -> (∀ e s, segs R s (h e s)) -> segs R s0 (catch_step x h).
Proof.
  intros Hx Hh. revert s0 Hx.
  induction x as [r s out|T c s out k IH]; intros s0 Hx; simpl in *.
  - destruct r as [a|e]; [exact Hx|].
    eapply segs_prepend; [exact Hx | apply Hh].
  - destruct Hx as [H0 Hk]. split; [exact H0|].
    intros o s1. apply IH, Hk.
Qed.

Lemma obeys_ret {A} (a : A) : obeys R (mret a).
Proof. intros s. apply chains_refl. Qed.

Lemma obeys_throw {A} (e : Err) : obeys R (throw (A:=A) e).
Proof. intros s. apply chains_refl. Qed.

Lemma obeys_gets {A} (f : State -> A) : obeys R (gets f).
Proof. intros s. apply chains_refl. Qed.

Lemma obeys_bind {A B} (m : M A) (f : A -> M B) :
  obeys R m -> (∀ a, obeys R (f a)) -> obeys R (m ≫= f).
Proof. intros Hm Hf s. apply segs_bind_step; [apply Hm | intros a s'; apply Hf]. Qed.

Lemma obeys_catch {A} (m : M A) (h : Err -> M A) :
  obeys R m -> (∀ e, obeys R (h e)) -> obeys R (try_catch m h).
Proof. intros Hm Hh s. apply segs_catch_step; [apply Hm | intros e s'; apply Hh]. Qed.

Lemma obeys_emit (e : Effect) : (∀ s, R s s [e]) -> obeys R (emit e).
Proof. intros H s. apply H. Qed.

Lemma obeys_modify (f : State -> State) : (∀ s, R s (f s) []) -> obeys R (modify f).
Proof. intros H s. apply H. Qed.

Lemma obeys_await {T} (c : ChromeCall T) : (∀ s, R s s [Called c]) -> obeys R (await c).
Proof. intros H s. split; [apply H | intros o s1; apply chains_refl]. Qed.
End Segments.

#[global] Instance quiet_chains : Chains quiet.
Proof.
  split; unfold quiet.
  - intros s. repeat split.
  - intros s0 s1 s2 o1 o2 (H1 & Hw1 & Ha1 & Ht1) (H2 & Hw2 & Ha2 & Ht2).
    rewrite wire_app, H1, H2. repeat split; congruence.
Qed.

Ltac quiet_easy := try solve [unfold quiet; simpl; repeat split].

#[global] Instance keeps_Inv_chains : Chains keeps_Inv.
Proof. split; unfold keeps_Inv; auto. Qed.

(** One tactic walks the body of a function and leaves the obligations of
    its [modify] and [emit] statements. *)
Ltac walk :=
  repeat match goal with
    | |- Chains _ => exact _
    | |- obeys _ (mret _) => apply obeys_ret
    | |- obeys _ (throw _) => apply obeys_throw
    | |- obeys _ (gets _) => apply obeys_gets
    | |- obeys _ (_ ≫= _) => apply obeys_bind; [..|intros ?]
    | |- obeys _ (try_catch _ _) => apply obeys_catch; [..|intros ?]
    | |- obeys _ (await _) => apply obeys_await; [..|intros ?]
    | |- obeys _ (emit _) => apply obeys_emit; [..|intros ?]
    | |- obeys _ (modify _) => apply obeys_modify; [..|intros ?]
    | |- obeys _ (console_log _) => unfold console_log
    | |- obeys _ (console_error _) => unfold console_error
    | |- obeys _ (if ?b then _ else _) => destruct b
    | |- obeys _ (match ?x with _ => _ end) => destruct x
    end.

(** ** [sendToServer] *)

Lemma sendToServer_eq (message : Outbound) (s : State) :
  sendToServer message s =
  Done (Ok tt) s (if decide (serverWs s = Some OPEN) then [WsSend message]
                  else [not_connected_line]).
Proof.
  unfold sendToServer. unfold_M. simpl.
  destruct (decide (serverWs s = Some OPEN)); reflexivity.
Qed.

Lemma wire_sendToServer (message : Outbound) (s : State) :
  wire (step_out (sendToServer message s)) = delivered s message.
Proof.
  rewrite sendToServer_eq. unfold delivered. simpl.
  destruct (decide (serverWs s = Some OPEN)); reflexivity.
Qed.

(** ** The request handlers neither send nor touch the connection *)

Lemma getActiveTab_quiet : obeys quiet getActiveTab.
Proof. unfold getActiveTab. walk; quiet_easy. Qed.

Lemma attachDebugger_quiet tabId : obeys quiet (attachDebugger tabId).
Proof. unfold attachDebugger, setupCDPEventForwarding. walk; quiet_easy. Qed.

Lemma detachDebugger_quiet tabId : obeys quiet (detachDebugger tabId).
Proof. unfold detachDebugger. walk; quiet_easy. Qed.

Lemma sendCDPCommand_quiet tabId method params :
  obeys quiet (sendCDPCommand tabId method params).
Proof.
  unfold sendCDPCommand. walk; quiet_easy. apply attachDebugger_quiet.
Qed.

Lemma evaluateScript_quiet tabId script args :
  obeys quiet (evaluateScript tabId script args).
Proof. unfold evaluateScript. walk; quiet_easy. Qed.

Lemma navigateTo_quiet tabId url options : obeys quiet (navigateTo tabId url options).
Proof. unfold navigateTo, waitForNavigation. walk; quiet_easy. Qed.

Lemma createTab_quiet url : obeys quiet (createTab url).
Proof. unfold createTab. walk; quiet_easy. Qed.

Lemma closeTab_quiet tabId : obeys quiet (closeTab tabId).
Proof. unfold closeTab. walk; quiet_easy. apply detachDebugger_quiet. Qed.

Lemma getTabInfo_quiet tabId : obeys quiet (getTabInfo tabId).
Proof. unfold getTabInfo. walk; quiet_easy. Qed.

Lemma getAllTabs_quiet : obeys quiet getAllTabs.
Proof. unfold getAllTabs. walk; quiet_easy. Qed.

Lemma setCookies_loop_quiet cookies results :
  obeys quiet (setCookies_loop cookies results).
Proof.
  revert results. induction cookies as [|cookie rest IH]; intros results; simpl.
  - walk.
  - walk; quiet_easy. apply IH.
Qed.

Lemma setCookies_quiet cookies : obeys quiet (setCookies cookies).
Proof.
  unfold setCookies. walk; quiet_easy; apply setCookies_loop_quiet.
Qed.

Lemma getCookies_quiet url : obeys quiet (getCookies url).
Proof. unfold getCookies. walk; quiet_easy. Qed.

Lemma injectScript_quiet tabId script : obeys quiet (injectScript tabId script).
Proof. unfold injectScript. walk; quiet_easy. Qed.

Lemma registerCDPListener_quiet tabId eventName listenerId :
  obeys quiet (registerCDPListener tabId eventName listenerId).
Proof. unfold registerCDPListener. walk; quiet_easy. Qed.

Lemma unregisterCDPListener_quiet tabId eventName listenerId :
  obeys quiet (unregisterCDPListener tabId eventName listenerId).
Proof. unfold unregisterCDPListener. walk; quiet_easy. Qed.

Create HintDb quiet_db.
#[global] Hint Resolve getActiveTab_quiet attachDebugger_quiet detachDebugger_quiet
  sendCDPCommand_quiet evaluateScript_quiet navigateTo_quiet createTab_quiet
  closeTab_quiet getTabInfo_quiet getAllTabs_quiet setCookies_quiet getCookies_quiet
  injectScript_quiet registerCDPListener_quiet unregisterCDPListener_quiet : quiet_db.

Lemma dispatch_quiet message : obeys quiet (dispatch message).
Proof. unfold dispatch. walk; auto with quiet_db. Qed.

(** ** Correlation *)

(** The two exits of [handleServerMessage] around a quiet computation of
    [result]: whichever is taken, one response for [id] is handed to
    [sendToServer], and nothing is sent before. *)
Lemma respond_answers (id : Val) (type : Prim) (s0 : State) (x : Step Val) :
  segs quiet s0 x ->
  answers id
    (catch_step
       (bind_step x (fun result => sendToServer (ResponseOk id result)))
       (fun error =>
          console_error [text ("[Stagehand] Error handling " +:+ to_str type +:+ ":");
                         LogErr error];;
          sendToServer (ResponseErr id (err_message error) (err_stack error)))).
Proof.
  revert s0. induction x as [r s out|T c s out k IH]; intros s0 Hx; simpl in *.
  - destruct Hx as [Hx _]. destruct r as [result|error].
    + rewrite sendToServer_eq. simpl. split; [reflexivity|].
      exists (ResponseOk id result). split; [split; reflexivity|].
      rewrite wire_app, Hx. unfold delivered.
      destruct (decide (serverWs s = Some OPEN)); reflexivity.
    + unfold_M. simpl. rewrite sendToServer_eq. simpl. split; [reflexivity|].
      exists (ResponseErr id (err_message error) (err_stack error)).
      split; [split; reflexivity|].
      rewrite wire_app, Hx. unfold delivered. simpl.
      destruct (decide (serverWs s = Some OPEN)); reflexivity.
  - destruct Hx as [[H0 _] Hk]. split; [exact H0|].
    intros o s1. eapply IH, Hk.
Qed.

(** An answering run, completed against any browser, has put on the wire
    the one response it owes, or nothing if the socket was not open when it
    finished. *)
Lemma answers_complete (id : Val) (chrome : Oracle) (x : Step unit) :
  answers id x ->
  ∃ o, is_response_to id o ∧
       wire (complete chrome x).2 = delivered (complete chrome x).1.2 o ∧
       (complete chrome x).1.1 = Ok tt.
Proof.
  induction x as [r s out|T c s out k IH]; simpl.
  - intros [-> (o & Ho & Hw)]. exists o. auto.
  - intros [Hout Hk].
    destruct (IH (chrome T c) s (Hk _ _)) as (o & Ho & Hw & Hr).
    destruct (complete chrome (k (chrome T c) s)) as [[r s'] out'].
    simpl in *. exists o. rewrite wire_app, Hout. auto.
Qed.

(** ** Attaching and detaching *)

Lemma attachDebugger_attached (tabId : Prim) (s : State) :
  is_attached tabId s = true ->
  attachDebugger tabId s =
  Done (Ok already_attached_result) s
       [Console Log [text ("[Stagehand] Debugger already attached to tab " +:+ to_str tabId)]].
Proof.
  intros H. unfold attachDebugger. unfold_M. simpl. rewrite H. reflexivity.
Qed.

Lemma has_session_insert (tabId : Prim) (ses : Session) (s : State) :
  has_session tabId (set_activeSessions (<[tabId := ses]> (activeSessions s)) s) = true.
Proof. unfold has_session. simpl. rewrite lookup_insert_eq. reflexivity. Qed.

(** What [attachDebugger] does after [chrome.debugger.attach] has resolved. *)
Lemma attach_tail {A} (tabId : Prim) (v : A) (s : State) :
  (modify (fun s => set_activeSessions (<[tabId := mkSession true []]> (activeSessions s)) s);;
   setupCDPEventForwarding tabId;; mret v) s
  = Done (Ok v) (with_session tabId s) [].
Proof.
  unfold setupCDPEventForwarding. unfold_M. simpl.
  rewrite has_session_insert. simpl.
  unfold with_session, set_onEventListeners, set_activeSessions. simpl.
  rewrite alter_insert_eq. reflexivity.
Qed.

Lemma is_attached_with_session (tabId : Prim) (s : State) :
  is_attached tabId (with_session tabId s) = true.
Proof. unfold is_attached. simpl. rewrite lookup_insert_eq. reflexivity. Qed.

(** ** Unknown message types *)




(** ** Reconnection *)

Arguments reconnect_delay : simpl never.

Lemma reconnect_delay_capped (attempt : Z) : reconnect_delay attempt ≤ 10000.
Proof. unfold reconnect_delay. lia. Qed.

Lemma reconnect_delay_mono (i j : Z) :
  0 ≤ i -> i ≤ j -> reconnect_delay i ≤ reconnect_delay j.
Proof.
  intros Hi Hij. unfold reconnect_delay.
  assert (2 ^ i ≤ 2 ^ j) by (apply Z.pow_le_mono_r; lia).
  lia.
Qed.

Lemma onclose_state (s : State) :
  step_state (onclose s) =
  if decide (reconnectAttempts s < MAX_RECONNECT_ATTEMPTS)
  then set_timers (timers s ++ [reconnect_delay (reconnectAttempts s + 1)])
         (set_reconnectAttempts (reconnectAttempts s + 1) (set_serverWs None s))
  else set_serverWs None s.
Proof.
  unfold onclose. unfold_M. simpl.
  destruct (decide (reconnectAttempts s < MAX_RECONNECT_ATTEMPTS)); reflexivity.
Qed.

(** A close when the attempts are used up schedules nothing. *)
Lemma onclose_exhausted (s : State) :
  MAX_RECONNECT_ATTEMPTS ≤ reconnectAttempts s ->
  timers (step_state (onclose s)) = timers s ∧
  reconnectAttempts (step_state (onclose s)) = reconnectAttempts s.
Proof.
  intros H. rewrite onclose_state.
  destruct (decide (reconnectAttempts s < MAX_RECONNECT_ATTEMPTS)); [lia|].
  split; reflexivity.
Qed.

(** One failed attempt, from a state with no pending timer. *)
Lemma failed_attempt_step (c : Config) :
  timers (globals c) = [] ->
  reconnectAttempts (globals c) < MAX_RECONNECT_ATTEMPTS ->
  let c1 := (step EvClose c).1 in
  let c2 := (step (EvTimer 0) c1).1 in
  timers (globals c1) = [reconnect_delay (reconnectAttempts (globals c) + 1)] ∧
  timers (globals c2) = [] ∧
  reconnectAttempts (globals c2) = reconnectAttempts (globals c) + 1 ∧
  serverWs (globals c2) = Some CONNECTING.
Proof.
  intros Ht Ha. simpl. unfold react at 2. simpl. rewrite !onclose_state.
  destruct (decide (reconnectAttempts (globals c) < MAX_RECONNECT_ATTEMPTS)); [|lia].
  simpl. rewrite Ht. simpl. repeat split.
Qed.

Lemma failed_attempts_delays (k : nat) (c : Config) (a : Z) :
  timers (globals c) = [] ->
  reconnectAttempts (globals c) = a -> 0 ≤ a ≤ MAX_RECONNECT_ATTEMPTS ->
  (failed_attempts k c).1
  = map (fun i => reconnect_delay (a + i))
        (attempt_numbers (Nat.min k (Z.to_nat (MAX_RECONNECT_ATTEMPTS - a)))) ∧
  timers (globals (failed_attempts k c).2) = [] ∧
  reconnectAttempts (globals (failed_attempts k c).2)
  = Z.min (a + Z.of_nat k) MAX_RECONNECT_ATTEMPTS.
Proof.
  revert c a. induction k as [|k IH]; intros c a Ht Ha Hrange.
  - simpl. repeat split; [assumption | lia].
  - cbn [failed_attempts].
    destruct (decide (a < MAX_RECONNECT_ATTEMPTS)) as [Hlt|Hge].
    + destruct (failed_attempt_step c Ht) as (H1 & H2 & H3 & _); [lia|].
      cbv zeta in H1, H2, H3. rewrite H1.
      specialize (IH (step (EvTimer 0) (step EvClose c).1).1 (a + 1) H2).
      rewrite H3, Ha in IH. specialize (IH eq_refl ltac:(lia)).
      destruct (failed_attempts k _) as [delays c3]. simpl in IH |- *.
      destruct IH as (IHd & IHt & IHa).
      replace (Z.to_nat (MAX_RECONNECT_ATTEMPTS - a))
        with (S (Z.to_nat (MAX_RECONNECT_ATTEMPTS - (a + 1)))) by lia.
      unfold attempt_numbers in *. simpl.
      rewrite Ha. repeat split.
      * f_equal. rewrite <- (seq_shift _ 1), IHd, !map_map.
        apply map_ext. intros i. f_equal. lia.
      * exact IHt.
      * rewrite IHa. lia.
    + assert (a = MAX_RECONNECT_ATTEMPTS) as -> by lia.
      destruct (onclose_exhausted (globals c)) as [Ht' Ha']; [lia|].
      simpl. rewrite Ht', Ht. simpl. rewrite Ha', Ha.
      repeat split; [congruence | unfold MAX_RECONNECT_ATTEMPTS; lia].
Qed.

(** ** The subscription registry in closed form *)

Lemma alter_Some `{Countable K} {A} (m : gmap K A) (i : K) (f : A -> A) (x : A) :
  m !! i = Some x -> alter f i m = <[i := f x]> m.
Proof.
  intros Hx. apply map_eq. intros j. destruct (decide (i = j)) as [->|Hne].
  - rewrite lookup_alter_eq, lookup_insert_eq, Hx. reflexivity.
  - rewrite lookup_alter_ne, lookup_insert_ne by done. reflexivity.
Qed.

Ltac same_state :=
  f_equal; unfold set_cdpEventListeners, set_activeSessions, set_onEventListeners;
  simpl; f_equal.

Lemma registerCDPListener_eq (tabId eventName listenerId : Prim) (s : State) :
  registerCDPListener tabId eventName listenerId s
  = Done (Ok (VObj [("registered", VBool true)]))
         (registered tabId eventName listenerId s)
         [Console Log [text ("[Stagehand] Registered CDP listener for " +:+ to_str eventName
                             +:+ " on tab " +:+ to_str tabId)]].
Proof.
  unfold registerCDPListener, registered, subscribers, events_of. unfold_M.
  destruct (cdpEventListeners s !! tabId) as [events|] eqn:Ht.
  - destruct (events !! eventName) as [ids|] eqn:He;
      repeat (simpl; rewrite ?Ht, ?He, ?lookup_insert_eq, ?lookup_alter_eq);
      same_state.
    + rewrite (alter_Some _ _ _ _ Ht). f_equal.
      rewrite (alter_Some _ _ _ _ He). reflexivity.
    + rewrite alter_alter_eq. rewrite (alter_Some _ _ _ _ Ht). f_equal. simpl.
      rewrite alter_insert_eq. reflexivity.
  - repeat (simpl; rewrite ?Ht, ?lookup_insert_eq, ?lookup_alter_eq, ?lookup_empty).
    same_state.
    rewrite alter_alter_eq, alter_insert_eq. simpl.
    f_equal. rewrite alter_insert_eq. reflexivity.
Qed.

Lemma unregisterCDPListener_eq (tabId eventName listenerId : Prim) (s : State) :
  unregisterCDPListener tabId eventName listenerId s
  = Done (Ok (VObj [("unregistered", VBool true)]))
         (unregistered tabId eventName listenerId s) [].
Proof.
  unfold unregisterCDPListener, unregistered, subscribers, events_of. unfold_M.
  destruct (cdpEventListeners s !! tabId) as [events|] eqn:Ht; [|simpl; rewrite ?Ht; reflexivity].
  destruct (events !! eventName) as [ids|] eqn:He;
    repeat (simpl; rewrite ?Ht, ?He, ?lookup_insert_eq, ?lookup_alter_eq); [|reflexivity].
  destruct (decide (size (ids ∖ {[listenerId]}) = 0%nat)) as [Hz|Hnz]; simpl; same_state.
  - rewrite alter_alter_eq. rewrite (alter_Some _ _ _ _ Ht). f_equal. simpl.
    rewrite delete_alter_eq. reflexivity.
  - rewrite (alter_Some _ _ _ _ Ht). f_equal.
    rewrite (alter_Some _ _ _ _ He). reflexivity.
Qed.

(** ** The invariant *)

Lemma Inv_frame (s s' : State) :
  activeSessions s' = activeSessions s ->
  cdpEventListeners s' = cdpEventListeners s ->
  onEventListeners s' = onEventListeners s ->
  Inv s -> Inv s'.
Proof.
  intros Ha Hc Hl [Hwf Hli]. split.
  - unfold registry_wf. rewrite Hc. exact Hwf.
  - unfold listeners_installed. rewrite Ha, Hl. exact Hli.
Qed.

Lemma Inv_initial : Inv initial.
Proof.
  split.
  - intros t events e ids H. simpl in H. rewrite lookup_empty in H. discriminate.
  - intros t [x H]. simpl in H. rewrite lookup_empty in H. discriminate.
Qed.

Lemma Inv_with_session (tabId : Prim) (s : State) : Inv s -> Inv (with_session tabId s).
Proof.
  intros [Hwf Hli]. split; [exact Hwf|].
  intros t Ht. simpl in *. apply elem_of_app.
  destruct (decide (tabId = t)) as [->|Hne].
  - right. apply list_elem_of_singleton. reflexivity.
  - left. apply Hli. rewrite lookup_insert_ne in Ht by exact Hne. exact Ht.
Qed.

Lemma Inv_delete_session (tabId : Prim) (s : State) :
  Inv s -> Inv (set_activeSessions (delete tabId (activeSessions s)) s).
Proof.
  intros [Hwf Hli]. split; [exact Hwf|].
  intros t Ht. simpl in *. apply Hli.
  apply lookup_delete_is_Some in Ht as [_ Ht]. exact Ht.
Qed.

Lemma Inv_delete_registry (tabId : Prim) (s : State) :
  Inv s -> Inv (set_cdpEventListeners (delete tabId (cdpEventListeners s)) s).
Proof.
  intros [Hwf Hli]. split; [|exact Hli].
  intros t events e ids Ht He. simpl in *.
  apply lookup_delete_Some in Ht as [_ Ht]. eapply Hwf; eassumption.
Qed.

Lemma Inv_without_session (tabId : Prim) (s : State) : Inv s -> Inv (without_session tabId s).
Proof.
  intros H. unfold without_session.
  apply (Inv_delete_registry tabId (set_activeSessions _ s)), Inv_delete_session, H.
Qed.

Lemma events_of_wf (tabId eventName : Prim) (ids : gset Prim) (s : State) :
  registry_wf s -> events_of tabId s !! eventName = Some ids -> ids ≠ ∅.
Proof.
  intros Hwf He. unfold events_of in He.
  destruct (cdpEventListeners s !! tabId) as [events|] eqn:Ht; simpl in He.
  - eapply Hwf; eassumption.
  - rewrite lookup_empty in He. discriminate.
Qed.

Lemma Inv_registered (tabId eventName listenerId : Prim) (s : State) :
  Inv s -> Inv (registered tabId eventName listenerId s).
Proof.
  intros [Hwf Hli]. split; [|exact Hli].
  intros t events e ids Ht He. simpl in Ht.
  destruct (decide (tabId = t)) as [->|Hne].
  - rewrite lookup_insert_eq in Ht. injection Ht as <-.
    destruct (decide (eventName = e)) as [->|Hne].
    + rewrite lookup_insert_eq in He. injection He as <-. set_solver.
    + rewrite lookup_insert_ne in He by exact Hne. eapply events_of_wf; eassumption.
  - rewrite lookup_insert_ne in Ht by exact Hne. eapply Hwf; eassumption.
Qed.

Lemma Inv_unregistered (tabId eventName listenerId : Prim) (s : State) :
  Inv s -> Inv (unregistered tabId eventName listenerId s).
Proof.
  intros [Hwf Hli]. unfold unregistered.
  destruct (cdpEventListeners s !! tabId ≫= _) as [ids0|]; [|split; assumption].
  split; [|exact Hli].
  intros t events e ids Ht He. simpl in Ht.
  destruct (decide (tabId = t)) as [->|Hne].
  - rewrite lookup_insert_eq in Ht. injection Ht as <-.
    destruct (decide (size (ids0 ∖ {[listenerId]}) = 0%nat)) as [Hz|Hnz].
    + apply lookup_delete_Some in He as [_ He]. eapply events_of_wf; eassumption.
    + destruct (decide (eventName = e)) as [->|Hne].
      * rewrite lookup_insert_eq in He. injection He as <-.
        intros Hempty. apply Hnz. rewrite Hempty. apply size_empty.
      * rewrite lookup_insert_ne in He by exact Hne. eapply events_of_wf; eassumption.
  - rewrite lookup_insert_ne in Ht by exact Hne. eapply Hwf; eassumption.
Qed.

(** Obligations of statements that leave sessions, registry and listener
    list alone. *)
Ltac inv_easy :=
  try solve [ intros H; exact H
            | unfold keeps_Inv; intros H; eapply Inv_frame; [..|exact H]; reflexivity
            | unfold keeps_Inv; intros H; exact (Inv_delete_session _ _ H)
            | unfold keeps_Inv; intros H; exact (Inv_delete_registry _ _ H) ].

Lemma sendToServer_keeps_Inv message : obeys keeps_Inv (sendToServer message).
Proof. unfold sendToServer. walk; inv_easy. Qed.

Lemma connectToServer_keeps_Inv : obeys keeps_Inv connectToServer.
Proof. unfold connectToServer. walk; inv_easy. Qed.

Lemma onopen_keeps_Inv now : obeys keeps_Inv (onopen now).
Proof. unfold onopen. walk; inv_easy. apply sendToServer_keeps_Inv. Qed.

Lemma onerror_keeps_Inv error : obeys keeps_Inv (onerror error).
Proof. unfold onerror. walk; inv_easy. Qed.

Lemma onclose_keeps_Inv : obeys keeps_Inv onclose.
Proof. unfold onclose. walk; inv_easy. Qed.

Lemma getActiveTab_keeps_Inv : obeys keeps_Inv getActiveTab.
Proof. unfold getActiveTab. walk; inv_easy. Qed.

Lemma attach_tail_keeps_Inv {A} (tabId : Prim) (v : A) :
  obeys keeps_Inv
    (modify (fun s =>
       set_activeSessions (<[tabId := mkSession true []]> (activeSessions s)) s);;
     setupCDPEventForwarding tabId;; mret v).
Proof. intros s. rewrite attach_tail. exact (Inv_with_session tabId s). Qed.

Lemma attachDebugger_keeps_Inv tabId : obeys keeps_Inv (attachDebugger tabId).
Proof.
  unfold attachDebugger. apply obeys_catch; [exact _| |intros ?; walk; inv_easy].
  apply obeys_bind; [exact _|walk|]. intros [|]; [walk; inv_easy|].
  apply obeys_bind; [exact _|walk; inv_easy|]. intros _.
  apply obeys_bind; [exact _|walk; inv_easy|]. intros _.
  apply attach_tail_keeps_Inv.
Qed.

Lemma detachDebugger_keeps_Inv tabId : obeys keeps_Inv (detachDebugger tabId).
Proof. unfold detachDebugger. walk; inv_easy. Qed.

Lemma sendCDPCommand_keeps_Inv tabId method params :
  obeys keeps_Inv (sendCDPCommand tabId method params).
Proof. unfold sendCDPCommand. walk; inv_easy. apply attachDebugger_keeps_Inv. Qed.

Lemma evaluateScript_keeps_Inv tabId script args :
  obeys keeps_Inv (evaluateScript tabId script args).
Proof. unfold evaluateScript. walk; inv_easy. Qed.

Lemma navigateTo_keeps_Inv tabId url options : obeys keeps_Inv (navigateTo tabId url options).
Proof. unfold navigateTo, waitForNavigation. walk; inv_easy. Qed.

Lemma createTab_keeps_Inv url : obeys keeps_Inv (createTab url).
Proof. unfold createTab. walk; inv_easy. Qed.

Lemma closeTab_keeps_Inv tabId : obeys keeps_Inv (closeTab tabId).
Proof. unfold closeTab. walk; inv_easy. apply detachDebugger_keeps_Inv. Qed.

Lemma getTabInfo_keeps_Inv tabId : obeys keeps_Inv (getTabInfo tabId).
Proof. unfold getTabInfo. walk; inv_easy. Qed.

Lemma getAllTabs_keeps_Inv : obeys keeps_Inv getAllTabs.
Proof. unfold getAllTabs. walk; inv_easy. Qed.

Lemma setCookies_loop_keeps_Inv cookies results :
  obeys keeps_Inv (setCookies_loop cookies results).
Proof.
  revert results. induction cookies as [|cookie rest IH]; intros results; simpl.
  - walk.
  - walk; inv_easy. apply IH.
Qed.

Lemma setCookies_keeps_Inv cookies : obeys keeps_Inv (setCookies cookies).
Proof. unfold setCookies. walk; inv_easy; apply setCookies_loop_keeps_Inv. Qed.

Lemma getCookies_keeps_Inv url : obeys keeps_Inv (getCookies url).
Proof. unfold getCookies. walk; inv_easy. Qed.

Lemma injectScript_keeps_Inv tabId script : obeys keeps_Inv (injectScript tabId script).
Proof. unfold injectScript. walk; inv_easy. Qed.

Lemma registerCDPListener_keeps_Inv tabId eventName listenerId :
  obeys keeps_Inv (registerCDPListener tabId eventName listenerId).
Proof. intros s. rewrite registerCDPListener_eq. exact (Inv_registered _ _ _ s). Qed.

Lemma unregisterCDPListener_keeps_Inv tabId eventName listenerId :
  obeys keeps_Inv (unregisterCDPListener tabId eventName listenerId).
Proof. intros s. rewrite unregisterCDPListener_eq. exact (Inv_unregistered _ _ _ s). Qed.

Create HintDb inv_db.
#[global] Hint Resolve sendToServer_keeps_Inv connectToServer_keeps_Inv
  getActiveTab_keeps_Inv attachDebugger_keeps_Inv detachDebugger_keeps_Inv
  sendCDPCommand_keeps_Inv evaluateScript_keeps_Inv navigateTo_keeps_Inv createTab_keeps_Inv
  closeTab_keeps_Inv getTabInfo_keeps_Inv getAllTabs_keeps_Inv setCookies_keeps_Inv
  getCookies_keeps_Inv injectScript_keeps_Inv registerCDPListener_keeps_Inv
  unregisterCDPListener_keeps_Inv : inv_db.

Lemma dispatch_keeps_Inv message : obeys keeps_Inv (dispatch message).
Proof. unfold dispatch. walk; auto with inv_db. Qed.

Lemma handleServerMessage_keeps_Inv message : obeys keeps_Inv (handleServerMessage message).
Proof.
  unfold handleServerMessage. cbv zeta. walk; inv_easy; auto with inv_db.
  apply dispatch_keeps_Inv.
Qed.

Lemma onmessage_keeps_Inv data : obeys keeps_Inv (onmessage data).
Proof.
  unfold onmessage. walk; inv_easy. apply handleServerMessage_keeps_Inv.
Qed.

Lemma onDetach_keeps_Inv tabId reason : obeys keeps_Inv (onDetach tabId reason).
Proof. unfold onDetach. walk; inv_easy; auto with inv_db. Qed.

Lemma onRemoved_keeps_Inv tabId : obeys keeps_Inv (onRemoved tabId).
Proof. unfold onRemoved. walk; inv_easy; auto with inv_db. Qed.

Lemma onStartup_keeps_Inv : obeys keeps_Inv onStartup.
Proof. unfold onStartup. walk; inv_easy; auto with inv_db. Qed.

Lemma keepAlive_keeps_Inv now : obeys keeps_Inv (keepAlive now).
Proof. unfold keepAlive. walk; inv_easy; auto with inv_db. Qed.

Lemma forwarding_listener_keeps_Inv tabId source method params now :
  obeys keeps_Inv (forwarding_listener tabId source method params now).
Proof. unfold forwarding_listener. walk; inv_easy; auto with inv_db. Qed.

Lemma run_listeners_keeps_Inv ls i source method params clock :
  obeys keeps_Inv (run_listeners ls i source method params clock).
Proof.
  revert i. induction ls as [|t ls IH]; intros i; simpl.
  - walk.
  - walk. + apply forwarding_listener_keeps_Inv. + apply IH.
Qed.

Lemma onEvent_keeps_Inv source method params clock :
  obeys keeps_Inv (onEvent source method params clock).
Proof. unfold onEvent. walk. apply run_listeners_keeps_Inv. Qed.

Lemma main_keeps_Inv : obeys keeps_Inv main.
Proof. unfold main. walk; inv_easy; auto with inv_db. Qed.

(** ** Reachable configurations *)

Lemma segs_step_state {A} (s : State) (x : Step A) :
  segs keeps_Inv s x -> Inv s -> Inv (step_state x).
Proof. destruct x; simpl; [intros H|intros [H _]]; exact H. Qed.

Lemma pool_ok_park R (message : Message) (tasks : list Task) (s : State) (x : Step unit) :
  segs R s x -> pool_ok R tasks -> pool_ok R (park message tasks x).
Proof.
  intros Hx Hp. destruct x as [r s' out|T c s' out k]; simpl; [exact Hp|].
  intros t Ht. apply elem_of_app in Ht as [Ht|Ht]; [apply Hp, Ht|].
  apply list_elem_of_singleton in Ht as ->. simpl. apply Hx.
Qed.

Lemma pool_ok_delete R (i : nat) (tasks : list Task) :
  pool_ok R tasks -> pool_ok R (delete i tasks).
Proof. intros Hp t Ht. apply Hp. eapply list_elem_of_delete_inv, Ht. Qed.

Lemma react_Inv (m : M unit) (c : Config) :
  obeys keeps_Inv m -> Inv (globals c) -> pool_ok keeps_Inv (pool c) ->
  Inv (globals (react m c).1) ∧ pool_ok keeps_Inv (pool (react m c).1).
Proof.
  intros Hm Hinv Hp. unfold react. simpl. split; [|exact Hp].
  eapply segs_step_state; [apply Hm | exact Hinv].
Qed.

Lemma step_Inv (ev : Event) (c : Config) :
  Inv (globals c) -> pool_ok keeps_Inv (pool c) ->
  Inv (globals (step ev c).1) ∧ pool_ok keeps_Inv (pool (step ev c).1).
Proof.
  intros Hinv Hp. destruct ev; cbn [step].
  - apply react_Inv; auto using onStartup_keeps_Inv.
  - destruct (timers (globals c) !! i); [|split; assumption].
    apply react_Inv; auto. walk; inv_easy. apply connectToServer_keeps_Inv.
  - destruct (serverWs (globals c)); [|split; assumption].
    cbn [fst globals pool]. split; [|exact Hp].
    eapply Inv_frame; [..|exact Hinv]; reflexivity.
  - apply react_Inv; auto using onopen_keeps_Inv.
  - pose proof (onmessage_keeps_Inv data (globals c)) as Hx.
    destruct data; cbn [fst globals pool];
      (split; [exact (segs_step_state _ _ Hx Hinv)|]); try exact Hp.
    eapply pool_ok_park; eassumption.
  - apply react_Inv; auto using onerror_keeps_Inv.
  - apply react_Inv; auto using onclose_keeps_Inv.
  - destruct (pool c !! i) as [t|] eqn:Ht; [|split; assumption].
    assert (Hx : segs keeps_Inv (globals c)
                   (task_resume t (chrome _ (task_call t)) (globals c))).
    { apply Hp. eapply list_elem_of_lookup_2, Ht. }
    cbn [fst globals pool]. split; [exact (segs_step_state _ _ Hx Hinv)|].
    eapply pool_ok_park; [exact Hx|]. apply pool_ok_delete, Hp.
  - apply react_Inv; auto using onEvent_keeps_Inv.
  - apply react_Inv; auto using onDetach_keeps_Inv.
  - apply react_Inv; auto using onRemoved_keeps_Inv.
  - apply react_Inv; auto using keepAlive_keeps_Inv.
Qed.

Lemma reachable_Inv (c : Config) :
  reachable c -> Inv (globals c) ∧ pool_ok keeps_Inv (pool c).
Proof.
  induction 1 as [|c ev _ [Hinv Hp]].
  - split.
    + exact (segs_step_state _ _ (main_keeps_Inv initial) Inv_initial).
    + intros t Ht. inversion Ht.
  - apply step_Inv; assumption.
Qed.

(** ** Event forwarding *)

Lemma forwards_subscribed (tabId : Prim) (method : string) (s : State) :
  registry_wf s ->
  forwards tabId method s = true ↔ subscribed tabId (PStr method) s.
Proof.
  intros Hwf. unfold forwards, subscribed, subscribers.
  rewrite bool_decide_eq_true. split.
  - intros [ids Hids]. rewrite Hids. simpl.
    destruct (cdpEventListeners s !! tabId) as [events|] eqn:Ht; [|discriminate].
    simpl in Hids. apply set_choose_L. eapply Hwf; eassumption.
  - intros [l Hl].
    destruct (cdpEventListeners s !! tabId ≫= _) as [ids|]; [eexists; reflexivity|].
    simpl in Hl. set_solver.
Qed.

Lemma forwarding_listener_eq tabId source method params now (s : State) :
  forwarding_listener tabId source method params now s
  = if decide (source = tabId)
    then if forwards tabId method s
         then sendToServer (CdpEvent tabId method params now) s
         else Done (Ok tt) s []
    else Done (Ok tt) s [].
Proof.
  unfold forwarding_listener, forwards.
  destruct (decide (source = tabId)); [|reflexivity].
  unfold_M. simpl.
  destruct (cdpEventListeners s !! tabId) as [events|]; simpl; [|reflexivity].
  rewrite prepend_nil.
  destruct (decide (is_Some (events !! PStr method))) as [Hs|Hn].
  - rewrite bool_decide_eq_true_2 by exact Hs. reflexivity.
  - rewrite bool_decide_eq_false_2 by exact Hn. reflexivity.
Qed.

Lemma run_listeners_eq ls i source method params clock (s : State) :
  ∃ out,
    run_listeners ls i source method params clock s = Done (Ok tt) s out ∧
    wire out = (if forwards source method s
                then if decide (serverWs s = Some OPEN)
                     then map (CdpEvent source method params) (stamps ls i source clock)
                     else []
                else []) ∧
    (forwards source method s = false -> out = []).
Proof.
  revert i. induction ls as [|t ls IH]; intros i.
  - exists []. simpl.
    destruct (forwards source method s), (decide (serverWs s = Some OPEN)); auto.
  - destruct (IH (S i)) as (out & Hrun & Hwire & Hnone).
    cbn [run_listeners stamps]. unfold mbind at 1, M_bind at 1.
    rewrite forwarding_listener_eq.
    destruct (decide (source = t)) as [<-|Hne].
    + destruct (forwards source method s) eqn:Hf.
      * rewrite sendToServer_eq. simpl. rewrite Hrun. simpl.
        eexists. split; [reflexivity|]. split; [|discriminate].
        rewrite wire_app, Hwire.
        destruct (decide (serverWs s = Some OPEN)); reflexivity.
      * simpl. rewrite Hrun. simpl. exists out. auto.
    + simpl. rewrite Hrun. simpl. exists out. auto.
Qed.

Lemma stamps_nonempty ls i source clock :
  source ∈ ls -> stamps ls i source clock ≠ [].
Proof.
  revert i. induction ls as [|t ls IH]; intros i Hin; [inversion Hin|].
  simpl. destruct (decide (source = t)); [discriminate|].
  apply elem_of_cons in Hin as [?|Hin]; [contradiction|]. apply IH, Hin.
Qed.

Lemma reachable_run (evs : list Event) (c : Config) :
  reachable c -> reachable (run evs c).1.
Proof.
  revert c. induction evs as [|ev evs IH]; intros c Hc; [exact Hc|].
  simpl. pose proof (IH _ (reachable_step c ev Hc)) as Hnext.
  destruct (step ev c) as [c1 out1]. simpl in Hnext.
  destruct (run evs c1) as [c2 out2]. exact Hnext.
Qed.

Lemma reachable_subscribed_config : reachable subscribed_config.
Proof. apply reachable_run, reachable_loaded. Qed.

Example scenario_forwards :
  wire (step (EvDebuggerEvent (PNum 1) "Page.loadEventFired" VUndefined (fun _ => 42))
             subscribed_config).2
  = [CdpEvent (PNum 1) "Page.loadEventFired" VUndefined 42] ∧
  wire (step (EvDebuggerEvent (PNum 1) "Page.frameNavigated" VUndefined (fun _ => 42))
             subscribed_config).2
  = [].
Proof. split; vm_compute; reflexivity. Qed.

(** ** Subscribing and unsubscribing twice *)

Lemma set_cdpEventListeners_same (s : State) :
  set_cdpEventListeners (cdpEventListeners s) s = s.
Proof. destruct s; reflexivity. Qed.

Lemma subscribers_registered (tabId eventName listenerId : Prim) (s : State) :
  subscribers tabId eventName (registered tabId eventName listenerId s)
  = {[listenerId]} ∪ subscribers tabId eventName s.
Proof.
  unfold subscribers at 1. simpl. rewrite lookup_insert_eq. simpl.
  rewrite lookup_insert_eq. reflexivity.
Qed.

Lemma events_of_registered (tabId eventName listenerId : Prim) (s : State) :
  events_of tabId (registered tabId eventName listenerId s)
  = <[eventName := {[listenerId]} ∪ subscribers tabId eventName s]> (events_of tabId s).
Proof. unfold events_of at 1. simpl. rewrite lookup_insert_eq. reflexivity. Qed.

Lemma registered_idemp (tabId eventName listenerId : Prim) (s : State) :
  registered tabId eventName listenerId (registered tabId eventName listenerId s)
  = registered tabId eventName listenerId s.
Proof.
  unfold registered at 1. rewrite subscribers_registered, events_of_registered.
  unfold registered. unfold set_cdpEventListeners. simpl. f_equal.
  rewrite !insert_insert_eq. do 2 f_equal. set_solver.
Qed.

Lemma unregistered_non_member (tabId eventName listenerId : Prim) (s : State) :
  registry_wf s ->
  listenerId ∉ subscribers tabId eventName s ->
  unregistered tabId eventName listenerId s = s.
Proof.
  intros Hwf Hnot. unfold unregistered, subscribers, events_of in *.
  destruct (cdpEventListeners s !! tabId) as [events|] eqn:Ht; simpl in *; [|reflexivity].
  destruct (events !! eventName) as [ids|] eqn:He; simpl in *; [|reflexivity].
  assert (Hsame : ids ∖ {[listenerId]} = ids) by set_solver.
  rewrite Hsame.
  destruct (decide (size ids = 0%nat)) as [Hz|_].
  - apply size_empty_iff in Hz. exfalso. eapply Hwf; [exact Ht|exact He|].
    apply leibniz_equiv, Hz.
  - rewrite (insert_id events) by exact He.
    rewrite (insert_id (cdpEventListeners s)) by exact Ht.
    apply set_cdpEventListeners_same.
Qed.

Lemma subscribers_unregistered (tabId eventName listenerId : Prim) (s : State) :
  subscribers tabId eventName (unregistered tabId eventName listenerId s)
  = subscribers tabId eventName s ∖ {[listenerId]}.
Proof.
  unfold unregistered, subscribers, events_of.
  destruct (cdpEventListeners s !! tabId) as [events|] eqn:Ht; simpl.
  - destruct (events !! eventName) as [ids|] eqn:He; simpl.
    + rewrite lookup_insert_eq. simpl.
      destruct (decide (size (ids ∖ {[listenerId]}) = 0%nat)) as [Hz|_].
      * rewrite lookup_delete_eq. simpl.
        apply size_empty_iff, leibniz_equiv in Hz. rewrite Hz. reflexivity.
      * rewrite lookup_insert_eq. reflexivity.
    + rewrite Ht. simpl. rewrite He. simpl. set_solver.
  - rewrite Ht. simpl. set_solver.
Qed.

Lemma unregistered_None (tabId eventName listenerId : Prim) (s : State) :
  cdpEventListeners s !! tabId ≫= (fun events => events !! eventName) = None ->
  unregistered tabId eventName listenerId s = s.
Proof. intros H. unfold unregistered. rewrite H. reflexivity. Qed.

Lemma unregistered_Some (tabId eventName listenerId : Prim) (s : State) (ids : gset Prim) :
  cdpEventListeners s !! tabId ≫= (fun events => events !! eventName) = Some ids ->
  unregistered tabId eventName listenerId s
  = set_cdpEventListeners
      (<[tabId := if decide (size (ids ∖ {[listenerId]}) = 0%nat)
                  then delete eventName (events_of tabId s)
                  else <[eventName := ids ∖ {[listenerId]}]> (events_of tabId s)]>
         (cdpEventListeners s)) s.
Proof. intros H. unfold unregistered. rewrite H. reflexivity. Qed.

Lemma unregistered_idemp (tabId eventName listenerId : Prim) (s : State) :
  unregistered tabId eventName listenerId (unregistered tabId eventName listenerId s)
  = unregistered tabId eventName listenerId s.
Proof.
  destruct (cdpEventListeners s !! tabId ≫= (fun events => events !! eventName))
    as [ids|] eqn:Hl.
  2:{ rewrite !(unregistered_None _ _ _ s Hl). reflexivity. }
  rewrite (unregistered_Some _ _ _ s ids Hl).
  destruct (decide (size (ids ∖ {[listenerId]}) = 0%nat)) as [Hz|Hnz].
  - apply unregistered_None. simpl. rewrite lookup_insert_eq. simpl. apply lookup_delete_eq.
  - erewrite unregistered_Some.
    2:{ simpl. rewrite lookup_insert_eq. simpl. apply lookup_insert_eq. }
    assert (Hsame : ids ∖ {[listenerId]} ∖ {[listenerId]} = ids ∖ {[listenerId]}) by set_solver.
    rewrite Hsame.
    destruct (decide (size (ids ∖ {[listenerId]}) = 0%nat)); [contradiction|].
    unfold set_cdpEventListeners, events_of. simpl. f_equal.
    rewrite lookup_insert_eq. simpl. rewrite !insert_insert_eq. reflexivity.
Qed.

(** ** Destroying a session *)

#[global] Instance keeps_sessions_chains : Chains keeps_sessions.
Proof. split; unfold keeps_sessions; auto. Qed.

Lemma segs_weaken {A} (R R' : State -> State -> list Effect -> Prop) s (x : Step A) :
  (∀ s0 s1 o, R s0 s1 o -> R' s0 s1 o) -> segs R s x -> segs R' s x.
Proof.
  intros HR. revert s. induction x as [r s' out|T c s' out k IH]; intros s; simpl.
  - apply HR.
  - intros [H0 Hk]. split; [apply HR, H0|]. intros o s1. apply IH, Hk.
Qed.

Lemma keeps_sessions_cleans_up s0 s1 o : keeps_sessions s0 s1 o -> cleans_up s0 s1 o.
Proof.
  intros Hk t Ht Hnone. destruct (Hk t Ht) as [x Hx]. rewrite Hx in Hnone. discriminate.
Qed.

Lemma obeys_keeps_cleans {A} (m : M A) : obeys keeps_sessions m -> obeys cleans_up m.
Proof. intros H s. eapply segs_weaken; [apply keeps_sessions_cleans_up | apply H]. Qed.

Lemma cleans_up_refl s o : cleans_up s s o.
Proof. intros t [x Hx] Hnone. rewrite Hx in Hnone. discriminate. Qed.

Lemma cleans_up_without_session tabId s o : cleans_up s (without_session tabId s) o.
Proof.
  intros t Ht Hnone. simpl in *.
  apply lookup_delete_None in Hnone as [->|Hnone].
  - apply lookup_delete_eq.
  - destruct Ht as [x Hx]. rewrite Hx in Hnone. discriminate.
Qed.

Lemma segs_bind_step_pure {A B} s0 (x : Step A) (f : A -> State -> Step B) :
  segs cleans_up s0 x -> state_pure f -> segs cleans_up s0 (bind_step x f).
Proof.
  intros Hx Hf. revert s0 Hx.
  induction x as [r s out|T c s out k IH]; intros s0 Hx; simpl in *.
  - destruct r as [a|e]; [|exact Hx].
    destruct (Hf a s) as (r & out' & ->). exact Hx.
  - destruct Hx as [H0 Hk]. split; [exact H0|]. intros o s1. apply IH, Hk.
Qed.

Lemma segs_catch_step_pure {A} s0 (x : Step A) (h : Err -> State -> Step A) :
  segs cleans_up s0 x -> state_pure h -> segs cleans_up s0 (catch_step x h).
Proof.
  intros Hx Hh. revert s0 Hx.
  induction x as [r s out|T c s out k IH]; intros s0 Hx; simpl in *.
  - destruct r as [a|e]; [exact Hx|].
    destruct (Hh e s) as (r & out' & ->). exact Hx.
  - destruct Hx as [H0 Hk]. split; [exact H0|]. intros o s1. apply IH, Hk.
Qed.

(** Obligations of statements that drop no session. *)
Ltac ks_easy :=
  try solve [ intros t Ht; exact Ht
            | intros t Ht; simpl; apply lookup_insert_is_Some'; right; exact Ht
            | intros t Ht; simpl; apply lookup_alter_is_Some; exact Ht ].

Lemma sendToServer_keeps_sessions message : obeys keeps_sessions (sendToServer message).
Proof. unfold sendToServer. walk; ks_easy. Qed.

Lemma connectToServer_keeps_sessions : obeys keeps_sessions connectToServer.
Proof. unfold connectToServer. walk; ks_easy. Qed.

Lemma getActiveTab_keeps_sessions : obeys keeps_sessions getActiveTab.
Proof. unfold getActiveTab. walk; ks_easy. Qed.

Lemma attachDebugger_keeps_sessions tabId : obeys keeps_sessions (attachDebugger tabId).
Proof.
  unfold attachDebugger, setupCDPEventForwarding. walk; ks_easy.
Qed.

Lemma sendCDPCommand_keeps_sessions tabId method params :
  obeys keeps_sessions (sendCDPCommand tabId method params).
Proof. unfold sendCDPCommand. walk; ks_easy. apply attachDebugger_keeps_sessions. Qed.

Lemma evaluateScript_keeps_sessions tabId script args :
  obeys keeps_sessions (evaluateScript tabId script args).
Proof. unfold evaluateScript. walk; ks_easy. Qed.

Lemma navigateTo_keeps_sessions tabId url options :
  obeys keeps_sessions (navigateTo tabId url options).
Proof. unfold navigateTo, waitForNavigation. walk; ks_easy. Qed.

Lemma createTab_keeps_sessions url : obeys keeps_sessions (createTab url).
Proof. unfold createTab. walk; ks_easy. Qed.

Lemma getTabInfo_keeps_sessions tabId : obeys keeps_sessions (getTabInfo tabId).
Proof. unfold getTabInfo. walk; ks_easy. Qed.

Lemma getAllTabs_keeps_sessions : obeys keeps_sessions getAllTabs.
Proof. unfold getAllTabs. walk; ks_easy. Qed.

Lemma setCookies_loop_keeps_sessions cookies results :
  obeys keeps_sessions (setCookies_loop cookies results).
Proof.
  revert results. induction cookies as [|cookie rest IH]; intros results; simpl.
  - walk.
  - walk; ks_easy. apply IH.
Qed.

Lemma setCookies_keeps_sessions cookies : obeys keeps_sessions (setCookies cookies).
Proof. unfold setCookies. walk; ks_easy; apply setCookies_loop_keeps_sessions. Qed.

Lemma getCookies_keeps_sessions url : obeys keeps_sessions (getCookies url).
Proof. unfold getCookies. walk; ks_easy. Qed.

Lemma injectScript_keeps_sessions tabId script :
  obeys keeps_sessions (injectScript tabId script).
Proof. unfold injectScript. walk; ks_easy. Qed.

Lemma registerCDPListener_keeps_sessions tabId eventName listenerId :
  obeys keeps_sessions (registerCDPListener tabId eventName listenerId).
Proof. unfold registerCDPListener. walk; ks_easy. Qed.

Lemma unregisterCDPListener_keeps_sessions tabId eventName listenerId :
  obeys keeps_sessions (unregisterCDPListener tabId eventName listenerId).
Proof. unfold unregisterCDPListener. walk; ks_easy. Qed.

(** [detachDebugger] in closed form. *)
Lemma detachDebugger_eq (tabId : Prim) (s : State) :
  is_attached tabId s = true ->
  ∃ k,
    detachDebugger tabId s
    = Await (debugger_detach tabId) s [Called (debugger_detach tabId)] k ∧
    (∀ s1, ∃ out, k (Ok tt) s1
                  = Done (Ok (VObj [("detached", VBool true)])) (without_session tabId s1) out ∧
                  wire out = []) ∧
    (∀ e s1, ∃ out, k (Throw e) s1 = Done (Throw e) s1 out ∧ wire out = []).
Proof.
  intros H. unfold detachDebugger. unfold_M. simpl. rewrite H. simpl.
  eexists. split; [reflexivity|]. split.
  - intros s1. simpl. eexists. split; reflexivity.
  - intros e s1. simpl. eexists. split; reflexivity.
Qed.

Lemma detachDebugger_cleans_up tabId : obeys cleans_up (detachDebugger tabId).
Proof.
  intros s. destruct (is_attached tabId s) eqn:Hatt.
  - destruct (detachDebugger_eq tabId s Hatt) as (k & -> & Hok & Herr).
    split; [apply cleans_up_refl|]. intros [[]|e] s1.
    + destruct (Hok s1) as (out & -> & _). apply cleans_up_without_session.
    + destruct (Herr e s1) as (out & -> & _). apply cleans_up_refl.
  - unfold detachDebugger. unfold_M. simpl. rewrite Hatt. simpl. apply cleans_up_refl.
Qed.

Lemma segs_prepend_cleans_up {A} s pre (x : Step A) :
  segs cleans_up s x -> segs cleans_up s (prepend pre x).
Proof. destruct x; simpl; auto. Qed.

Lemma state_pure_ret {A B} (b : B) : state_pure (fun (_ : A) => (mret b : M B)).
Proof. intros a s. eexists _, _. reflexivity. Qed.

Lemma closeTab_cleans_up tabId : obeys cleans_up (closeTab tabId).
Proof.
  intros s. unfold closeTab. unfold mbind at 1, M_bind at 1. simpl.
  split; [apply cleans_up_refl|]. intros [[]|e] s1; simpl; [|apply cleans_up_refl].
  apply segs_prepend_cleans_up. unfold mbind at 1, M_bind at 1. unfold gets. simpl.
  apply segs_prepend_cleans_up. unfold mbind at 1, M_bind at 1.
  apply segs_bind_step_pure; [|apply state_pure_ret].
  destruct (has_session tabId s1); [|apply cleans_up_refl].
  unfold mbind, M_bind. apply segs_bind_step_pure; [|apply state_pure_ret].
  apply detachDebugger_cleans_up.
Qed.

Create HintDb cleans_db.
#[global] Hint Resolve getActiveTab_keeps_sessions attachDebugger_keeps_sessions
  sendCDPCommand_keeps_sessions evaluateScript_keeps_sessions navigateTo_keeps_sessions
  createTab_keeps_sessions getTabInfo_keeps_sessions getAllTabs_keeps_sessions
  setCookies_keeps_sessions getCookies_keeps_sessions injectScript_keeps_sessions
  registerCDPListener_keeps_sessions unregisterCDPListener_keeps_sessions
  sendToServer_keeps_sessions connectToServer_keeps_sessions : cleans_db.

Lemma dispatch_cleans_up message : obeys cleans_up (dispatch message).
Proof.
  unfold dispatch. cbv zeta.
  repeat match goal with
    | |- obeys _ (if ?b then _ else _) => destruct b
    end;
    first [ apply detachDebugger_cleans_up | apply closeTab_cleans_up
          | apply obeys_keeps_cleans; auto with cleans_db; walk ].
Qed.

Lemma state_pure_sendToServer {A} (f : A -> Outbound) :
  state_pure (fun a => sendToServer (f a)).
Proof. intros a s. rewrite sendToServer_eq. eexists _, _. reflexivity. Qed.

Lemma state_pure_log_send {A} (f : A -> list LogArg) (g : A -> Outbound) :
  state_pure (fun a => console_error (f a);; sendToServer (g a)).
Proof.
  intros a s. unfold_M. simpl. rewrite sendToServer_eq. eexists _, _. reflexivity.
Qed.

Lemma state_pure_log {A} (f : A -> list LogArg) : state_pure (fun a => console_error (f a)).
Proof. intros a s. eexists _, _. reflexivity. Qed.

Lemma handleServerMessage_cleans_up message : obeys cleans_up (handleServerMessage message).
Proof.
  intros s. unfold handleServerMessage. cbv zeta. unfold try_catch.
  apply segs_catch_step_pure; [|apply state_pure_log_send].
  destruct (is_type "PONG" (msg_type message)); [apply cleans_up_refl|].
  unfold mbind, M_bind.
  apply segs_bind_step_pure; [apply dispatch_cleans_up | apply state_pure_sendToServer].
Qed.

Lemma onmessage_cleans_up data : obeys cleans_up (onmessage data).
Proof.
  intros s. unfold onmessage, try_catch.
  apply segs_catch_step_pure; [|apply state_pure_log].
  destruct data; try apply cleans_up_refl. apply handleServerMessage_cleans_up.
Qed.

Lemma onDetach_eq (tabId : Prim) (reason : Val) (s : State) :
  ∃ out,
    onDetach tabId reason s
    = Done (Ok tt) (if has_session tabId s then without_session tabId s else s) out.
Proof.
  unfold onDetach. unfold_M. simpl. destruct (has_session tabId s); simpl.
  - rewrite sendToServer_eq. simpl. eexists. reflexivity.
  - eexists. reflexivity.
Qed.

Lemma onRemoved_eq (tabId : Prim) (s : State) :
  ∃ out,
    onRemoved tabId s
    = Done (Ok tt) (if has_session tabId s then without_session tabId s else s) out.
Proof.
  unfold onRemoved. unfold_M. simpl. destruct (has_session tabId s); simpl.
  - rewrite sendToServer_eq. simpl. eexists. reflexivity.
  - eexists. reflexivity.
Qed.

Lemma onDetach_cleans_up tabId reason : obeys cleans_up (onDetach tabId reason).
Proof.
  intros s. destruct (onDetach_eq tabId reason s) as (out & ->). simpl.
  destruct (has_session tabId s); [apply cleans_up_without_session | apply cleans_up_refl].
Qed.

Lemma onRemoved_cleans_up tabId : obeys cleans_up (onRemoved tabId).
Proof.
  intros s. destruct (onRemoved_eq tabId s) as (out & ->). simpl.
  destruct (has_session tabId s); [apply cleans_up_without_session | apply cleans_up_refl].
Qed.

Lemma forwarding_listener_keeps_sessions tabId source method params now :
  obeys keeps_sessions (forwarding_listener tabId source method params now).
Proof. unfold forwarding_listener. walk; ks_easy; auto with cleans_db. Qed.

Lemma run_listeners_keeps_sessions ls i source method params clock :
  obeys keeps_sessions (run_listeners ls i source method params clock).
Proof.
  revert i. induction ls as [|t ls IH]; intros i; simpl.
  - walk.
  - walk. + apply forwarding_listener_keeps_sessions. + apply IH.
Qed.

Lemma segs_first {A} R s (x : Step A) : segs R s x -> R s (step_state x) (step_out x).
Proof. destruct x; simpl; [auto|intros [H _]; exact H]. Qed.

Lemma react_cleans_up (m : M unit) (c : Config) :
  obeys cleans_up m -> pool_ok cleans_up (pool c) ->
  cleans_up (globals c) (globals (react m c).1) [] ∧ pool_ok cleans_up (pool (react m c).1).
Proof.
  intros Hm Hp. unfold react. cbn [fst globals pool]. split; [|exact Hp].
  exact (segs_first _ _ _ (Hm (globals c))).
Qed.

Lemma step_cleans_up (ev : Event) (c : Config) :
  pool_ok cleans_up (pool c) ->
  cleans_up (globals c) (globals (step ev c).1) [] ∧ pool_ok cleans_up (pool (step ev c).1).
Proof.
  intros Hp. destruct ev; cbn [step].
  - apply react_cleans_up; [|exact Hp]. apply obeys_keeps_cleans.
    unfold onStartup. walk; ks_easy; auto with cleans_db.
  - destruct (timers (globals c) !! i); [|split; [apply cleans_up_refl | exact Hp]].
    apply react_cleans_up; [|exact Hp]. apply obeys_keeps_cleans.
    walk; ks_easy; auto with cleans_db.
  - destruct (serverWs (globals c)); (split; [|exact Hp]); cbn [fst globals];
      intros t [x Hx] Hnone; simpl in Hnone; rewrite Hx in Hnone; discriminate.
  - apply react_cleans_up; [|exact Hp]. apply obeys_keeps_cleans.
    unfold onopen. walk; ks_easy; auto with cleans_db.
  - pose proof (onmessage_cleans_up data (globals c)) as Hx.
    destruct data; cbn [fst globals pool];
      (split; [exact (segs_first _ _ _ Hx)|]); try exact Hp.
    eapply pool_ok_park; eassumption.
  - apply react_cleans_up; [|exact Hp]. apply obeys_keeps_cleans.
    unfold onerror. walk; ks_easy.
  - apply react_cleans_up; [|exact Hp]. apply obeys_keeps_cleans.
    unfold onclose. walk; ks_easy.
  - destruct (pool c !! i) as [t|] eqn:Ht; [|split; [apply cleans_up_refl | exact Hp]].
    assert (Hx : segs cleans_up (globals c)
                   (task_resume t (chrome _ (task_call t)) (globals c))).
    { apply Hp. eapply list_elem_of_lookup_2, Ht. }
    cbn [fst globals pool]. split; [exact (segs_first _ _ _ Hx)|].
    eapply pool_ok_park; [exact Hx|]. apply pool_ok_delete, Hp.
  - apply react_cleans_up; [|exact Hp]. apply obeys_keeps_cleans.
    unfold onEvent. walk. apply run_listeners_keeps_sessions.
  - apply react_cleans_up; [|exact Hp]. apply onDetach_cleans_up.
  - apply react_cleans_up; [|exact Hp]. apply onRemoved_cleans_up.
  - apply react_cleans_up; [|exact Hp]. apply obeys_keeps_cleans.
    unfold keepAlive. walk; ks_easy; auto with cleans_db.
Qed.

Lemma reachable_cleans_up (c : Config) : reachable c -> pool_ok cleans_up (pool c).
Proof.
  induction 1 as [|c ev _ Hp].
  - intros t Ht. inversion Ht.
  - apply step_cleans_up, Hp.
Qed.

Lemma without_session_gone (tabId : Prim) (s : State) :
  activeSessions (without_session tabId s) !! tabId = None ∧
  cdpEventListeners (without_session tabId s) !! tabId = None ∧
  ∀ eventName, subscribers tabId eventName (without_session tabId s) = ∅.
Proof.
  split; [apply lookup_delete_eq|]. split; [apply lookup_delete_eq|].
  intros e. unfold subscribers. simpl. rewrite lookup_delete_eq. reflexivity.
Qed.

(** ** The connection state across all handlers *)

#[global] Instance steady_chains : Chains steady.
Proof.
  split; unfold steady.
  - intros s. repeat split; auto.
  - intros s0 s1 s2 o1 o2 (Hc1 & Ha1 & Ht1) (Hc2 & Ha2 & Ht2).
    split; [|split; congruence].
    intros H0. destruct (Hc1 H0) as [H1 Hw1]. destruct (Hc2 H1) as [H2 Hw2].
    split; [exact H2|]. rewrite wire_app, Hw1, Hw2. reflexivity.
Qed.

Lemma quiet_steady s0 s1 o : quiet s0 s1 o -> steady s0 s1 o.
Proof.
  intros (Hw & Hs & Ha & Ht). split; [|split; assumption].
  intros H0. rewrite Hs. split; assumption.
Qed.

Lemma obeys_quiet_steady {A} (m : M A) : obeys quiet m -> obeys steady m.
Proof. intros H s. eapply segs_weaken; [apply quiet_steady | apply H]. Qed.

Ltac steady_easy :=
  try solve [ unfold steady; simpl; split; [|split; reflexivity];
              intros H; split; [first [exact H | discriminate] | reflexivity] ].

Lemma sendToServer_steady message : obeys steady (sendToServer message).
Proof.
  intros s. rewrite sendToServer_eq. simpl. split; [|split; reflexivity].
  intros H. destruct (decide (serverWs s = Some OPEN)); [contradiction|].
  split; [exact H | reflexivity].
Qed.

Lemma connectToServer_steady : obeys steady connectToServer.
Proof. unfold connectToServer. walk; steady_easy. Qed.

Lemma handleServerMessage_steady message : obeys steady (handleServerMessage message).
Proof.
  unfold handleServerMessage. cbv zeta. walk; steady_easy;
    first [apply sendToServer_steady | apply obeys_quiet_steady, dispatch_quiet].
Qed.

Lemma onmessage_steady data : obeys steady (onmessage data).
Proof. unfold onmessage. walk; steady_easy. apply handleServerMessage_steady. Qed.

Lemma onStartup_steady : obeys steady onStartup.
Proof. unfold onStartup. walk; steady_easy. apply connectToServer_steady. Qed.

Lemma onerror_steady error : obeys steady (onerror error).
Proof. unfold onerror. walk; steady_easy. Qed.

Lemma forwarding_listener_steady tabId source method params now :
  obeys steady (forwarding_listener tabId source method params now).
Proof. unfold forwarding_listener. walk; steady_easy. apply sendToServer_steady. Qed.

Lemma run_listeners_steady ls i source method params clock :
  obeys steady (run_listeners ls i source method params clock).
Proof.
  revert i. induction ls as [|t ls IH]; intros i; simpl.
  - walk.
  - walk. + apply forwarding_listener_steady. + apply IH.
Qed.

Lemma onEvent_steady source method params clock :
  obeys steady (onEvent source method params clock).
Proof. unfold onEvent. walk. apply run_listeners_steady. Qed.

Lemma onDetach_steady tabId reason : obeys steady (onDetach tabId reason).
Proof. unfold onDetach. walk; steady_easy. apply sendToServer_steady. Qed.

Lemma onRemoved_steady tabId : obeys steady (onRemoved tabId).
Proof. unfold onRemoved. walk; steady_easy. apply sendToServer_steady. Qed.

Lemma keepAlive_steady now : obeys steady (keepAlive now).
Proof. unfold keepAlive. walk; steady_easy. apply sendToServer_steady. Qed.

(** Whatever holds of every segment of [onmessage] holds of every
    suspended task of a reachable configuration. *)
Lemma reachable_pool_ok R (c : Config) :
  (∀ data, obeys R (onmessage data)) -> reachable c -> pool_ok R (pool c).
Proof.
  intros HR. induction 1 as [|c ev _ Hp].
  - intros t Ht. inversion Ht.
  - destruct ev; cbn [step]; unfold react; cbn [fst pool]; try exact Hp.
    + destruct (timers (globals c) !! i); exact Hp.
    + destruct (serverWs (globals c)); exact Hp.
    + destruct data; cbn [fst pool]; try exact Hp.
      eapply pool_ok_park; [apply HR | exact Hp].
    + destruct (pool c !! i) as [t|] eqn:Ht; [|exact Hp].
      cbn [fst pool]. eapply pool_ok_park; [|apply pool_ok_delete, Hp].
      apply Hp. eapply list_elem_of_lookup_2, Ht.
Qed.

Lemma react_steady (m : M unit) (c : Config) :
  obeys steady m -> steady (globals c) (globals (react m c).1) (react m c).2.
Proof. intros Hm. exact (segs_first _ _ _ (Hm (globals c))). Qed.

Lemma onopen_closed (now : Z) (s : State) :
  serverWs s ≠ Some OPEN -> wire (step_out (onopen now s)) = [].
Proof.
  intros H. unfold onopen. unfold_M. simpl. rewrite sendToServer_eq. simpl.
  destruct (decide (serverWs s = Some OPEN)); [contradiction|reflexivity].
Qed.

Lemma onclose_sends_nothing (s : State) : wire (step_out (onclose s)) = [].
Proof.
  unfold onclose. unfold_M. simpl.
  destruct (decide (reconnectAttempts s < MAX_RECONNECT_ATTEMPTS)); reflexivity.
Qed.

(** While the socket is not open nothing reaches the wire, whichever
    handler runs. *)
Lemma step_closed_sends_nothing (c : Config) (ev : Event) :
  reachable c -> serverWs (globals c) ≠ Some OPEN -> wire (step ev c).2 = [].
Proof.
  intros Hreach Hclosed.
  pose proof (reachable_pool_ok steady c onmessage_steady Hreach) as Hp.
  destruct ev; cbn [step].
  - apply (react_steady _ c onStartup_steady), Hclosed.
  - destruct (timers (globals c) !! i); [|reflexivity].
    unfold react, connectToServer. unfold_M. simpl.
    destruct (decide (_ ∨ _)); reflexivity.
  - destruct (serverWs (globals c)); reflexivity.
  - apply onopen_closed, Hclosed.
  - pose proof (segs_first _ _ _ (onmessage_steady data (globals c))) as [Hx _].
    destruct data; apply Hx, Hclosed.
  - reflexivity.
  - apply onclose_sends_nothing.
  - destruct (pool c !! i) as [t|] eqn:Ht; [|reflexivity].
    cbn [snd].
    refine (proj2 (proj1 (segs_first _ _ _ (Hp t _ _ _)) Hclosed)).
    eapply list_elem_of_lookup_2, Ht.
  - apply (react_steady _ c (onEvent_steady _ _ _ _)), Hclosed.
  - apply (react_steady _ c (onDetach_steady _ _)), Hclosed.
  - apply (react_steady _ c (onRemoved_steady _)), Hclosed.
  - apply (react_steady _ c (keepAlive_steady _)), Hclosed.
Qed.

(** Once the attempts are used up, only a successful open makes the script
    schedule a reconnection again. *)
Lemma step_exhausted (c : Config) (ev : Event) :
  reachable c -> is_open_event ev = false ->
  exhausted (globals c) -> exhausted (globals (step ev c).1).
Proof.
  intros Hreach Hev [Hatt Htim].
  pose proof (reachable_pool_ok steady c onmessage_steady Hreach) as Hp.
  assert (Hkeep : ∀ s out, steady (globals c) s out -> exhausted s).
  { intros s out (_ & Ha & Ht). split; congruence. }
  destruct ev; try discriminate Hev; cbn [step].
  - eapply Hkeep, (react_steady _ c onStartup_steady).
  - rewrite Htim. simpl. split; assumption.
  - destruct (serverWs (globals c)); split; assumption.
  - pose proof (segs_first _ _ _ (onmessage_steady data (globals c))) as Hx.
    destruct data; eapply Hkeep, Hx.
  - split; assumption.
  - destruct (onclose_exhausted (globals c) Hatt) as [Ht' Ha'].
    unfold react. cbn [fst globals]. split; congruence.
  - destruct (pool c !! i) as [t|] eqn:Ht; [|split; assumption].
    cbn [fst globals].
    exact (Hkeep _ _ (segs_first _ _ _ (Hp t (list_elem_of_lookup_2 _ _ _ Ht) _ _))).
  - eapply Hkeep, (react_steady _ c (onEvent_steady _ _ _ _)).
  - eapply Hkeep, (react_steady _ c (onDetach_steady _ _)).
  - eapply Hkeep, (react_steady _ c (onRemoved_steady _)).
  - eapply Hkeep, (react_steady _ c (keepAlive_steady _)).
Qed.

Lemma run_exhausted (evs : list Event) (c : Config) :
  reachable c -> forallb (fun ev => negb (is_open_event ev)) evs = true ->
  exhausted (globals c) -> exhausted (globals (run evs c).1).
Proof.
  revert c. induction evs as [|ev evs IH]; intros c Hreach Hevs Hex; [exact Hex|].
  simpl in Hevs. apply andb_prop in Hevs as [Hev Hevs].
  apply negb_true_iff in Hev.
  pose proof (IH _ (reachable_step c ev Hreach) Hevs (step_exhausted c ev Hreach Hev Hex))
    as Hnext.
  simpl. destruct (step ev c) as [c1 out1]. simpl in Hnext.
  destruct (run evs c1) as [c2 out2]. exact Hnext.
Qed.

Lemma reachable_failed_attempts (k : nat) (c : Config) :
  reachable c -> reachable (failed_attempts k c).2.
Proof.
  revert c. induction k as [|k IH]; intros c Hc; [exact Hc|].
  cbn [failed_attempts].
  pose proof (reachable_step c EvClose Hc) as H1.
  destruct (timers (globals (step EvClose c).1)); [exact H1|].
  pose proof (IH _ (reachable_step _ (EvTimer 0) H1)) as H2.
  destruct (failed_attempts k _) as [delays c3]. exact H2.
Qed.

(** ** A listener per attach *)

(** [detachDebugger] does not remove the forwarding listener it installed:
    after attach, detach and attach again two listeners serve the tab, and
    a subscribed event is forwarded by each. *)
Example reattach_forwards_twice :
  wire (run [EvMessage (ParsedMsg (request "DETACH_DEBUGGER" 3 1)); EvSettle 0 agreeable;
             EvMessage (ParsedMsg (request "ATTACH_DEBUGGER" 4 1)); EvSettle 0 agreeable;
             EvMessage (ParsedMsg
               (subscription_request "REGISTER_CDP_LISTENER" 5 1 "Page.loadEventFired" "L1"));
             EvDebuggerEvent (PNum 1) "Page.loadEventFired" VUndefined (fun i => Z.of_nat i)]
            subscribed_config).2
  = [ResponseOk (VNum 3) (VObj [("detached", VBool true)]);
     ResponseOk (VNum 4) (VObj [("attached", VBool true)]);
     ResponseOk (VNum 5) (VObj [("registered", VBool true)]);
     CdpEvent (PNum 1) "Page.loadEventFired" VUndefined 0;
     CdpEvent (PNum 1) "Page.loadEventFired" VUndefined 1].
Proof. vm_compute. reflexivity. Qed.

(** ** Attach and detach requests that change nothing *)

Lemma handle_attach_attached (message : Message) (s : State) :
  msg_type message = PStr "ATTACH_DEBUGGER" ->
  is_attached (msg_tabId message) s = true ->
  ∃ out, handleServerMessage message s = Done (Ok tt) s out ∧
         wire out = delivered s (ResponseOk (msg_id message) already_attached_result) ∧
         chrome_calls out = [].
Proof.
  intros Htype Hatt. unfold handleServerMessage, dispatch. cbv zeta. rewrite Htype.
  change (is_type "PONG" (PStr "ATTACH_DEBUGGER")) with false.
  change (is_type "GET_ACTIVE_TAB" (PStr "ATTACH_DEBUGGER")) with false.
  change (is_type "ATTACH_DEBUGGER" (PStr "ATTACH_DEBUGGER")) with true.
  cbv iota. unfold try_catch. unfold mbind at 1, M_bind at 1.
  rewrite (attachDebugger_attached _ _ Hatt). simpl.
  rewrite sendToServer_eq. simpl. eexists. split; [reflexivity|].
  unfold delivered. destruct (decide (serverWs s = Some OPEN)); split; reflexivity.
Qed.

Lemma handle_detach_unattached (message : Message) (s : State) :
  msg_type message = PStr "DETACH_DEBUGGER" ->
  is_attached (msg_tabId message) s = false ->
  ∃ out, handleServerMessage message s = Done (Ok tt) s out ∧
         wire out = delivered s (ResponseOk (msg_id message) not_attached_result) ∧
         chrome_calls out = [].
Proof.
  intros Htype Hatt. unfold handleServerMessage, dispatch. cbv zeta. rewrite Htype.
  change (is_type "PONG" (PStr "DETACH_DEBUGGER")) with false.
  change (is_type "GET_ACTIVE_TAB" (PStr "DETACH_DEBUGGER")) with false.
  change (is_type "ATTACH_DEBUGGER" (PStr "DETACH_DEBUGGER")) with false.
  change (is_type "DETACH_DEBUGGER" (PStr "DETACH_DEBUGGER")) with true.
  cbv iota. unfold try_catch. unfold mbind at 1, M_bind at 1.
  unfold detachDebugger. unfold_M. simpl. rewrite Hatt. simpl.
  rewrite sendToServer_eq. simpl. eexists. split; [reflexivity|].
  unfold delivered. destruct (decide (serverWs s = Some OPEN)); split; reflexivity.
Qed.

(** ** Suspended requests keep their correlation id *)

Lemma answers_catch_step (id : Val) (x : Step unit) (h : Err -> State -> Step unit) :
  answers id x -> answers id (catch_step x h).
Proof.
  induction x as [r s out|T c s out k IH]; simpl.
  - intros [-> H]. split; [reflexivity | exact H].
  - intros [H0 Hk]. split; [exact H0|]. intros o s1. apply IH, Hk.
Qed.

Lemma answers_first (id : Val) (x : Step unit) (o : Outbound) :
  answers id x -> o ∈ wire (step_out x) -> is_response_to id o.
Proof.
  destruct x as [r s out|T c s out k]; simpl.
  - intros [_ (o' & Ho' & Hw)] Hin. rewrite Hw in Hin. unfold delivered in Hin.
    destruct (decide (serverWs s = Some OPEN)); [|inversion Hin].
    apply list_elem_of_singleton in Hin as ->. exact Ho'.
  - intros [Hw _] Hin. rewrite Hw in Hin. inversion Hin.
Qed.

Lemma handleServerMessage_answers (message : Message) (s : State) :
  if is_type "PONG" (msg_type message)
  then handleServerMessage message s = Done (Ok tt) s []
  else answers (msg_id message) (handleServerMessage message s).
Proof.
  unfold handleServerMessage. cbv zeta.
  destruct (is_type "PONG" (msg_type message)) eqn:Hpong.
  - reflexivity.
  - unfold try_catch. unfold mbind at 1, M_bind at 1.
    eapply respond_answers. apply dispatch_quiet.
Qed.

Lemma pool_answers_park (message : Message) (tasks : list Task) (x : Step unit) :
  (∀ T (c : ChromeCall T) s out k, x = Await c s out k ->
     ∀ o s1, answers (msg_id message) (k o s1)) ->
  pool_answers tasks -> pool_answers (park message tasks x).
Proof.
  intros Hx Hp. destruct x as [r s out|T c s out k]; simpl; [exact Hp|].
  intros t Ht. apply elem_of_app in Ht as [Ht|Ht]; [apply Hp, Ht|].
  apply list_elem_of_singleton in Ht as ->. simpl. eapply Hx. reflexivity.
Qed.

Lemma answers_resumed (id : Val) (x : Step unit) :
  answers id x ->
  ∀ T (c : ChromeCall T) s out k, x = Await c s out k -> ∀ o s1, answers id (k o s1).
Proof. intros Hx T c s out k ->. simpl in Hx. apply Hx. Qed.

Lemma onmessage_resumed (message : Message) (s : State) :
  ∀ T (c : ChromeCall T) s' out k,
    onmessage (ParsedMsg message) s = Await c s' out k ->
    ∀ o s1, answers (msg_id message) (k o s1).
Proof.
  unfold onmessage, try_catch.
  pose proof (handleServerMessage_answers message s) as H.
  destruct (is_type "PONG" (msg_type message)).
  - rewrite H. simpl. discriminate.
  - apply answers_resumed, answers_catch_step, H.
Qed.

Lemma reachable_pool_answers (c : Config) : reachable c -> pool_answers (pool c).
Proof.
  induction 1 as [|c ev _ Hp].
  - intros t Ht. inversion Ht.
  - destruct ev; cbn [step]; unfold react; cbn [fst pool]; try exact Hp.
    + destruct (timers (globals c) !! i); exact Hp.
    + destruct (serverWs (globals c)); exact Hp.
    + destruct data; cbn [fst pool]; try exact Hp.
      apply pool_answers_park; [apply onmessage_resumed | exact Hp].
    + destruct (pool c !! i) as [t|] eqn:Ht; [|exact Hp].
      cbn [fst pool]. apply pool_answers_park.
      * apply answers_resumed, Hp. eapply list_elem_of_lookup_2, Ht.
      * intros t' Ht'. apply Hp. eapply list_elem_of_delete_inv, Ht'.
Qed.

(** ** Two requests in flight *)

(** Request 1 attaches tab 1, request 2 sends a command to tab 2; the
    browser settles the promises of request 2 first.  Response 2 leaves
    before response 1, each with its own id. *)
Example responses_out_of_order :
  wire (run [EvMessage (ParsedMsg (request "ATTACH_DEBUGGER" 1 1));
             EvMessage (ParsedMsg (command_request 2 2 "Page.enable"));
             EvSettle 1 agreeable; EvSettle 1 agreeable; EvSettle 0 agreeable]
            (mkConfig connected [])).2
  = [ResponseOk (VNum 2) (VObj []);
     ResponseOk (VNum 1) (VObj [("attached", VBool true)])].
Proof. vm_compute. reflexivity. Qed.

(** The browser rejects the attach: the failure response carries the id of
    the request, and no session is recorded. *)
Example failed_attach_is_answered :
  let e := mkErr "Cannot access a chrome:// URL" (StackAt "Error" "chrome.debugger.attach") in
  let run := complete (hostile e) (handleServerMessage (request "ATTACH_DEBUGGER" 7 1) connected) in
  wire run.2 = [ResponseErr (VNum 7) "Cannot access a chrome:// URL"
                            (StackAt "Error" "chrome.debugger.attach")] ∧
  is_attached (PNum 1) run.1.2 = false.
Proof. split; vm_compute; reflexivity. Qed.

(** ** What an event puts on the wire *)

Lemma onEvent_eq (tabId : Prim) (method : string) (params : Val) (clock : nat -> Z)
    (s : State) :
  ∃ out,
    onEvent tabId method params clock s = Done (Ok tt) s out ∧
    wire out = (if forwards tabId method s
                then if decide (serverWs s = Some OPEN)
                     then map (CdpEvent tabId method params)
                              (stamps (onEventListeners s) 0 tabId clock)
                     else []
                else []) ∧
    (forwards tabId method s = false -> out = []).
Proof.
  unfold onEvent. unfold mbind, M_bind, gets. simpl.
  destruct (run_listeners_eq (onEventListeners s) 0 tabId method params clock s)
    as (out & Hrun & Hwire & Hnone).
  rewrite Hrun. simpl. exists out. split; [reflexivity|]. split; assumption.
Qed.

Lemma stamps_member ls i source clock :
  stamps ls i source clock ≠ [] ↔ source ∈ ls.
Proof.
  split; [|apply stamps_nonempty].
  revert i. induction ls as [|t ls IH]; intros i; simpl; [congruence|].
  destruct (decide (source = t)) as [->|Hne]; simpl.
  - intros _. apply elem_of_cons. left. reflexivity.
  - intros H. apply elem_of_cons. right. exact (IH _ H).
Qed.

Lemma registry_registered_other (tabId eventName listenerId t e : Prim) (s : State) :
  (t, e) ≠ (tabId, eventName) ->
  cdpEventListeners (registered tabId eventName listenerId s) !! t ≫= (fun events => events !! e)
  = cdpEventListeners s !! t ≫= (fun events => events !! e).
Proof.
  intros Hne. unfold registered, events_of. simpl.
  destruct (decide (t = tabId)) as [->|Ht].
  - rewrite lookup_insert_eq. simpl.
    rewrite lookup_insert_ne by congruence.
    destruct (cdpEventListeners s !! tabId); reflexivity.
  - rewrite lookup_insert_ne by congruence. reflexivity.
Qed.

Lemma registry_unregistered_other (tabId eventName listenerId t e : Prim) (s : State) :
  (t, e) ≠ (tabId, eventName) ->
  cdpEventListeners (unregistered tabId eventName listenerId s) !! t ≫= (fun events => events !! e)
  = cdpEventListeners s !! t ≫= (fun events => events !! e).
Proof.
  intros Hne. unfold unregistered, events_of.
  destruct (cdpEventListeners s !! tabId) as [events|] eqn:Htab; simpl; [|reflexivity].
  destruct (events !! eventName) as [ids|] eqn:Hev; simpl; [|reflexivity].
  destruct (decide (t = tabId)) as [->|Ht].
  - rewrite lookup_insert_eq, Htab. simpl.
    destruct (decide (size (ids ∖ {[listenerId]}) = 0%nat)).
    + rewrite lookup_delete_ne by congruence. reflexivity.
    + rewrite lookup_insert_ne by congruence. reflexivity.
  - rewrite lookup_insert_ne by congruence. reflexivity.
Qed.

(** What is forwarded for a pair does not depend on the subscriptions of
    other pairs. *)
Lemma onEvent_wire_other (tabId : Prim) (method : string) (params : Val) (clock : nat -> Z)
    (s s' : State) :
  cdpEventListeners s' !! tabId ≫= (fun events => events !! PStr method)
  = cdpEventListeners s !! tabId ≫= (fun events => events !! PStr method) ->
  serverWs s' = serverWs s -> onEventListeners s' = onEventListeners s ->
  wire (step_out (onEvent tabId method params clock s'))
  = wire (step_out (onEvent tabId method params clock s)).
Proof.
  intros Hreg Hws Hls.
  destruct (onEvent_eq tabId method params clock s) as (out & Ho & Hw & _).
  destruct (onEvent_eq tabId method params clock s') as (out' & Ho' & Hw' & _).
  rewrite Ho, Ho'. cbn [step_out]. rewrite Hw, Hw'.
  unfold forwards. rewrite Hreg, Hws, Hls. reflexivity.
Qed.

Lemma registered_frame (tabId eventName listenerId : Prim) (s : State) :
  serverWs (registered tabId eventName listenerId s) = serverWs s ∧
  onEventListeners (registered tabId eventName listenerId s) = onEventListeners s.
Proof. split; reflexivity. Qed.

Lemma unregistered_frame (tabId eventName listenerId : Prim) (s : State) :
  serverWs (unregistered tabId eventName listenerId s) = serverWs s ∧
  onEventListeners (unregistered tabId eventName listenerId s) = onEventListeners s.
Proof.
  unfold unregistered.
  destruct (cdpEventListeners s !! tabId ≫= _); split; reflexivity.
Qed.

(** * The relay protocol, property by property *)

(** C1. Every request other than the keepalive [PONG] is answered by exactly
    one [RESPONSE] envelope that carries the request's own [id], on the
    success path as on the failure path; nothing else is sent on its
    behalf, whatever the browser answers and whatever other requests are
    handled while this one is suspended.  Run to completion against any
    browser, the request has put that response on the wire (or, the socket
    not being open, nothing).  In a reachable configuration, in whatever
    order the pending requests are resumed, everything a request puts on
    the wire is a response carrying the id of that very request. *)
Theorem C1_response_echoes_request_id (message : Message) (s : State) :
  (if is_type "PONG" (msg_type message)
   then handleServerMessage message s = Done (Ok tt) s []
   else answers (msg_id message) (handleServerMessage message s)) ∧
  (∀ chrome : Oracle,
     ∀ o, o ∈ wire (complete chrome (handleServerMessage message s)).2 ->
          is_response_to (msg_id message) o) ∧
  (∀ c : Config,
     reachable c ->
     (∀ o, o ∈ wire (step (EvMessage (ParsedMsg message)) c).2 ->
           is_response_to (msg_id message) o) ∧
     (∀ i chrome t o,
        pool c !! i = Some t ->
        o ∈ wire (step (EvSettle i chrome) c).2 ->
        is_response_to (msg_id (origin t)) o)).
Proof.
  pose proof (handleServerMessage_answers message s) as Hmain.
  split; [exact Hmain|]. split.
  - intros chrome o Ho.
    destruct (is_type "PONG" (msg_type message)).
    + rewrite Hmain in Ho. simpl in Ho. inversion Ho.
    + destruct (answers_complete _ chrome _ Hmain) as (o' & Ho' & Hw & _).
      rewrite Hw in Ho. unfold delivered in Ho.
      destruct (decide _); [|inversion Ho].
      apply list_elem_of_singleton in Ho. subst. exact Ho'.
  - intros c Hreach. split.
    + intros o Ho. cbn [step snd] in Ho. unfold onmessage, try_catch in Ho.
      pose proof (handleServerMessage_answers message (globals c)) as Hc.
      destruct (is_type "PONG" (msg_type message)).
      * rewrite Hc in Ho. simpl in Ho. inversion Ho.
      * eapply answers_first; [eapply answers_catch_step, Hc | exact Ho].
    + intros i chrome t o Ht Ho. cbn [step] in Ho. rewrite Ht in Ho. cbn [snd] in Ho.
      eapply answers_first; [|exact Ho].
      apply (reachable_pool_answers c Hreach). eapply list_elem_of_lookup_2, Ht.
Qed.

Lemma C1_response_echoes_request_id_witness :
  ResponseOk (VNum 7) (VObj [("attached", VBool true)])
    ∈ wire (complete agreeable
              (handleServerMessage (request "ATTACH_DEBUGGER" 7 1) connected)).2 ∧
  is_response_to (VNum 7) (ResponseOk (VNum 7) (VObj [("attached", VBool true)])).
Proof.
  assert (Hin : ResponseOk (VNum 7) (VObj [("attached", VBool true)])
                  ∈ wire (complete agreeable
                     (handleServerMessage (request "ATTACH_DEBUGGER" 7 1) connected)).2).
  { vm_compute. apply list_elem_of_here. }
  split; [exact Hin|].
  exact (proj1 (proj2 (C1_response_echoes_request_id (request "ATTACH_DEBUGGER" 7 1)
                         connected))
               agreeable _ Hin).
Defined.

(** C2, as amended. A CDP command for a tab that is not attached is not
    refused: [sendCDPCommand] first issues [chrome.debugger.attach] for the
    tab.  If that is rejected the command is never issued and the attach
    error is what the caller gets.  If it resolves, the session is recorded
    (the tab is attached from then on), the command is issued to the
    browser, and its outcome, value or error, is the outcome of the call. *)
Theorem C2_cdp_command_attaches_on_demand
    (tabId method : Prim) (params : Val) (s : State) :
  is_attached tabId s = false ->
  ∃ k,
    sendCDPCommand tabId method params s
    = Await (debugger_attach tabId "1.3") s [Called (debugger_attach tabId "1.3")] k ∧
    (∀ e s1, ∃ out, k (Throw e) s1 = Done (Throw e) s1 out ∧ chrome_calls out = []) ∧
    (∀ s1, ∃ out k2,
       k (Ok tt) s1
       = Await (debugger_sendCommand tabId (VPrim method) (default_param (VObj []) params))
               (with_session tabId s1) out k2 ∧
       is_attached tabId (with_session tabId s1) = true ∧
       chrome_calls out
       = [existT _ (debugger_sendCommand tabId (VPrim method)
                      (default_param (VObj []) params))] ∧
       ∀ r s2, ∃ out2, k2 r s2 = Done r s2 out2 ∧ chrome_calls out2 = []).
Proof.
  intros H. unfold sendCDPCommand, attachDebugger, setupCDPEventForwarding.
  unfold_M. simpl. rewrite H. simpl. rewrite H. simpl.
  eexists. split; [reflexivity|]. split.
  - intros e s1. simpl. eexists. split; reflexivity.
  - intros s1. simpl. rewrite has_session_insert. simpl.
    replace (set_onEventListeners _ _) with (with_session tabId s1).
    2:{ unfold with_session; simpl. unfold set_onEventListeners, set_activeSessions; simpl.
        rewrite alter_insert_eq. reflexivity. }
    eexists _, _. split; [reflexivity|].
    split; [apply is_attached_with_session|].
    split; [reflexivity|].
    intros [v|e] s2; simpl; eexists; split; reflexivity.
Qed.

Lemma C2_cdp_command_attaches_on_demand_witness :
  is_attached (PNum 1) connected = false ∧
  ∃ k, sendCDPCommand (PNum 1) (PStr "Page.enable") VUndefined connected
       = Await (debugger_attach (PNum 1) "1.3") connected
               [Called (debugger_attach (PNum 1) "1.3")] k.
Proof.
  split; [reflexivity|].
  destruct (C2_cdp_command_attaches_on_demand
              (PNum 1) (PStr "Page.enable") VUndefined connected eq_refl)
    as (k & Hk & _).
  exists k. exact Hk.
Defined.

(** On a tab without a session, in a browser where every call succeeds, a
    CDP command does not fail: it is issued (after an attach) and its
    result is returned to the caller as a successful response. *)
Lemma C2_not_attached_error_counterexample :
  is_attached (PNum 1) connected = false ∧
  (complete agreeable
     (sendCDPCommand (PNum 1) (PStr "Page.enable") VUndefined connected)).1.1
  = Ok (VObj []) ∧
  chrome_calls
    (complete agreeable
       (sendCDPCommand (PNum 1) (PStr "Page.enable") VUndefined connected)).2
  = [existT _ (debugger_attach (PNum 1) "1.3");
     existT _ (debugger_sendCommand (PNum 1) (VStr "Page.enable") (VObj []))] ∧
  wire (complete agreeable
          (handleServerMessage (command_request 7 1 "Page.enable") connected)).2
  = [ResponseOk (VNum 7) (VObj [])].
Proof. repeat split; vm_compute; reflexivity. Qed.

(** C3. On a tab whose session is attached, [attachDebugger] returns
    [{attached: true, alreadyAttached: true}] at once: it does not await, so
    no [chrome.debugger.attach] (nor any other browser call) is issued, it
    sends nothing, and it leaves the globals as they were.  The same holds
    for any number of calls in a row, and an [ATTACH_DEBUGGER] request for
    the tab is answered with that result, again with no browser call and no
    change of state. *)
Theorem C3_attach_attached_is_idempotent (tabId : Prim) (s : State) (n : nat) :
  is_attached tabId s = true ->
  (∃ out,
     attach_repeatedly n tabId s = Done (Ok (replicate n already_attached_result)) s out ∧
     chrome_calls out = [] ∧ wire out = []) ∧
  (∀ message,
     msg_type message = PStr "ATTACH_DEBUGGER" -> msg_tabId message = tabId ->
     ∃ out, handleServerMessage message s = Done (Ok tt) s out ∧
            wire out = delivered s (ResponseOk (msg_id message) already_attached_result) ∧
            chrome_calls out = []).
Proof.
  intros H. split.
  - induction n as [|n (out & IH & Hc & Hw)].
    + exists []. repeat split.
    + simpl. unfold mbind at 1, M_bind at 1.
      rewrite (attachDebugger_attached _ _ H). simpl.
      unfold mbind at 1, M_bind at 1. rewrite IH. simpl.
      eexists. split; [reflexivity|]. simpl. rewrite app_nil_r. auto.
  - intros message Htype <-. apply handle_attach_attached; assumption.
Qed.

Lemma C3_attach_attached_is_idempotent_witness :
  is_attached (PNum 1) attached_to_1 = true ∧
  ∃ out,
    attach_repeatedly 2 (PNum 1) attached_to_1
    = Done (Ok [already_attached_result; already_attached_result]) attached_to_1 out ∧
    chrome_calls out = [] ∧ wire out = [].
Proof.
  split; [reflexivity|].
  exact (proj1 (C3_attach_attached_is_idempotent (PNum 1) attached_to_1 2 eq_refl)).
Defined.

(** C4, as amended. On a tab that is not attached (never attached
    included), [detachDebugger] returns the non-error result
    [{detached: false, reason: "Not attached"}] at once, issues no browser
    call, sends nothing and leaves sessions and subscriptions, like all the
    globals, unchanged.  A [DETACH_DEBUGGER] request for the tab is
    answered with that result in a success response. *)
Theorem C4_detach_unattached_returns_Not_attached (tabId : Prim) (s : State) :
  is_attached tabId s = false ->
  detachDebugger tabId s = Done (Ok not_attached_result) s [] ∧
  (∀ message,
     msg_type message = PStr "DETACH_DEBUGGER" -> msg_tabId message = tabId ->
     ∃ out, handleServerMessage message s = Done (Ok tt) s out ∧
            wire out = delivered s (ResponseOk (msg_id message) not_attached_result) ∧
            chrome_calls out = []).
Proof.
  intros H. split.
  - unfold detachDebugger. unfold_M. simpl. rewrite H. reflexivity.
  - intros message Htype <-. apply handle_detach_unattached; assumption.
Qed.

Lemma C4_detach_unattached_returns_Not_attached_witness :
  is_attached (PNum 1) initial = false ∧
  detachDebugger (PNum 1) initial = Done (Ok not_attached_result) initial [].
Proof.
  split; [reflexivity|].
  exact (proj1 (C4_detach_unattached_returns_Not_attached (PNum 1) initial eq_refl)).
Defined.

(** The reason string of the script is capitalised: on a never-attached
    tab the result is not the object the specification quotes. *)
Lemma C4_reason_string_counterexample :
  is_attached (PNum 1) initial = false ∧
  result_of (detachDebugger (PNum 1) initial) = Some (Ok not_attached_result) ∧
  result_of (detachDebugger (PNum 1) initial) ≠ Some (Ok not_attached_as_specified).
Proof.
  split; [reflexivity|]. split; [reflexivity|].
  vm_compute. intros H. discriminate H.
Qed.

(** C5, as amended. An event that the browser reports for a tab is
    forwarded exactly when three things hold: some listener id is
    subscribed for exactly that (tab, event) pair, the socket to the server
    is open, and a forwarding listener has been installed for the tab (it
    has been attached at least once, as every tab with a session has).
    Then one [CDP_EVENT] envelope per installed listener of the tab is put
    on the wire.  Otherwise the event is dropped: nothing reaches the wire,
    with no subscriber nothing happens at all, the globals are as before
    (nothing is kept for later), and a subscription made afterwards sends
    nothing.  Subscriptions and unsubscriptions for another event name or
    another tab change nothing of what is forwarded for the pair. *)
Theorem C5_event_forwarded_iff_subscribed
    (c : Config) (tabId : Prim) (method : string) (params : Val) (clock : nat -> Z) :
  reachable c ->
  let s := globals c in
  ∃ out,
    onEvent tabId method params clock s = Done (Ok tt) s out ∧
    (wire out ≠ [] ↔
     subscribed tabId (PStr method) s ∧ serverWs s = Some OPEN ∧
     tabId ∈ onEventListeners s) ∧
    (subscribed tabId (PStr method) s -> serverWs s = Some OPEN ->
     wire out = map (CdpEvent tabId method params)
                    (stamps (onEventListeners s) 0 tabId clock)) ∧
    (stamps (onEventListeners s) 0 tabId clock ≠ [] ↔ tabId ∈ onEventListeners s) ∧
    (is_attached tabId s = true -> tabId ∈ onEventListeners s) ∧
    (serverWs s ≠ Some OPEN -> wire out = []) ∧
    (¬ subscribed tabId (PStr method) s -> out = []) ∧
    (∀ listenerId s',
       wire (step_out (registerCDPListener tabId (PStr method) listenerId s')) = []) ∧
    (∀ t e listenerId,
       (t, e) ≠ (tabId, PStr method) ->
       wire (step_out (onEvent tabId method params clock
                         (step_state (registerCDPListener t e listenerId s)))) = wire out ∧
       wire (step_out (onEvent tabId method params clock
                         (step_state (unregisterCDPListener t e listenerId s)))) = wire out).
Proof.
  intros Hreach s. subst s.
  destruct (reachable_Inv c Hreach) as [[Hwf Hli] _]. set (s := globals c) in *.
  pose proof (forwards_subscribed tabId method s Hwf) as Hfw.
  pose proof (stamps_member (onEventListeners s) 0 tabId clock) as Hst.
  destruct (onEvent_eq tabId method params clock s) as (out & Hout & Hwire & Hnone).
  exists out. split; [exact Hout|].
  assert (Hother : ∀ s', 
             cdpEventListeners s' !! tabId ≫= (fun events => events !! PStr method)
             = cdpEventListeners s !! tabId ≫= (fun events => events !! PStr method) ->
             serverWs s' = serverWs s -> onEventListeners s' = onEventListeners s ->
             wire (step_out (onEvent tabId method params clock s')) = wire out).
  { intros s' H1 H2 H3.
    rewrite (onEvent_wire_other tabId method params clock s s' H1 H2 H3), Hout.
    reflexivity. }
  split; [|split; [|split; [|split; [|split; [|split; [|split]]]]]].
  - rewrite Hwire. destruct (forwards tabId method s) eqn:Hf.
    + destruct (decide (serverWs s = Some OPEN)) as [Hopen|Hclosed].
      * split.
        -- intros Hne. split; [apply Hfw; reflexivity|]. split; [exact Hopen|].
           apply Hst. intros Hnil. rewrite Hnil in Hne. apply Hne. reflexivity.
        -- intros (_ & _ & Hin) Hnil. apply Hst in Hin. apply Hin.
           destruct (stamps (onEventListeners s) 0 tabId clock); [reflexivity|].
           discriminate Hnil.
      * split; [congruence|]. intros (_ & Hopen & _). contradiction.
    + split; [congruence|]. intros (Hsub & _). apply Hfw in Hsub. discriminate Hsub.
  - intros Hsub Hopen. apply Hfw in Hsub. rewrite Hwire, Hsub.
    destruct (decide (serverWs s = Some OPEN)); [reflexivity | contradiction].
  - apply Hst.
  - intros Hatt. apply Hli. unfold is_attached in Hatt.
    destruct (activeSessions s !! tabId); [eauto | discriminate].
  - intros Hclosed. rewrite Hwire.
    destruct (forwards tabId method s); [|reflexivity].
    destruct (decide (serverWs s = Some OPEN)); [contradiction | reflexivity].
  - intros Hnot. apply Hnone. destruct (forwards tabId method s) eqn:Hf; [|reflexivity].
    exfalso. apply Hnot, Hfw. reflexivity.
  - intros l s'. rewrite registerCDPListener_eq. reflexivity.
  - intros t e l Hne. 
    assert (Hne' : (tabId, PStr method) ≠ (t, e)) by congruence.
    rewrite registerCDPListener_eq, unregisterCDPListener_eq. cbn [step_state]. split.
    + apply Hother; [apply registry_registered_other, Hne' | reflexivity | reflexivity].
    + apply Hother; [apply registry_unregistered_other, Hne'
                    | apply unregistered_frame | apply unregistered_frame].
Qed.

Lemma C5_event_forwarded_iff_subscribed_witness :
  reachable subscribed_config ∧
  subscribed (PNum 1) (PStr "Page.loadEventFired") (globals subscribed_config) ∧
  serverWs (globals subscribed_config) = Some OPEN ∧
  ∃ out,
    onEvent (PNum 1) "Page.loadEventFired" VUndefined (fun _ => 42) (globals subscribed_config)
    = Done (Ok tt) (globals subscribed_config) out ∧
    wire out = [CdpEvent (PNum 1) "Page.loadEventFired" VUndefined 42].
Proof.
  split; [exact reachable_subscribed_config|].
  assert (Hsub : subscribed (PNum 1) (PStr "Page.loadEventFired") (globals subscribed_config)).
  { exists (PStr "L1"). apply (bool_decide_unpack _). vm_compute. exact I. }
  assert (Hopen : serverWs (globals subscribed_config) = Some OPEN)
    by (vm_compute; reflexivity).
  split; [exact Hsub|]. split; [exact Hopen|].
  destruct (C5_event_forwarded_iff_subscribed subscribed_config (PNum 1)
              "Page.loadEventFired" VUndefined (fun _ => 42)
              reachable_subscribed_config) as (out & Hout & _ & Hwire & _).
  exists out. split; [exact Hout|].
  rewrite (Hwire Hsub Hopen). vm_compute. reflexivity.
Defined.

(** A subscribed event is not always forwarded.  Once the socket has
    closed, an event of attached tab 1, to which ["L1"] is subscribed, puts
    nothing on the wire; and with the socket open, an event of tab 2, which
    has a subscriber but was never attached, is dropped by every listener. *)
Lemma C5_subscribed_not_forwarded_counterexample :
  let closed := (run [EvReadyState CLOSED; EvClose] subscribed_config).1 in
  let unattached :=
    (run [EvMessage (ParsedMsg
            (subscription_request "REGISTER_CDP_LISTENER" 3 2 "Page.loadEventFired" "L2"))]
         subscribed_config).1 in
  (reachable closed ∧
   subscribed (PNum 1) (PStr "Page.loadEventFired") (globals closed) ∧
   is_attached (PNum 1) (globals closed) = true ∧
   wire (step (EvDebuggerEvent (PNum 1) "Page.loadEventFired" VUndefined (fun _ => 42))
              closed).2 = []) ∧
  (reachable unattached ∧
   subscribed (PNum 2) (PStr "Page.loadEventFired") (globals unattached) ∧
   serverWs (globals unattached) = Some OPEN ∧
   (step (EvDebuggerEvent (PNum 2) "Page.loadEventFired" VUndefined (fun _ => 42))
         unattached).2 = []).
Proof.
  cbv zeta. split.
  - split; [apply reachable_run, reachable_subscribed_config|].
    split; [|split; vm_compute; reflexivity].
    exists (PStr "L1"). apply (bool_decide_unpack _). vm_compute. exact I.
  - split; [apply reachable_run, reachable_subscribed_config|].
    split; [|split; vm_compute; reflexivity].
    exists (PStr "L2"). apply (bool_decide_unpack _). vm_compute. exact I.
Qed.




(** C7. From a connection that had been established (attempt counter at
    zero, no timer pending), a run of [k] reconnection attempts that all
    fail waits [min(1000 * 2^i, 10000)] ms before attempt [i], for
    [i = 1 .. min k 5]: 2000, 4000, 8000, 10000, 10000.  The sequence is
    non-decreasing and never exceeds the cap.  After the fifth failed
    attempt the next close schedules nothing: no timer is pending, and
    whatever happens afterwards, short of a connection being opened, no
    reconnection is scheduled again. *)
Theorem C7_backoff_delays_and_stop (k : nat) (c : Config) :
  reachable c ->
  timers (globals c) = [] ->
  reconnectAttempts (globals c) = 0 ->
  let delays := (failed_attempts k c).1 in
  let final := (failed_attempts k c).2 in
  delays = map reconnect_delay (attempt_numbers (Nat.min k 5)) ∧
  Sorted Z.le delays ∧
  Forall (fun d => d ≤ 10000) delays ∧
  timers (globals final) = [] ∧
  ((5 ≤ k)%nat ->
   delays = [2000; 4000; 8000; 10000; 10000] ∧
   (failed_attempts (S k) c).1 = delays ∧
   ∀ evs, forallb (fun ev => negb (is_open_event ev)) evs = true ->
          timers (globals (run evs final).1) = []).
Proof.
  intros Hreach Ht Ha delays final.
  destruct (failed_attempts_delays k c 0 Ht Ha) as (Hd & Hfin & Hatt);
    [unfold MAX_RECONNECT_ATTEMPTS; lia|].
  change (Z.to_nat (MAX_RECONNECT_ATTEMPTS - 0)) with 5%nat in Hd.
  assert (Hdelays : delays = map reconnect_delay (attempt_numbers (Nat.min k 5))).
  { unfold delays. rewrite Hd. apply map_ext. intros i. f_equal. }
  split; [exact Hdelays|].
  assert (Hcases : (Nat.min k 5 = 0 ∨ Nat.min k 5 = 1 ∨ Nat.min k 5 = 2 ∨
                    Nat.min k 5 = 3 ∨ Nat.min k 5 = 4 ∨ Nat.min k 5 = 5)%nat) by lia.
  split; [|split; [|split; [exact Hfin|]]].
  - rewrite Hdelays.
    destruct Hcases as [->|[->|[->|[->|[->| ->]]]]]; vm_compute;
      repeat constructor; discriminate.
  - rewrite Hdelays. apply List.Forall_forall. intros d Hin.
    apply List.in_map_iff in Hin as (i & <- & _).
    apply reconnect_delay_capped.
  - intros Hk. split; [|split].
    + rewrite Hdelays. replace (Nat.min k 5) with 5%nat by lia. reflexivity.
    + destruct (failed_attempts_delays (S k) c 0 Ht Ha) as (Hd' & _);
        [unfold MAX_RECONNECT_ATTEMPTS; lia|].
      rewrite Hd'. unfold delays. rewrite Hd.
      change (Z.to_nat (MAX_RECONNECT_ATTEMPTS - 0)) with 5%nat.
      replace (Nat.min (S k) 5) with 5%nat by lia.
      replace (Nat.min k 5) with 5%nat by lia. reflexivity.
    + intros evs Hevs.
      refine (proj2 (run_exhausted evs final _ Hevs _)).
      * apply reachable_failed_attempts, Hreach.
      * split; [|exact Hfin].
        fold final in Hatt. rewrite Hatt. unfold MAX_RECONNECT_ATTEMPTS. lia.
Qed.

Lemma C7_backoff_delays_and_stop_witness :
  reachable loaded ∧
  timers (globals loaded) = [] ∧ reconnectAttempts (globals loaded) = 0 ∧
  (failed_attempts 7 loaded).1 = [2000; 4000; 8000; 10000; 10000].
Proof.
  split; [exact reachable_loaded|]. split; [reflexivity|]. split; [reflexivity|].
  exact (proj1 (proj2 (proj2 (proj2 (proj2
    (C7_backoff_delays_and_stop 7 loaded reachable_loaded eq_refl eq_refl))))
    ltac:(lia))).
Defined.

(** C8. In every reachable state:
    - subscribing twice leaves the registry as one subscription does: the
      second [registerCDPListener] returns [{registered: true}] and changes
      nothing, the pair's set being the old one with the id inserted;
    - unsubscribing an id that is not in the pair's set returns
      [{unregistered: true}] and changes nothing;
    - unsubscribing twice leaves the registry as one unsubscription does. *)
Theorem C8_subscribe_unsubscribe_idempotent
    (c : Config) (tabId eventName listenerId : Prim) :
  reachable c ->
  let s := globals c in
  let register := registerCDPListener tabId eventName listenerId in
  let unregister := unregisterCDPListener tabId eventName listenerId in
  (∃ s1 out1 out2,
     register s = Done (Ok (VObj [("registered", VBool true)])) s1 out1 ∧
     register s1 = Done (Ok (VObj [("registered", VBool true)])) s1 out2 ∧
     subscribers tabId eventName s1 = {[listenerId]} ∪ subscribers tabId eventName s) ∧
  (listenerId ∉ subscribers tabId eventName s ->
   unregister s = Done (Ok (VObj [("unregistered", VBool true)])) s []) ∧
  (∃ s1,
     unregister s = Done (Ok (VObj [("unregistered", VBool true)])) s1 [] ∧
     unregister s1 = Done (Ok (VObj [("unregistered", VBool true)])) s1 [] ∧
     subscribers tabId eventName s1 = subscribers tabId eventName s ∖ {[listenerId]}).
Proof.
  intros Hreach s register unregister. subst register unregister.
  destruct (reachable_Inv c Hreach) as [[Hwf _] _]. fold s in Hwf.
  split; [|split].
  - exists (registered tabId eventName listenerId s). eexists _, _.
    rewrite !registerCDPListener_eq, registered_idemp.
    split; [reflexivity|]. split; [reflexivity|]. apply subscribers_registered.
  - intros Hnot. rewrite unregisterCDPListener_eq.
    rewrite unregistered_non_member by assumption. reflexivity.
  - exists (unregistered tabId eventName listenerId s).
    rewrite !unregisterCDPListener_eq, unregistered_idemp.
    split; [reflexivity|]. split; [reflexivity|]. apply subscribers_unregistered.
Qed.

Lemma C8_subscribe_unsubscribe_idempotent_witness :
  reachable subscribed_config ∧
  (PStr "L2" ∉ subscribers (PNum 1) (PStr "Page.loadEventFired") (globals subscribed_config)) ∧
  unregisterCDPListener (PNum 1) (PStr "Page.loadEventFired") (PStr "L2")
    (globals subscribed_config)
  = Done (Ok (VObj [("unregistered", VBool true)])) (globals subscribed_config) [].
Proof.
  split; [exact reachable_subscribed_config|].
  assert (Hnot : PStr "L2" ∉ subscribers (PNum 1) (PStr "Page.loadEventFired")
                                (globals subscribed_config)).
  { vm_compute. intros H. discriminate H. }
  split; [exact Hnot|].
  exact (proj1 (proj2 (C8_subscribe_unsubscribe_idempotent subscribed_config (PNum 1)
                         (PStr "Page.loadEventFired") (PStr "L2")
                         reachable_subscribed_config)) Hnot).
Defined.

(** C9. Whatever happens to the script in a reachable configuration, a tab
    whose session disappears has no entry left in the subscription
    registry.  The three ways a session disappears all drop the tab's entry
    together with the session: [detachDebugger] once
    [chrome.debugger.detach] has resolved, the [chrome.debugger.onDetach]
    listener, and the [chrome.tabs.onRemoved] listener. *)
Theorem C9_session_destroyed_drops_subscriptions (c : Config) (tabId : Prim) :
  reachable c ->
  let s := globals c in
  (∀ ev,
     is_Some (activeSessions s !! tabId) ->
     activeSessions (globals (step ev c).1) !! tabId = None ->
     cdpEventListeners (globals (step ev c).1) !! tabId = None ∧
     ∀ eventName, subscribers tabId eventName (globals (step ev c).1) = ∅) ∧
  (is_attached tabId s = true ->
   ∃ k, detachDebugger tabId s
        = Await (debugger_detach tabId) s [Called (debugger_detach tabId)] k ∧
        ∀ s1, ∃ out, k (Ok tt) s1
                     = Done (Ok (VObj [("detached", VBool true)]))
                            (without_session tabId s1) out) ∧
  (has_session tabId s = true ->
   ∀ reason, ∃ out, onDetach tabId reason s = Done (Ok tt) (without_session tabId s) out) ∧
  (has_session tabId s = true ->
   ∃ out, onRemoved tabId s = Done (Ok tt) (without_session tabId s) out) ∧
  (∀ s1, activeSessions (without_session tabId s1) !! tabId = None ∧
         cdpEventListeners (without_session tabId s1) !! tabId = None ∧
         ∀ eventName, subscribers tabId eventName (without_session tabId s1) = ∅).
Proof.
  intros Hreach s. split; [|split; [|split; [|split]]].
  - intros ev Hhad Hgone.
    destruct (step_cleans_up ev c (reachable_cleans_up c Hreach)) as [Hclean _].
    pose proof (Hclean tabId Hhad Hgone) as Hnone.
    split; [exact Hnone|]. intros e. unfold subscribers. rewrite Hnone. reflexivity.
  - intros Hatt. destruct (detachDebugger_eq tabId s Hatt) as (k & Hk & Hok & _).
    exists k. split; [exact Hk|]. intros s1. destruct (Hok s1) as (out & Hout & _).
    exists out. exact Hout.
  - intros Hhas reason. destruct (onDetach_eq tabId reason s) as (out & Hout).
    rewrite Hhas in Hout. exists out. exact Hout.
  - intros Hhas. destruct (onRemoved_eq tabId s) as (out & Hout).
    rewrite Hhas in Hout. exists out. exact Hout.
  - intros s1. apply without_session_gone.
Qed.

Lemma C9_session_destroyed_drops_subscriptions_witness :
  reachable subscribed_config ∧
  is_Some (activeSessions (globals subscribed_config) !! PNum 1) ∧
  is_Some (cdpEventListeners (globals subscribed_config) !! PNum 1) ∧
  activeSessions (globals (step (EvTabRemoved (PNum 1)) subscribed_config).1) !! PNum 1 = None ∧
  cdpEventListeners (globals (step (EvTabRemoved (PNum 1)) subscribed_config).1) !! PNum 1
  = None.
Proof.
  split; [exact reachable_subscribed_config|].
  assert (Hhad : is_Some (activeSessions (globals subscribed_config) !! PNum 1))
    by (apply (bool_decide_unpack _); vm_compute; exact I).
  assert (Hgone : activeSessions (globals (step (EvTabRemoved (PNum 1)) subscribed_config).1)
                    !! PNum 1 = None) by (vm_compute; reflexivity).
  split; [exact Hhad|].
  split; [apply (bool_decide_unpack _); vm_compute; exact I|]. split; [exact Hgone|].
  exact (proj1 (proj1 (C9_session_destroyed_drops_subscriptions subscribed_config (PNum 1)
                         reachable_subscribed_config)
                      (EvTabRemoved (PNum 1)) Hhad Hgone)).
Defined.

(** C10. When [serverWs] is [null] or its [readyState] is not [OPEN],
    [sendToServer] drops the message: the only effect is the
    [console.error] line, nothing reaches the wire, and the globals (which
    hold no send queue) are returned unchanged, so that every later run of
    events behaves as if the message had never been produced.  This covers
    every kind of outbound message: in a reachable configuration whose
    socket is not open, no handler, and no resumed request, puts anything
    on the wire. *)
Theorem C10_send_while_disconnected_discards (message : Outbound) (s : State) :
  serverWs s ≠ Some OPEN ->
  sendToServer message s = Done (Ok tt) s [not_connected_line] ∧
  wire (step_out (sendToServer message s)) = [] ∧
  (∀ (evs : list Event) (tasks : list Task),
     run evs (mkConfig (step_state (sendToServer message s)) tasks)
     = run evs (mkConfig s tasks)) ∧
  (∀ (c : Config) (ev : Event),
     reachable c -> globals c = s -> wire (step ev c).2 = []).
Proof.
  intros Hclosed. rewrite sendToServer_eq.
  destruct (decide (serverWs s = Some OPEN)); [contradiction|].
  split; [reflexivity|]. split; [reflexivity|]. split; [reflexivity|].
  intros c ev Hreach <-. apply step_closed_sends_nothing; assumption.
Qed.

Lemma C10_send_while_disconnected_discards_witness :
  serverWs initial ≠ Some OPEN ∧
  sendToServer (Ping 0) initial = Done (Ok tt) initial [not_connected_line].
Proof.
  assert (H : serverWs initial ≠ Some OPEN) by (simpl; discriminate).
  split; [exact H|].
  exact (proj1 (C10_send_while_disconnected_discards (Ping 0) initial H)).
Defined.

(** * Further properties of the script *)

(** ** Connecting *)

Lemma connectToServer_busy (s : State) :
  serverWs s = Some OPEN ∨ serverWs s = Some CONNECTING ->
  connectToServer s = Done (Ok tt) s [].
Proof.
  intros H. unfold connectToServer. unfold_M. simpl.
  destruct (decide (serverWs s = Some OPEN ∨ serverWs s = Some CONNECTING));
    [reflexivity | contradiction].
Qed.

Lemma connectToServer_idle (s : State) :
  ¬ (serverWs s = Some OPEN ∨ serverWs s = Some CONNECTING) ->
  connectToServer s
  = Done (Ok tt) (set_serverWs (Some CONNECTING) s)
         [Console Log [text "[Stagehand] Connecting to server at"; text SERVER_URL];
          WsNew SERVER_URL].
Proof.
  intros H. unfold connectToServer. unfold_M. simpl.
  destruct (decide (serverWs s = Some OPEN ∨ serverWs s = Some CONNECTING));
    [contradiction | reflexivity].
Qed.

(** X1. [connectToServer] creates no socket while the current one is open
    or connecting, and the globals stay as they are; otherwise it creates
    exactly one socket for the server URL and holds it as connecting.
    Called twice in a row it creates what one call creates: the second call
    finds the socket of the first. *)
Theorem X1_connect_creates_at_most_one_socket (s : State) :
  (serverWs s = Some OPEN ∨ serverWs s = Some CONNECTING ->
   connectToServer s = Done (Ok tt) s []) ∧
  (¬ (serverWs s = Some OPEN ∨ serverWs s = Some CONNECTING) ->
   ∃ out, connectToServer s = Done (Ok tt) (set_serverWs (Some CONNECTING) s) out ∧
          sockets out = [SERVER_URL] ∧ wire out = []) ∧
  (∃ out, (connectToServer;; connectToServer) s
          = Done (Ok tt) (step_state (connectToServer s)) out ∧
          sockets out = sockets (step_out (connectToServer s)) ∧
          length (sockets out) ≤ 1)%nat.
Proof.
  split; [apply connectToServer_busy|]. split.
  - intros H. rewrite (connectToServer_idle s H). eexists. repeat split.
  - unfold mbind, M_bind.
    destruct (decide (serverWs s = Some OPEN ∨ serverWs s = Some CONNECTING)) as [Hb|Hi].
    + rewrite (connectToServer_busy s Hb). cbn [bind_step].
      rewrite (connectToServer_busy s Hb).
      eexists. repeat split; simpl; lia.
    + rewrite (connectToServer_idle s Hi). cbn [bind_step].
      rewrite connectToServer_busy by (right; reflexivity).
      eexists. repeat split; simpl; lia.
Qed.

Lemma X1_connect_creates_at_most_one_socket_witness :
  ¬ (serverWs initial = Some OPEN ∨ serverWs initial = Some CONNECTING) ∧
  ∃ out, connectToServer initial
         = Done (Ok tt) (set_serverWs (Some CONNECTING) initial) out ∧
         sockets out = [SERVER_URL] ∧ wire out = [].
Proof.
  assert (H : ¬ (serverWs initial = Some OPEN ∨ serverWs initial = Some CONNECTING)).
  { simpl. intros [H|H]; discriminate H. }
  split; [exact H|].
  exact (proj1 (proj2 (X1_connect_creates_at_most_one_socket initial)) H).
Defined.

(** ** The attempt counter *)

Lemma onopen_state (now : Z) (s : State) :
  step_state (onopen now s) = set_reconnectAttempts 0 s.
Proof. unfold onopen. unfold_M. simpl. rewrite sendToServer_eq. reflexivity. Qed.

Lemma reconnect_delay_range (attempt : Z) :
  1 ≤ attempt -> 2000 ≤ reconnect_delay attempt ≤ 10000.
Proof.
  intros H. unfold reconnect_delay.
  assert (2 ^ 1 ≤ 2 ^ attempt) by (apply Z.pow_le_mono_r; lia).
  change (2 ^ 1) with 2 in *. lia.
Qed.

(** X2. A successful open gives the script its attempts back: [onopen]
    resets the counter to zero, so that from any configuration without a
    pending timer (one whose five attempts are used up included) a new run
    of failures starts again at 2000 ms and follows the same sequence. *)
Theorem X2_open_restarts_backoff (c : Config) (now : Z) (k : nat) :
  timers (globals c) = [] ->
  let c1 := (step (EvOpen now) c).1 in
  reconnectAttempts (globals c1) = 0 ∧
  timers (globals c1) = [] ∧
  (failed_attempts k c1).1 = map reconnect_delay (attempt_numbers (Nat.min k 5)).
Proof.
  intros Ht c1.
  assert (Ha1 : reconnectAttempts (globals c1) = 0).
  { subst c1. cbn [step]. unfold react. cbn [fst globals]. rewrite onopen_state. reflexivity. }
  assert (Ht1 : timers (globals c1) = []).
  { subst c1. cbn [step]. unfold react. cbn [fst globals]. rewrite onopen_state. exact Ht. }
  split; [exact Ha1|]. split; [exact Ht1|].
  destruct (failed_attempts_delays k c1 0 Ht1 Ha1) as (Hd & _);
    [unfold MAX_RECONNECT_ATTEMPTS; lia|].
  rewrite Hd. change (Z.to_nat (MAX_RECONNECT_ATTEMPTS - 0)) with 5%nat.
  apply map_ext. intros i. f_equal.
Qed.

Lemma X2_open_restarts_backoff_witness :
  timers (globals (failed_attempts 7 loaded).2) = [] ∧
  reconnectAttempts (globals (failed_attempts 7 loaded).2) = 5 ∧
  (failed_attempts 3 (step (EvOpen 0) (failed_attempts 7 loaded).2).1).1
  = [2000; 4000; 8000].
Proof.
  assert (Ht : timers (globals (failed_attempts 7 loaded).2) = []) by (vm_compute; reflexivity).
  split; [exact Ht|]. split; [vm_compute; reflexivity|].
  exact (proj2 (proj2 (X2_open_restarts_backoff (failed_attempts 7 loaded).2 0 3 Ht))).
Defined.

Lemma backoff_bounded_same (s0 s : State) :
  reconnectAttempts s = reconnectAttempts s0 -> timers s = timers s0 ->
  backoff_bounded s0 -> backoff_bounded s.
Proof. unfold backoff_bounded. intros -> ->. auto. Qed.

Lemma steady_backoff_bounded s0 s out :
  steady s0 s out -> backoff_bounded s0 -> backoff_bounded s.
Proof. intros (_ & Ha & Ht). apply backoff_bounded_same; assumption. Qed.

Lemma onclose_backoff_bounded (s : State) :
  backoff_bounded s -> backoff_bounded (step_state (onclose s)).
Proof.
  intros [Ha Ht]. rewrite onclose_state.
  destruct (decide (reconnectAttempts s < MAX_RECONNECT_ATTEMPTS)) as [Hlt|Hge].
  - split; simpl; [lia|]. apply Forall_app. split; [exact Ht|].
    constructor; [|constructor]. apply reconnect_delay_range. lia.
  - split; simpl; assumption.
Qed.

(** X3. In every reachable configuration the attempt counter is between 0
    and [MAX_RECONNECT_ATTEMPTS], and every pending reconnection timer has a
    delay between 2000 and 10000 ms. *)
Theorem X3_backoff_state_is_bounded (c : Config) :
  reachable c ->
  0 ≤ reconnectAttempts (globals c) ≤ MAX_RECONNECT_ATTEMPTS ∧
  Forall (fun delay => 2000 ≤ delay ≤ 10000) (timers (globals c)).
Proof.
  change (reachable c -> backoff_bounded (globals c)).
  induction 1 as [|c ev Hreach IH].
  - split; simpl; [unfold MAX_RECONNECT_ATTEMPTS; lia | constructor].
  - pose proof (reachable_pool_ok steady c onmessage_steady Hreach) as Hp.
    destruct ev; cbn [step].
    + eapply steady_backoff_bounded; [apply (react_steady _ c onStartup_steady) | exact IH].
    + destruct (timers (globals c) !! i); [|exact IH].
      unfold react. cbn [fst globals]. unfold mbind, M_bind, modify. simpl.
      rewrite step_state_prepend.
      eapply steady_backoff_bounded;
        [exact (segs_first _ _ _ (connectToServer_steady _))|].
      destruct IH as [Ha Ht]. split; [exact Ha|]. simpl. apply Forall_delete, Ht.
    + destruct (serverWs (globals c)); exact IH.
    + unfold react. cbn [fst globals]. rewrite onopen_state.
      destruct IH as [Ha Ht]. split; simpl; [unfold MAX_RECONNECT_ATTEMPTS; lia | exact Ht].
    + pose proof (segs_first _ _ _ (onmessage_steady data (globals c))) as Hx.
      destruct data; cbn [fst globals]; eapply steady_backoff_bounded; eassumption.
    + eapply steady_backoff_bounded; [apply (react_steady _ c (onerror_steady _)) | exact IH].
    + unfold react. cbn [fst globals]. apply onclose_backoff_bounded, IH.
    + destruct (pool c !! i) as [t|] eqn:Ht; [|exact IH].
      cbn [fst globals]. eapply steady_backoff_bounded; [|exact IH].
      exact (segs_first _ _ _ (Hp t (list_elem_of_lookup_2 _ _ _ Ht) _ _)).
    + eapply steady_backoff_bounded;
        [apply (react_steady _ c (onEvent_steady _ _ _ _)) | exact IH].
    + eapply steady_backoff_bounded;
        [apply (react_steady _ c (onDetach_steady _ _)) | exact IH].
    + eapply steady_backoff_bounded;
        [apply (react_steady _ c (onRemoved_steady _)) | exact IH].
    + eapply steady_backoff_bounded;
        [apply (react_steady _ c (keepAlive_steady _)) | exact IH].
Qed.

Lemma X3_backoff_state_is_bounded_witness :
  reachable (failed_attempts 7 loaded).2 ∧
  0 ≤ reconnectAttempts (globals (failed_attempts 7 loaded).2) ≤ MAX_RECONNECT_ATTEMPTS.
Proof.
  assert (H : reachable (failed_attempts 7 loaded).2)
    by (apply reachable_failed_attempts, reachable_loaded).
  split; [exact H|].
  exact (proj1 (X3_backoff_state_is_bounded _ H)).
Defined.

(** ** Relations that hold of every handler *)

Lemma step_related R `{!Chains R} (c : Config) (ev : Event) :
  (∀ data, obeys R (onmessage data)) -> handler_obeys R ev -> reachable c ->
  R (globals c) (globals (step ev c).1) (step ev c).2.
Proof.
  intros Hmsg Hev Hreach.
  pose proof (reachable_pool_ok R c Hmsg Hreach) as Hp.
  destruct ev; cbn [step handler_obeys] in *;
    try exact (segs_first _ _ _ (Hev (globals c))).
  - destruct (timers (globals c) !! i); [|apply chains_refl].
    exact (segs_first _ _ _ (Hev (globals c))).
  - destruct (serverWs (globals c)); [apply Hev | apply chains_refl].
  - pose proof (segs_first _ _ _ (Hev (globals c))) as Hx.
    destruct data; exact Hx.
  - destruct (pool c !! i) as [t|] eqn:Ht; [|apply chains_refl].
    exact (segs_first _ _ _ (Hp t (list_elem_of_lookup_2 _ _ _ Ht) _ _)).
Qed.

Lemma run_related R `{!Chains R} (evs : list Event) (c : Config) :
  (∀ data, obeys R (onmessage data)) -> Forall (handler_obeys R) evs -> reachable c ->
  R (globals c) (globals (run evs c).1) (run evs c).2.
Proof.
  intros Hmsg Hevs. revert c.
  induction Hevs as [|ev evs Hev _ IH]; intros c Hreach; [apply chains_refl|].
  simpl. pose proof (step_related R c ev Hmsg Hev Hreach) as H1.
  pose proof (IH _ (reachable_step c ev Hreach)) as H2.
  destruct (step ev c) as [c1 out1]. simpl in *.
  destruct (run evs c1) as [c2 out2]. simpl in *.
  eapply chains_trans; eassumption.
Qed.

(** ** Requests that leave the globals alone *)

#[global] Instance untouched_chains : Chains untouched.
Proof. split; unfold untouched; [reflexivity | congruence]. Qed.

Ltac untouched_easy := try solve [unfold untouched; reflexivity].

Lemma sendToServer_untouched message : obeys untouched (sendToServer message).
Proof. intros s. rewrite sendToServer_eq. reflexivity. Qed.

Lemma getActiveTab_untouched : obeys untouched getActiveTab.
Proof. unfold getActiveTab. walk; untouched_easy. Qed.

Lemma evaluateScript_untouched tabId script args :
  obeys untouched (evaluateScript tabId script args).
Proof. unfold evaluateScript. walk; untouched_easy. Qed.

Lemma navigateTo_untouched tabId url options :
  obeys untouched (navigateTo tabId url options).
Proof. unfold navigateTo, waitForNavigation. walk; untouched_easy. Qed.

Lemma createTab_untouched url : obeys untouched (createTab url).
Proof. unfold createTab. walk; untouched_easy. Qed.

Lemma getTabInfo_untouched tabId : obeys untouched (getTabInfo tabId).
Proof. unfold getTabInfo. walk; untouched_easy. Qed.

Lemma getAllTabs_untouched : obeys untouched getAllTabs.
Proof. unfold getAllTabs. walk; untouched_easy. Qed.

Lemma setCookies_loop_untouched cookies results :
  obeys untouched (setCookies_loop cookies results).
Proof.
  revert results. induction cookies as [|cookie rest IH]; intros results; simpl.
  - walk.
  - walk; untouched_easy. apply IH.
Qed.

Lemma setCookies_untouched cookies : obeys untouched (setCookies cookies).
Proof. unfold setCookies. walk; untouched_easy; apply setCookies_loop_untouched. Qed.

Lemma getCookies_untouched url : obeys untouched (getCookies url).
Proof. unfold getCookies. walk; untouched_easy. Qed.

Lemma injectScript_untouched tabId script : obeys untouched (injectScript tabId script).
Proof. unfold injectScript. walk; untouched_easy. Qed.

Create HintDb untouched_db.
#[global] Hint Resolve getActiveTab_untouched evaluateScript_untouched navigateTo_untouched
  createTab_untouched getTabInfo_untouched getAllTabs_untouched setCookies_untouched
  getCookies_untouched injectScript_untouched sendToServer_untouched : untouched_db.

Ltac decide_types :=
  repeat match goal with
    | |- context [is_type ?l (PStr ?t)] =>
        let b := eval vm_compute in (is_type l (PStr t)) in
        change (is_type l (PStr t)) with b
    end; cbv iota.

Lemma dispatch_untouched (message : Message) (label : string) :
  label ∈ stateless_types -> msg_type message = PStr label ->
  obeys untouched (dispatch message).
Proof.
  intros Hin Htype. unfold dispatch. cbv zeta. rewrite Htype. clear Htype.
  unfold stateless_types in Hin.
  repeat (apply elem_of_cons in Hin as [->|Hin];
          [decide_types; auto with untouched_db|]).
  inversion Hin.
Qed.

Lemma complete_untouched {A} (chrome : Oracle) (s : State) (x : Step A) :
  segs untouched s x -> (complete chrome x).1.2 = s.
Proof.
  revert s. induction x as [r s' out|T c s' out k IH]; intros s; simpl.
  - intros H. exact H.
  - intros [H0 Hk]. unfold untouched in H0. subst s'.
    specialize (IH (chrome _ c) s s (Hk _ _)).
    destruct (complete chrome (k (chrome T c) s)) as [[r s2] out2]. exact IH.
Qed.

(** X4. The requests [GET_ACTIVE_TAB], [EVALUATE], [NAVIGATE], [CREATE_TAB],
    [GET_TAB_INFO], [GET_ALL_TABS], [SET_COOKIES], [GET_COOKIES] and
    [INJECT_SCRIPT] keep no state in the extension: whatever the browser
    answers and whatever runs while the request is suspended, every
    synchronous part of [handleServerMessage] ends with the globals it
    started with, and run to its end against any browser the request leaves
    the globals as they were. *)
Theorem X4_stateless_requests_leave_globals_alone
    (message : Message) (label : string) (chrome : Oracle) (s : State) :
  label ∈ stateless_types -> msg_type message = PStr label ->
  segs untouched s (handleServerMessage message s) ∧
  (complete chrome (handleServerMessage message s)).1.2 = s.
Proof.
  intros Hin Htype.
  assert (Hobeys : obeys untouched (handleServerMessage message)).
  { unfold handleServerMessage. cbv zeta. walk; untouched_easy;
      first [apply sendToServer_untouched | eapply dispatch_untouched; eassumption]. }
  split; [apply Hobeys | apply complete_untouched, Hobeys].
Qed.

Lemma X4_stateless_requests_leave_globals_alone_witness :
  "SET_COOKIES" ∈ stateless_types ∧
  (complete agreeable (handleServerMessage (request "SET_COOKIES" 7 1) attached_to_1)).1.2
  = attached_to_1.
Proof.
  assert (Hin : "SET_COOKIES" ∈ stateless_types)
    by (unfold stateless_types; repeat constructor).
  split; [exact Hin|].
  exact (proj2 (X4_stateless_requests_leave_globals_alone
                  (request "SET_COOKIES" 7 1) "SET_COOKIES" agreeable attached_to_1
                  Hin eq_refl)).
Defined.

(** ** Requests and browser events leave the connection alone *)

#[global] Instance same_connection_chains : Chains same_connection.
Proof.
  split; unfold same_connection.
  - intros s. repeat split.
  - intros s0 s1 s2 o1 o2 (Hw1 & Ha1 & Ht1) (Hw2 & Ha2 & Ht2). repeat split; congruence.
Qed.

Ltac same_connection_easy := try solve [unfold same_connection; simpl; repeat split].

Lemma quiet_same_connection s0 s1 o : quiet s0 s1 o -> same_connection s0 s1 o.
Proof. intros (_ & H). exact H. Qed.

Lemma sendToServer_same_connection message : obeys same_connection (sendToServer message).
Proof. intros s. rewrite sendToServer_eq. simpl. repeat split. Qed.

Lemma onmessage_same_connection data : obeys same_connection (onmessage data).
Proof.
  unfold onmessage, handleServerMessage. cbv zeta. walk; same_connection_easy;
    try apply sendToServer_same_connection.
  intros s. eapply segs_weaken; [apply quiet_same_connection | apply dispatch_quiet].
Qed.

Lemma run_listeners_same_connection ls i source method params clock :
  obeys same_connection (run_listeners ls i source method params clock).
Proof.
  revert i. induction ls as [|t ls IH]; intros i; simpl.
  - walk.
  - unfold forwarding_listener. walk; same_connection_easy;
      first [apply sendToServer_same_connection | apply IH].
Qed.

Lemma handler_same_connection (ev : Event) :
  is_connection_event ev = false -> handler_obeys same_connection ev.
Proof.
  destruct ev; simpl; intros Hev; try discriminate Hev.
  - apply onmessage_same_connection.
  - unfold onerror. walk; same_connection_easy.
  - exact I.
  - unfold onEvent. walk. apply run_listeners_same_connection.
  - unfold onDetach. walk; same_connection_easy. apply sendToServer_same_connection.
  - unfold onRemoved. walk; same_connection_easy. apply sendToServer_same_connection.
  - unfold keepAlive. walk; same_connection_easy. apply sendToServer_same_connection.
Qed.

(** X5. Only the handlers of the connection (startup, a reconnection timer,
    the socket opening or closing) change the socket, the attempt counter or
    the pending timers.  In every reachable configuration, a message from
    the server, a request resumed when its promise settles, a socket error,
    a debugger event, a detached debugger, a closed tab and the keep-alive
    tick leave all three as they are. *)
Theorem X5_requests_leave_connection_alone (c : Config) (ev : Event) :
  reachable c -> is_connection_event ev = false ->
  serverWs (globals (step ev c).1) = serverWs (globals c) ∧
  reconnectAttempts (globals (step ev c).1) = reconnectAttempts (globals c) ∧
  timers (globals (step ev c).1) = timers (globals c).
Proof.
  intros Hreach Hev.
  exact (step_related same_connection c ev onmessage_same_connection
           (handler_same_connection ev Hev) Hreach).
Qed.

Lemma X5_requests_leave_connection_alone_witness :
  reachable subscribed_config ∧
  serverWs (globals (step (EvSettle 0 (hostile (new_Error "chrome" "gone")))
                          (step (EvMessage (ParsedMsg (request "CLOSE_TAB" 3 1)))
                                subscribed_config).1).1)
  = Some OPEN.
Proof.
  split; [exact reachable_subscribed_config|].
  refine (eq_trans (proj1 (X5_requests_leave_connection_alone _
            (EvSettle 0 (hostile (new_Error "chrome" "gone")))
            (reachable_step _ _ reachable_subscribed_config) eq_refl)) _).
  vm_compute. reflexivity.
Defined.

(** ** Sessions are attached, listeners are never removed *)

#[global] Instance orderly_chains : Chains orderly.
Proof.
  split; unfold orderly.
  - intros s. split; [reflexivity | auto].
  - intros s0 s1 s2 o1 o2 [Hp1 Hs1] [Hp2 Hs2]. split; [etrans; eassumption | auto].
Qed.

Ltac orderly_easy :=
  try solve [
    unfold orderly, sessions_attached; simpl; split;
    [ first [reflexivity | apply prefix_app_r; reflexivity]
    | intros H t ses Hl;
      first [ exact (H t ses Hl)
            | apply lookup_insert_Some in Hl as [[_ <-]|[_ Hl]];
              [reflexivity | exact (H _ _ Hl)]
            | apply lookup_alter_Some in Hl as [(_ & ses' & Hl' & ->)|[_ Hl]];
              [simpl; exact (H _ _ Hl') | exact (H _ _ Hl)]
            | apply lookup_delete_Some in Hl as [_ Hl]; exact (H _ _ Hl) ] ] ].

Lemma untouched_orderly s0 s1 o : untouched s0 s1 o -> orderly s0 s1 o.
Proof. unfold untouched. intros ->. split; [reflexivity | auto]. Qed.

Lemma obeys_untouched_orderly {A} (m : M A) : obeys untouched m -> obeys orderly m.
Proof. intros H s. eapply segs_weaken; [apply untouched_orderly | apply H]. Qed.

Lemma attachDebugger_orderly tabId : obeys orderly (attachDebugger tabId).
Proof. unfold attachDebugger, setupCDPEventForwarding. walk; orderly_easy. Qed.

Lemma detachDebugger_orderly tabId : obeys orderly (detachDebugger tabId).
Proof. unfold detachDebugger. walk; orderly_easy. Qed.

Lemma sendCDPCommand_orderly tabId method params :
  obeys orderly (sendCDPCommand tabId method params).
Proof. unfold sendCDPCommand. walk; orderly_easy. apply attachDebugger_orderly. Qed.

Lemma closeTab_orderly tabId : obeys orderly (closeTab tabId).
Proof. unfold closeTab. walk; orderly_easy. apply detachDebugger_orderly. Qed.

Lemma registerCDPListener_orderly tabId eventName listenerId :
  obeys orderly (registerCDPListener tabId eventName listenerId).
Proof. unfold registerCDPListener. walk; orderly_easy. Qed.

Lemma unregisterCDPListener_orderly tabId eventName listenerId :
  obeys orderly (unregisterCDPListener tabId eventName listenerId).
Proof. unfold unregisterCDPListener. walk; orderly_easy. Qed.

Create HintDb orderly_db.
#[global] Hint Resolve attachDebugger_orderly detachDebugger_orderly sendCDPCommand_orderly
  closeTab_orderly registerCDPListener_orderly unregisterCDPListener_orderly : orderly_db.

Lemma dispatch_orderly message : obeys orderly (dispatch message).
Proof.
  unfold dispatch. walk; orderly_easy;
    first [solve [auto with orderly_db]
          | apply obeys_untouched_orderly; solve [auto with untouched_db]].
Qed.

Lemma sendToServer_orderly message : obeys orderly (sendToServer message).
Proof. apply obeys_untouched_orderly, sendToServer_untouched. Qed.

Lemma connectToServer_orderly : obeys orderly connectToServer.
Proof. unfold connectToServer. walk; orderly_easy. Qed.

Lemma onmessage_orderly data : obeys orderly (onmessage data).
Proof.
  unfold onmessage, handleServerMessage. cbv zeta. walk; orderly_easy;
    first [apply sendToServer_orderly | apply dispatch_orderly].
Qed.

Lemma run_listeners_orderly ls i source method params clock :
  obeys orderly (run_listeners ls i source method params clock).
Proof.
  revert i. induction ls as [|t ls IH]; intros i; simpl.
  - walk.
  - unfold forwarding_listener. walk; orderly_easy;
      first [apply sendToServer_orderly | apply IH].
Qed.

Lemma handler_orderly (ev : Event) : handler_obeys orderly ev.
Proof.
  destruct ev; simpl.
  - unfold onStartup. walk; orderly_easy. apply connectToServer_orderly.
  - walk; orderly_easy. apply connectToServer_orderly.
  - intros s. orderly_easy.
  - unfold onopen. walk; orderly_easy. apply sendToServer_orderly.
  - apply onmessage_orderly.
  - unfold onerror. walk; orderly_easy.
  - unfold onclose. walk; orderly_easy.
  - exact I.
  - unfold onEvent. walk. apply run_listeners_orderly.
  - unfold onDetach. walk; orderly_easy. apply sendToServer_orderly.
  - unfold onRemoved. walk; orderly_easy. apply sendToServer_orderly.
  - unfold keepAlive. walk; orderly_easy. apply sendToServer_orderly.
Qed.

Lemma reachable_sessions_attached (c : Config) :
  reachable c -> sessions_attached (globals c).
Proof.
  induction 1 as [|c ev Hreach IH].
  - intros t ses Hl. vm_compute in Hl. discriminate Hl.
  - exact (proj2 (step_related orderly c ev onmessage_orderly (handler_orderly ev) Hreach) IH).
Qed.

(** X6. Every session that the script holds is an attached one: in every
    reachable configuration [activeSessions.has(tabId)] (the test of
    [closeTab] and of the two browser listeners) and
    [activeSessions.get(tabId).attached] (the test of [attachDebugger],
    [detachDebugger] and [sendCDPCommand]) agree on every tab. *)
Theorem X6_sessions_are_attached (c : Config) (tabId : Prim) :
  reachable c ->
  (∀ session, activeSessions (globals c) !! tabId = Some session ->
              attached session = true) ∧
  has_session tabId (globals c) = is_attached tabId (globals c).
Proof.
  intros Hreach. pose proof (reachable_sessions_attached c Hreach) as Hs.
  split; [intros session; apply Hs|].
  unfold has_session, is_attached.
  destruct (activeSessions (globals c) !! tabId) as [session|] eqn:Hl.
  - rewrite (Hs _ _ Hl). apply bool_decide_eq_true_2. eexists. reflexivity.
  - apply bool_decide_eq_false_2. intros [x Hx]. discriminate Hx.
Qed.

Lemma X6_sessions_are_attached_witness :
  reachable subscribed_config ∧
  has_session (PNum 1) (globals subscribed_config) = true ∧
  is_attached (PNum 1) (globals subscribed_config) = true.
Proof.
  split; [exact reachable_subscribed_config|].
  assert (H : has_session (PNum 1) (globals subscribed_config) = true)
    by (vm_compute; reflexivity).
  split; [exact H|].
  rewrite <- (proj2 (X6_sessions_are_attached subscribed_config (PNum 1)
                       reachable_subscribed_config)).
  exact H.
Defined.

Lemma stamps_app (ls ls' : list Prim) (i : nat) (source : Prim) (clock : nat -> Z) :
  stamps (ls ++ ls') i source clock
  = stamps ls i source clock ++ stamps ls' (i + length ls) source clock.
Proof.
  revert i. induction ls as [|t ls IH]; intros i; simpl.
  - rewrite Nat.add_0_r. reflexivity.
  - replace (i + S (length ls))%nat with (S i + length ls)%nat by lia.
    rewrite IH, <- app_assoc. reflexivity.
Qed.

(** X7. A forwarding listener, once added to [chrome.debugger.onEvent], is
    never removed: along every run of events from a reachable configuration
    the listeners of the start are the first listeners of the end, in the
    same order.  So the readings of the clock taken for an event of a tab
    (one per copy of the event that is forwarded) begin with those that
    would have been taken before the run. *)
Theorem X7_forwarding_listeners_are_never_removed
    (c : Config) (evs : list Event) (source : Prim) (clock : nat -> Z) :
  reachable c ->
  onEventListeners (globals c) `prefix_of` onEventListeners (globals (run evs c).1) ∧
  stamps (onEventListeners (globals c)) 0 source clock
    `prefix_of` stamps (onEventListeners (globals (run evs c).1)) 0 source clock.
Proof.
  intros Hreach.
  assert (Hp : onEventListeners (globals c)
               `prefix_of` onEventListeners (globals (run evs c).1)).
  { refine (proj1 (run_related orderly evs c onmessage_orderly _ Hreach)).
    apply Forall_forall. intros ev _. apply handler_orderly. }
  split; [exact Hp|].
  destruct Hp as [more ->]. rewrite stamps_app. apply prefix_app_r. reflexivity.
Qed.

Lemma X7_forwarding_listeners_are_never_removed_witness :
  reachable subscribed_config ∧
  [PNum 1] `prefix_of`
    onEventListeners
      (globals (run [EvMessage (ParsedMsg (request "DETACH_DEBUGGER" 3 1));
                     EvSettle 0 agreeable] subscribed_config).1).
Proof.
  split; [exact reachable_subscribed_config|].
  exact (proj1 (X7_forwarding_listeners_are_never_removed subscribed_config
                  [EvMessage (ParsedMsg (request "DETACH_DEBUGGER" 3 1));
                   EvSettle 0 agreeable] (PNum 1) (fun _ => 0)
                  reachable_subscribed_config)).
Defined.

(** ** Running a request to its end *)

Lemma complete_prepend {A} (chrome : Oracle) (pre : list Effect) (x : Step A) :
  complete chrome (prepend pre x)
  = ((complete chrome x).1, pre ++ (complete chrome x).2).
Proof.
  destruct x as [r s out|T c s out k]; simpl; [reflexivity|].
  destruct (complete chrome (k (chrome T c) s)) as [[r s'] out'].
  simpl. rewrite app_assoc. reflexivity.
Qed.

Lemma complete_bind_step {A B} (chrome : Oracle) (x : Step A) (f : A -> State -> Step B) :
  complete chrome (bind_step x f)
  = match (complete chrome x).1.1 with
    | Ok a =>
        ((complete chrome (f a (complete chrome x).1.2)).1,
         (complete chrome x).2 ++ (complete chrome (f a (complete chrome x).1.2)).2)
    | Throw e => (Throw e, (complete chrome x).1.2, (complete chrome x).2)
    end.
Proof.
  induction x as [r s out|T c s out k IH]; simpl.
  - destruct r as [a|e]; [apply complete_prepend | reflexivity].
  - rewrite IH. destruct (complete chrome (k (chrome T c) s)) as [[r s'] out'].
    simpl. destruct r as [a|e]; [|reflexivity].
    destruct (complete chrome (f a s')) as [[r2 s2] out2].
    simpl. rewrite app_assoc. reflexivity.
Qed.

Lemma complete_catch_step {A} (chrome : Oracle) (x : Step A) (h : Err -> State -> Step A) :
  complete chrome (catch_step x h)
  = match (complete chrome x).1.1 with
    | Ok a => (Ok a, (complete chrome x).1.2, (complete chrome x).2)
    | Throw e =>
        ((complete chrome (h e (complete chrome x).1.2)).1,
         (complete chrome x).2 ++ (complete chrome (h e (complete chrome x).1.2)).2)
    end.
Proof.
  induction x as [r s out|T c s out k IH]; simpl.
  - destruct r as [a|e]; [reflexivity | apply complete_prepend].
  - rewrite IH. destruct (complete chrome (k (chrome T c) s)) as [[r s'] out'].
    simpl. destruct r as [a|e]; [reflexivity|].
    destruct (complete chrome (h e s')) as [[r2 s2] out2].
    simpl. rewrite app_assoc. reflexivity.
Qed.

Lemma complete_quiet {A} (chrome : Oracle) (s : State) (x : Step A) :
  segs quiet s x ->
  wire (complete chrome x).2 = [] ∧ serverWs (complete chrome x).1.2 = serverWs s.
Proof.
  revert s. induction x as [r s' out|T c s' out k IH]; intros s; simpl.
  - intros (Hw & Hs & _). split; assumption.
  - intros [(Hw & Hs & _) Hk].
    destruct (IH (chrome _ c) s' s' (Hk _ _)) as [Hw' Hs'].
    destruct (complete chrome (k (chrome T c) s')) as [[r s2] out2]. simpl in *.
    rewrite wire_app, Hw, Hw'. split; [reflexivity | congruence].
Qed.

(** X8. What a request is answered with is the outcome of its handler.
    Run to its end against any browser, [handleServerMessage] leaves the
    globals as the handler left them, makes no browser call of its own, and
    hands one envelope to [sendToServer]: [success: true] with the handler's
    result if it returned, [success: false] with the message and the stack
    of the error if it threw.  The handler itself puts nothing on the
    wire. *)
Theorem X8_response_carries_handler_outcome
    (chrome : Oracle) (message : Message) (s : State) :
  msg_type message ≠ PStr "PONG" ->
  let handled := complete chrome (handleServerMessage message s) in
  let outcome := complete chrome (dispatch message s) in
  handled.1.1 = Ok tt ∧
  handled.1.2 = outcome.1.2 ∧
  wire outcome.2 = [] ∧
  wire handled.2 = delivered outcome.1.2 (response_for (msg_id message) outcome.1.1) ∧
  chrome_calls handled.2 = chrome_calls outcome.2.
Proof.
  intros Htype. cbv zeta.
  destruct (complete_quiet chrome s _ (dispatch_quiet message s)) as [Hw _].
  unfold handleServerMessage. cbv zeta.
  rewrite (bool_decide_eq_false_2 _ Htype : is_type "PONG" (msg_type message) = false).
  unfold try_catch, mbind, M_bind. rewrite complete_catch_step, complete_bind_step.
  destruct (complete chrome (dispatch message s)) as [[r s'] out]. simpl in *.
  destruct r as [result|error]; simpl.
  - rewrite sendToServer_eq. simpl. rewrite wire_app, chrome_calls_app, Hw.
    unfold delivered.
    destruct (decide (serverWs s' = Some OPEN)); simpl; rewrite ?app_nil_r; auto.
  - unfold console_error, emit. simpl. rewrite sendToServer_eq. simpl.
    rewrite wire_app, chrome_calls_app, Hw. unfold delivered.
    destruct (decide (serverWs s' = Some OPEN)); simpl; rewrite ?app_nil_r; auto.
Qed.

Lemma X8_response_carries_handler_outcome_witness :
  msg_type (request "GET_ACTIVE_TAB" 4 0) ≠ PStr "PONG" ∧
  wire (complete agreeable (handleServerMessage (request "GET_ACTIVE_TAB" 4 0) connected)).2
  = [ResponseErr (VNum 4) "No active tab found" (StackAt "Error: No active tab found" "getActiveTab")].
Proof.
  assert (H : msg_type (request "GET_ACTIVE_TAB" 4 0) ≠ PStr "PONG")
    by (intros H; discriminate H).
  split; [exact H|].
  refine (eq_trans (proj1 (proj2 (proj2 (proj2
            (X8_response_carries_handler_outcome agreeable
               (request "GET_ACTIVE_TAB" 4 0) connected H))))) _).
  vm_compute. reflexivity.
Defined.

(** ** Attaching, detaching and closing, run against a browser *)

(** X9. [attachDebugger] on a tab that is not attached makes one browser
    call, [chrome.debugger.attach] with protocol version 1.3.  If the
    browser rejects it, the error is thrown again and the globals are as
    before: no session is recorded and no listener installed.  If it
    resolves, the result is [{attached: true}], the tab is attached from
    then on with one more forwarding listener, and the subscriptions and
    the sessions of the other tabs are as before. *)
Theorem X9_attach_records_session_or_fails (chrome : Oracle) (tabId : Prim) (s : State) :
  is_attached tabId s = false ->
  let run := complete chrome (attachDebugger tabId s) in
  chrome_calls run.2 = [existT _ (debugger_attach tabId "1.3")] ∧
  wire run.2 = [] ∧
  match chrome _ (debugger_attach tabId "1.3") with
  | Throw error => run.1 = (Throw error, s)
  | Ok _ =>
      run.1 = (Ok (VObj [("attached", VBool true)]), with_session tabId s) ∧
      is_attached tabId run.1.2 = true ∧
      onEventListeners run.1.2 = onEventListeners s ++ [tabId] ∧
      cdpEventListeners run.1.2 = cdpEventListeners s ∧
      ∀ other, other ≠ tabId -> activeSessions run.1.2 !! other = activeSessions s !! other
  end.
Proof.
  intros H. cbv zeta. unfold attachDebugger, setupCDPEventForwarding.
  unfold_M. simpl. rewrite H. simpl.
  destruct (chrome unit (debugger_attach tabId "1.3")) as [[]|error]; simpl.
  - rewrite has_session_insert. simpl. repeat split; try reflexivity.
    + unfold with_session, set_onEventListeners, set_activeSessions. simpl.
      rewrite alter_insert_eq. reflexivity.
    + unfold is_attached. simpl. rewrite alter_insert_eq, lookup_insert_eq. reflexivity.
    + intros other Hne. simpl.
      rewrite lookup_alter_ne, lookup_insert_ne by congruence. reflexivity.
  - repeat split.
Qed.

Lemma X9_attach_records_session_or_fails_witness :
  is_attached (PNum 2) attached_to_1 = false ∧
  (complete agreeable (attachDebugger (PNum 2) attached_to_1)).1
  = (Ok (VObj [("attached", VBool true)]), with_session (PNum 2) attached_to_1).
Proof.
  assert (H : is_attached (PNum 2) attached_to_1 = false) by (vm_compute; reflexivity).
  split; [exact H|].
  exact (proj1 (proj2 (proj2 (X9_attach_records_session_or_fails agreeable (PNum 2)
                                attached_to_1 H)))).
Defined.

(** X10. [detachDebugger] on an attached tab makes one browser call,
    [chrome.debugger.detach].  If it resolves, the result is
    [{detached: true}] and the session and the subscriptions of the tab are
    dropped, the forwarding listeners staying as they are.  If the browser
    rejects it, the error is thrown again and nothing is dropped: the tab
    stays attached with the subscriptions it had. *)
Theorem X10_detach_drops_session_or_keeps_all (chrome : Oracle) (tabId : Prim) (s : State) :
  is_attached tabId s = true ->
  let run := complete chrome (detachDebugger tabId s) in
  chrome_calls run.2 = [existT _ (debugger_detach tabId)] ∧
  wire run.2 = [] ∧
  match chrome _ (debugger_detach tabId) with
  | Throw error => run.1 = (Throw error, s)
  | Ok _ =>
      run.1 = (Ok (VObj [("detached", VBool true)]), without_session tabId s) ∧
      is_attached tabId run.1.2 = false ∧
      (∀ eventName, subscribers tabId eventName run.1.2 = ∅) ∧
      onEventListeners run.1.2 = onEventListeners s
  end.
Proof.
  intros H. cbv zeta. unfold detachDebugger. unfold_M. simpl. rewrite H. simpl.
  destruct (chrome unit (debugger_detach tabId)) as [[]|error]; simpl.
  - repeat split; try reflexivity.
    + unfold is_attached. simpl. rewrite lookup_delete_eq. reflexivity.
    + intros e. unfold subscribers. simpl. rewrite lookup_delete_eq. reflexivity.
  - repeat split.
Qed.

Lemma X10_detach_drops_session_or_keeps_all_witness :
  is_attached (PNum 1) (globals subscribed_config) = true ∧
  (complete (hostile (new_Error "chrome" "Debugger is not attached"))
            (detachDebugger (PNum 1) (globals subscribed_config))).1.2
  = globals subscribed_config.
Proof.
  assert (H : is_attached (PNum 1) (globals subscribed_config) = true)
    by (vm_compute; reflexivity).
  split; [exact H|].
  exact (f_equal snd (proj2 (proj2 (X10_detach_drops_session_or_keeps_all
                        (hostile (new_Error "chrome" "Debugger is not attached"))
                        (PNum 1) (globals subscribed_config) H)))).
Defined.

(** X11. [closeTab] first removes the tab; a rejected removal is the error
    of the call and nothing else happens.  Without a session the result is
    [{closed: true}] after that one call.  With an attached session the
    debugger is detached next: if that resolves, the session and the
    subscriptions of the tab are dropped and the result is
    [{closed: true}]; if the browser rejects the detach, the call fails
    with that error although the tab has been removed, and the session
    and the subscriptions of the tab are kept. *)
Theorem X11_close_tab_outcomes (chrome : Oracle) (tabId : Prim) (s : State) :
  let run := complete chrome (closeTab tabId s) in
  match chrome _ (tabs_remove tabId) with
  | Throw error =>
      run.1 = (Throw error, s) ∧ chrome_calls run.2 = [existT _ (tabs_remove tabId)]
  | Ok _ =>
      (has_session tabId s = false ->
       run.1 = (Ok (VObj [("closed", VBool true)]), s) ∧
       chrome_calls run.2 = [existT _ (tabs_remove tabId)]) ∧
      (is_attached tabId s = true ->
       chrome_calls run.2
       = [existT _ (tabs_remove tabId); existT _ (debugger_detach tabId)] ∧
       match chrome _ (debugger_detach tabId) with
       | Ok _ => run.1 = (Ok (VObj [("closed", VBool true)]), without_session tabId s)
       | Throw error => run.1 = (Throw error, s)
       end)
  end ∧
  wire run.2 = [].
Proof.
  cbv zeta. unfold closeTab, detachDebugger. unfold_M. simpl.
  destruct (chrome unit (tabs_remove tabId)) as [[]|error]; simpl; [|repeat split].
  split; [split|].
  - intros Hno. rewrite Hno. simpl. split; reflexivity.
  - intros Hatt.
    assert (Hhas : has_session tabId s = true).
    { unfold has_session, is_attached in *. apply bool_decide_eq_true_2.
      destruct (activeSessions s !! tabId); [eexists; reflexivity | discriminate Hatt]. }
    rewrite Hhas, Hatt. simpl.
    destruct (chrome unit (debugger_detach tabId)) as [[]|error]; simpl; split; reflexivity.
  - destruct (has_session tabId s); simpl; [|reflexivity].
    destruct (is_attached tabId s); simpl; [|reflexivity].
    destruct (chrome unit (debugger_detach tabId)) as [[]|error]; reflexivity.
Qed.

Lemma X11_close_tab_outcomes_witness :
  is_attached (PNum 1) attached_to_1 = true ∧
  chrome_calls (complete agreeable (closeTab (PNum 1) attached_to_1)).2
  = [existT _ (tabs_remove (PNum 1)); existT _ (debugger_detach (PNum 1))] ∧
  (complete agreeable (closeTab (PNum 1) attached_to_1)).1
  = (Ok (VObj [("closed", VBool true)]), without_session (PNum 1) attached_to_1).
Proof.
  assert (H : is_attached (PNum 1) attached_to_1 = true) by (vm_compute; reflexivity).
  split; [exact H|].
  exact (proj2 (proj1 (X11_close_tab_outcomes agreeable (PNum 1) attached_to_1)) H).
Defined.

(** X12. [sendCDPCommand] on an attached tab does not attach again: its one
    browser call is [chrome.debugger.sendCommand] for the tab, with [{}] in
    place of missing parameters, and the value or the error of that call is
    the outcome.  The globals are left alone. *)
Theorem X12_command_on_attached_tab_only_sends
    (chrome : Oracle) (tabId method : Prim) (params : Val) (s : State) :
  is_attached tabId s = true ->
  let call := debugger_sendCommand tabId (VPrim method) (default_param (VObj []) params) in
  let run := complete chrome (sendCDPCommand tabId method params s) in
  run.1 = (chrome _ call, s) ∧
  chrome_calls run.2 = [existT _ call] ∧
  wire run.2 = [].
Proof.
  intros H. cbv zeta. unfold sendCDPCommand. unfold_M. simpl. rewrite H. simpl.
  destruct (chrome Val _) as [v|e]; simpl; repeat split.
Qed.

Lemma X12_command_on_attached_tab_only_sends_witness :
  is_attached (PNum 1) attached_to_1 = true ∧
  chrome_calls (complete agreeable
                  (sendCDPCommand (PNum 1) (PStr "Page.enable") VUndefined attached_to_1)).2
  = [existT _ (debugger_sendCommand (PNum 1) (VStr "Page.enable") (VObj []))].
Proof.
  assert (H : is_attached (PNum 1) attached_to_1 = true) by (vm_compute; reflexivity).
  split; [exact H|].
  exact (proj1 (proj2 (X12_command_on_attached_tab_only_sends agreeable (PNum 1)
                         (PStr "Page.enable") VUndefined attached_to_1 H))).
Defined.

(** ** Cookies *)

Lemma set_one_cookie_complete (chrome : Oracle) (cookie : Val) (s : State) :
  complete chrome
    (try_catch
       (await (cookies_set cookie);;
        mret (VObj [("success", VBool true); ("cookie", cookie)]))
       (fun error =>
          mret (VObj [("success", VBool false); ("cookie", cookie);
                      ("error", VStr (err_message error))])) s)
  = (Ok (cookie_result chrome cookie), s, [Called (cookies_set cookie)]).
Proof.
  unfold cookie_result. unfold_M. unfold await. simpl.
  destruct (chrome unit (cookies_set cookie)) as [[]|error]; reflexivity.
Qed.

Lemma setCookies_loop_complete (chrome : Oracle) (items results : list Val) (s : State) :
  (complete chrome (setCookies_loop items results s)).1
  = (Ok (VArr (results ++ map (cookie_result chrome) items)), s) ∧
  chrome_calls (complete chrome (setCookies_loop items results s)).2
  = map (fun cookie => existT _ (cookies_set cookie)) items ∧
  wire (complete chrome (setCookies_loop items results s)).2 = [].
Proof.
  revert results. induction items as [|cookie rest IH]; intros results.
  - simpl. rewrite app_nil_r. repeat split.
  - assert (Heq : complete chrome (setCookies_loop (cookie :: rest) results s)
                 = ((complete chrome
                       (setCookies_loop rest (results ++ [cookie_result chrome cookie]) s)).1,
                    [Called (cookies_set cookie)]
                    ++ (complete chrome
                          (setCookies_loop rest (results ++ [cookie_result chrome cookie]) s)).2)).
    { cbn [setCookies_loop]. unfold mbind at 1, M_bind at 1.
      rewrite complete_bind_step, set_one_cookie_complete. reflexivity. }
    rewrite Heq. cbn [fst snd].
    destruct (IH (results ++ [cookie_result chrome cookie])) as (Hr & Hc & Hw).
    rewrite Hr, chrome_calls_app, wire_app, Hc, Hw. cbn [map].
    rewrite <- app_assoc. repeat split.
Qed.

(** X13. [setCookies] on an array never fails as a whole.  It asks the
    browser to set every cookie, one call per cookie in the order of the
    array, a rejected cookie not stopping the rest, and returns one entry
    per cookie in the same order: [{success: true, cookie}] where the
    browser accepted, [{success: false, cookie, error}] with the message of
    the error where it refused.  The globals are left alone.  A value that
    cannot be iterated (undefined, null, a number, a boolean, a plain
    object) makes the call throw before the browser is asked anything. *)
Theorem X13_cookies_are_set_one_by_one (chrome : Oracle) (items : list Val) (s : State) :
  let run := complete chrome (setCookies (VArr items) s) in
  run.1 = (Ok (VArr (map (cookie_result chrome) items)), s) ∧
  chrome_calls run.2 = map (fun cookie => existT _ (cookies_set cookie)) items ∧
  wire run.2 = [] ∧
  ∀ cookies,
    (∀ elements, cookies ≠ VArr elements) -> (∀ characters, cookies ≠ VStr characters) ->
    ∃ error, setCookies cookies s = Done (Throw error) s [].
Proof.
  cbv zeta. cbn [setCookies].
  destruct (setCookies_loop_complete chrome items [] s) as (Hr & Hc & Hw).
  split; [exact Hr|]. split; [exact Hc|]. split; [exact Hw|].
  intros cookies Harr Hstr. destruct cookies as [[| |b|n|characters]|elements|fields];
    try (eexists; reflexivity).
  - exfalso. exact (Hstr characters eq_refl).
  - exfalso. exact (Harr elements eq_refl).
Qed.

Lemma X13_cookies_are_set_one_by_one_witness :
  (complete agreeable (setCookies (VArr [VStr "a"; VStr "b"]) connected)).1
  = (Ok (VArr [VObj [("success", VBool true); ("cookie", VStr "a")];
               VObj [("success", VBool true); ("cookie", VStr "b")]]), connected) ∧
  ∃ error, setCookies VNull connected = Done (Throw error) connected [].
Proof.
  split.
  - exact (proj1 (X13_cookies_are_set_one_by_one agreeable [VStr "a"; VStr "b"] connected)).
  - refine (proj2 (proj2 (proj2 (X13_cookies_are_set_one_by_one agreeable [] connected)))
              VNull _ _); intros ? H; discriminate H.
Defined.

(** ** Sessions lost to the browser *)

(** X14. When the browser detaches the debugger from a tab, or a tab is
    closed, and the script holds a session for the tab, the session and the
    subscriptions of the tab are dropped and the server is told: one
    [DEBUGGER_DETACHED] envelope with the tab and the reason, or one
    [TAB_CLOSED] envelope with the tab, handed to [sendToServer].  Without a
    session nothing changes and nothing is sent. *)
Theorem X14_session_loss_is_reported (tabId : Prim) (reason : Val) (s : State) :
  (has_session tabId s = true ->
   (∃ out, onDetach tabId reason s = Done (Ok tt) (without_session tabId s) out ∧
           wire out = delivered s (DebuggerDetached tabId reason)) ∧
   (∃ out, onRemoved tabId s = Done (Ok tt) (without_session tabId s) out ∧
           wire out = delivered s (TabClosed tabId))) ∧
  (has_session tabId s = false ->
   (∃ out, onDetach tabId reason s = Done (Ok tt) s out ∧ wire out = []) ∧
   onRemoved tabId s = Done (Ok tt) s []).
Proof.
  split; intros Hhas.
  - split.
    + unfold onDetach. unfold_M. simpl. rewrite Hhas. simpl.
      rewrite sendToServer_eq. simpl. eexists. split; [reflexivity|].
      unfold delivered. simpl.
      destruct (decide (serverWs s = Some OPEN)); reflexivity.
    + unfold onRemoved. unfold_M. simpl. rewrite Hhas. simpl.
      rewrite sendToServer_eq. simpl. eexists. split; [reflexivity|].
      unfold delivered. simpl.
      destruct (decide (serverWs s = Some OPEN)); reflexivity.
  - split.
    + unfold onDetach. unfold_M. simpl. rewrite Hhas. simpl.
      eexists. split; reflexivity.
    + unfold onRemoved. unfold_M. simpl. rewrite Hhas. reflexivity.
Qed.

Lemma X14_session_loss_is_reported_witness :
  has_session (PNum 1) attached_to_1 = true ∧
  ∃ out, onRemoved (PNum 1) attached_to_1
         = Done (Ok tt) (without_session (PNum 1) attached_to_1) out ∧
         wire out = delivered attached_to_1 (TabClosed (PNum 1)).
Proof.
  assert (H : has_session (PNum 1) attached_to_1 = true) by (vm_compute; reflexivity).
  split; [exact H|].
  exact (proj2 (proj1 (X14_session_loss_is_reported (PNum 1) VUndefined attached_to_1) H)).
Defined.

(** ** Subscriptions, pair by pair *)

Lemma subscribers_registered_other (tabId eventName listenerId t e : Prim) (s : State) :
  (t, e) ≠ (tabId, eventName) ->
  subscribers t e (registered tabId eventName listenerId s) = subscribers t e s.
Proof.
  intros Hne. unfold subscribers, registered, events_of. simpl.
  destruct (decide (t = tabId)) as [->|Ht].
  - rewrite lookup_insert_eq. simpl.
    rewrite lookup_insert_ne by congruence.
    destruct (cdpEventListeners s !! tabId); reflexivity.
  - rewrite lookup_insert_ne by congruence. reflexivity.
Qed.

Lemma subscribers_unregistered_other (tabId eventName listenerId t e : Prim) (s : State) :
  (t, e) ≠ (tabId, eventName) ->
  subscribers t e (unregistered tabId eventName listenerId s) = subscribers t e s.
Proof.
  intros Hne. unfold subscribers, unregistered, events_of.
  destruct (cdpEventListeners s !! tabId) as [events|] eqn:Htab; simpl; [|reflexivity].
  destruct (events !! eventName) as [ids|] eqn:Hev; simpl; [|reflexivity].
  destruct (decide (t = tabId)) as [->|Ht].
  - rewrite lookup_insert_eq, Htab. simpl.
    destruct (decide (size (ids ∖ {[listenerId]}) = 0%nat)).
    + rewrite lookup_delete_ne by congruence. reflexivity.
    + rewrite lookup_insert_ne by congruence. reflexivity.
  - rewrite lookup_insert_ne by congruence. reflexivity.
Qed.

(** X15. Subscriptions are kept per tab, event and listener id.
    Subscribing an id that was not subscribed and unsubscribing it again
    gives the pair the subscribers it had; subscribing or unsubscribing
    leaves the subscribers of every other pair of tab and event, every
    session and every forwarding listener as they are; and unsubscribing one
    id removes no other id. *)
Theorem X15_subscriptions_are_kept_per_pair
    (tabId eventName listenerId : Prim) (s : State) :
  let s1 := step_state (registerCDPListener tabId eventName listenerId s) in
  let s2 := step_state (unregisterCDPListener tabId eventName listenerId s1) in
  let s3 := step_state (unregisterCDPListener tabId eventName listenerId s) in
  (listenerId ∉ subscribers tabId eventName s ->
   subscribers tabId eventName s2 = subscribers tabId eventName s) ∧
  (∀ t e, (t, e) ≠ (tabId, eventName) ->
          subscribers t e s1 = subscribers t e s ∧ subscribers t e s3 = subscribers t e s) ∧
  (∀ other, other ≠ listenerId ->
            (other ∈ subscribers tabId eventName s3 ↔ other ∈ subscribers tabId eventName s)) ∧
  activeSessions s1 = activeSessions s ∧ activeSessions s3 = activeSessions s ∧
  onEventListeners s1 = onEventListeners s ∧ onEventListeners s3 = onEventListeners s.
Proof.
  cbv zeta. rewrite registerCDPListener_eq, !unregisterCDPListener_eq. cbn [step_state].
  split; [|split; [|split]].
  - intros Hnot. rewrite subscribers_unregistered, subscribers_registered. set_solver.
  - intros t e Hne. split.
    + apply subscribers_registered_other, Hne.
    + apply subscribers_unregistered_other, Hne.
  - intros other Hne. rewrite subscribers_unregistered. set_solver.
  - unfold unregistered.
    destruct (cdpEventListeners s !! tabId ≫= _); repeat split.
Qed.

Lemma X15_subscriptions_are_kept_per_pair_witness :
  (PStr "L2" ∉ subscribers (PNum 1) (PStr "Page.loadEventFired") (globals subscribed_config)) ∧
  subscribers (PNum 1) (PStr "Page.loadEventFired")
    (step_state
       (unregisterCDPListener (PNum 1) (PStr "Page.loadEventFired") (PStr "L2")
          (step_state
             (registerCDPListener (PNum 1) (PStr "Page.loadEventFired") (PStr "L2")
                (globals subscribed_config)))))
  = subscribers (PNum 1) (PStr "Page.loadEventFired") (globals subscribed_config).
Proof.
  assert (Hnot : PStr "L2" ∉ subscribers (PNum 1) (PStr "Page.loadEventFired")
                                         (globals subscribed_config)).
  { apply (bool_decide_unpack _). vm_compute. exact I. }
  split; [exact Hnot|].
  exact (proj1 (X15_subscriptions_are_kept_per_pair (PNum 1) (PStr "Page.loadEventFired")
                  (PStr "L2") (globals subscribed_config)) Hnot).
Defined.

(** X16. Two facts hold of the globals in every reachable configuration:
    no empty set is stored in the subscription registry (the last
    unsubscription of a pair deletes its entry), so the test of the
    forwarding listener holds exactly when some id is subscribed; and every
    tab with a session has a forwarding listener installed. *)
Theorem X16_registry_and_listeners_invariant (c : Config) :
  reachable c ->
  (∀ tabId events eventName ids,
     cdpEventListeners (globals c) !! tabId = Some events ->
     events !! eventName = Some ids -> ids ≠ ∅) ∧
  (∀ tabId method,
     forwards tabId method (globals c) = true ↔ subscribed tabId (PStr method) (globals c)) ∧
  (∀ tabId, is_Some (activeSessions (globals c) !! tabId) ->
            tabId ∈ onEventListeners (globals c)).
Proof.
  intros Hreach. destruct (reachable_Inv c Hreach) as [[Hwf Hli] _].
  split; [exact Hwf|]. split; [|exact Hli].
  intros tabId method. apply forwards_subscribed, Hwf.
Qed.

Lemma X16_registry_and_listeners_invariant_witness :
  reachable subscribed_config ∧ PNum 1 ∈ onEventListeners (globals subscribed_config).
Proof.
  split; [exact reachable_subscribed_config|].
  refine (proj2 (proj2 (X16_registry_and_listeners_invariant subscribed_config
                          reachable_subscribed_config)) (PNum 1) _).
  apply (bool_decide_unpack _). vm_compute. exact I.
Defined.

(** ** One copy of an event per listener *)

Lemma onEvent_wire (tabId : Prim) (method : string) (params : Val) (clock : nat -> Z)
    (s : State) :
  serverWs s = Some OPEN -> forwards tabId method s = true ->
  wire (step_out (onEvent tabId method params clock s))
  = map (CdpEvent tabId method params) (stamps (onEventListeners s) 0 tabId clock).
Proof.
  intros Hopen Hfw. unfold onEvent. unfold mbind, M_bind, gets. simpl.
  destruct (run_listeners_eq (onEventListeners s) 0 tabId method params clock s)
    as (out & Hrun & Hwire & _).
  rewrite Hrun. simpl. rewrite Hwire, Hfw.
  destruct (decide (serverWs s = Some OPEN)); [reflexivity | contradiction].
Qed.

(** X17. Every successful attach of a tab adds one forwarded copy of its
    events.  [attachDebugger] installs a forwarding listener and nothing
    removes one, so with the socket open and the event subscribed, an event
    of the tab is forwarded once more after the attach than it would have
    been before. *)
Theorem X17_each_attach_adds_a_copy
    (chrome : Oracle) (tabId : Prim) (method : string) (params : Val)
    (clock : nat -> Z) (s : State) :
  is_attached tabId s = false ->
  chrome _ (debugger_attach tabId "1.3") = Ok tt ->
  serverWs s = Some OPEN ->
  forwards tabId method s = true ->
  let s1 := (complete chrome (attachDebugger tabId s)).1.2 in
  length (wire (step_out (onEvent tabId method params clock s1)))
  = S (length (wire (step_out (onEvent tabId method params clock s)))).
Proof.
  intros Hatt Hok Hopen Hfw. cbv zeta.
  assert (Hs1 : (complete chrome (attachDebugger tabId s)).1.2 = with_session tabId s).
  { unfold attachDebugger. unfold_M. simpl. rewrite Hatt. simpl. rewrite Hok.
    change (Done (Ok tt) s []) with ((mret tt : M unit) s).
    unfold setupCDPEventForwarding. unfold_M. simpl.
    rewrite has_session_insert. simpl.
    unfold with_session, set_onEventListeners, set_activeSessions. simpl.
    rewrite alter_insert_eq. reflexivity. }
  rewrite Hs1, !onEvent_wire by assumption.
  rewrite !length_map. simpl. rewrite stamps_app, length_app. simpl.
  destruct (decide (tabId = tabId)); [simpl; lia | contradiction].
Qed.

Lemma X17_each_attach_adds_a_copy_witness :
  is_attached (PNum 2)
    (registered (PNum 2) (PStr "Page.loadEventFired") (PStr "L1") attached_to_1) = false ∧
  length (wire (step_out
    (onEvent (PNum 2) "Page.loadEventFired" VUndefined (fun _ => 0)
       (complete agreeable
          (attachDebugger (PNum 2)
             (registered (PNum 2) (PStr "Page.loadEventFired") (PStr "L1") attached_to_1))).1.2)))
  = 1%nat.
Proof.
  assert (Hatt : is_attached (PNum 2)
            (registered (PNum 2) (PStr "Page.loadEventFired") (PStr "L1") attached_to_1) = false)
    by (vm_compute; reflexivity).
  split; [exact Hatt|].
  refine (eq_trans (X17_each_attach_adds_a_copy agreeable (PNum 2) "Page.loadEventFired"
            VUndefined (fun _ => 0) _ Hatt eq_refl eq_refl _) _).
  - vm_compute. reflexivity.
  - vm_compute. reflexivity.
Defined.

(** ** Navigating *)

(** X18. [navigateTo] always starts with [chrome.tabs.update]; if the
    browser rejects it, that error is the outcome and nothing else is
    called.  After the update, options without a truthy [waitUntil] (the
    default [{}] included) give [{navigated: true, url}] at once; a truthy
    [waitUntil] makes the call wait for the navigation, with 30000 ms in
    place of a missing [timeout], and the outcome of the wait decides the
    outcome of the call; and [null] for the options makes the call fail
    with a [TypeError] although the update has been made.  The globals are
    left alone throughout. *)
Theorem X18_navigate_waits_only_on_request
    (chrome : Oracle) (tabId : Prim) (url options : Val) (s : State) :
  let run := complete chrome (navigateTo tabId url options s) in
  let navigated := VObj [("navigated", VBool true); ("url", url)] in
  run.1.2 = s ∧ wire run.2 = [] ∧
  match chrome _ (tabs_update tabId url) with
  | Throw error =>
      run.1.1 = Throw error ∧ chrome_calls run.2 = [existT _ (tabs_update tabId url)]
  | Ok _ =>
      (options = VNull ->
       (∃ error, run.1.1 = Throw error) ∧
       chrome_calls run.2 = [existT _ (tabs_update tabId url)]) ∧
      (∀ fields,
         default_param (VObj []) options = VObj fields ->
         let waitUntil := assoc "waitUntil" fields in
         let wait := navigation_completed tabId (default_param (VStr "load") waitUntil)
                       (default_param (VNum 30000) (assoc "timeout" fields)) in
         if truthy waitUntil
         then chrome_calls run.2 = [existT _ (tabs_update tabId url); existT _ wait] ∧
              run.1.1 = match chrome _ wait with
                        | Ok _ => Ok navigated
                        | Throw error => Throw error
                        end
         else chrome_calls run.2 = [existT _ (tabs_update tabId url)] ∧
              run.1.1 = Ok navigated)
  end.
Proof.
  cbv zeta. unfold navigateTo, waitForNavigation. cbv zeta. unfold_M. unfold await. simpl.
  destruct (chrome unit (tabs_update tabId url)) as [[]|error]; simpl.
  2:{ repeat split. }
  destruct (get_field "waitUntil" (default_param (VObj []) options)) as [waitUntil|] eqn:Hget.
  - simpl. destruct (truthy waitUntil) eqn:Htruthy; simpl.
    + destruct (chrome unit (navigation_completed tabId _ _)) as [[]|error] eqn:Hwait; simpl;
        (split; [reflexivity|]; split; [reflexivity|]; split;
         [intros ->; discriminate Hget|]);
        intros fields Hfields; rewrite Hfields in Hget; simpl in Hget;
        injection Hget as <-; rewrite Htruthy; rewrite Hfields in Hwait; simpl in Hwait;
        rewrite Hfields; simpl; rewrite Hwait; split; reflexivity.
    + split; [reflexivity|]. split; [reflexivity|]. split; [intros ->; discriminate Hget|].
      intros fields Hfields. rewrite Hfields in Hget. simpl in Hget.
      injection Hget as <-. rewrite Htruthy. split; reflexivity.
  - simpl. split; [reflexivity|]. split; [reflexivity|]. split.
    + intros _. split; [eexists; reflexivity | reflexivity].
    + intros fields Hfields. rewrite Hfields in Hget. discriminate Hget.
Qed.

Lemma X18_navigate_waits_only_on_request_witness :
  default_param (VObj []) (VObj [("waitUntil", VStr "load")])
  = VObj [("waitUntil", VStr "load")] ∧
  chrome_calls
    (complete agreeable
       (navigateTo (PNum 1) (VStr "https://example.com")
          (VObj [("waitUntil", VStr "load")]) connected)).2
  = [existT _ (tabs_update (PNum 1) (VStr "https://example.com"));
     existT _ (navigation_completed (PNum 1) (VStr "load") (VNum 30000))].
Proof.
  split; [reflexivity|].
  exact (proj1 (proj2 (proj2 (proj2 (X18_navigate_waits_only_on_request agreeable (PNum 1)
                  (VStr "https://example.com") (VObj [("waitUntil", VStr "load")]) connected)))
               [("waitUntil", VStr "load")] eq_refl)).
Defined.
